(** * zauthSDK: payment-header decoder, response validator, refund executor

    A shallow embedding of the parts of the SDK that the specification makes
    claims about:

    - [Base58], [Solana], [PaymentHeader]: [base58Encode],
      [extractSolanaFeePayer] and [decodePaymentHeader] of [utils.ts], in
      both versions the repository carries (the one that parses the
      instructions, and the older one that stops at the account table);
    - [Wire]: the wire format of a Solana transaction, its lengths in
      compact-u16, with the payer as the specification words it;
      [Reference]: a concrete runtime (base64, JSON) for the worked
      examples;
    - [Validator]: [isEmptyResponse], [hasErrorIndicators],
      [checkEmptyCollections] and [validateResponse];
    - [Refund]: the [RefundExecutor] class: [processSingleRefund] (split at
      its [await] of the on-chain transfer) and [scheduleReconnect];
    - [Schema]: [validateSchema] and [createSchemaValidator]; [Handler]:
      [RefundHandler.shouldRefund]; [X402]: [parseX402Response],
      [getPaymentRequirements] and [detectX402Version];
    - [Telemetry]: [redactFields] and [redactHeaders]; [Client]: the
      batching of [ZauthClient] ([queueEvent], [flush] split at its
      [await], [submitBatch]).

    JavaScript numbers that the code uses as IEEE doubles (the score, USD
    amounts and caps) are primitive floats; counters, offsets, byte values
    and status codes, which stay integers far below 2^53, are [Z]. *)

From Stdlib Require Import ZArith Lia Bool List Ascii String.
From Stdlib Require Import Strings.Byte.
From Stdlib Require Import Floats.PrimFloat Floats.FloatOps Floats.SpecFloat.
From Stdlib Require Import Numbers.Cyclic.Int63.Uint63.
From Stdlib Require Floats.FloatAxioms.
From stdpp Require Import base option list strings pretty gmap.

#[local] Set Warnings "-register-all,-inexact-float".
Local Open Scope string_scope.
Local Open Scope list_scope.
Local Open Scope Z_scope.

(** ** Abrupt completion

    A JavaScript call either returns a value or throws.  [try_catch] is the
    [try { ... } catch { ... }] statement. *)

Inductive Completion (A : Type) : Type :=
| Normal (a : A)
| Thrown (message : string).
Arguments Normal {A} a.
Arguments Thrown {A} message.

Definition bindC {A B} (c : Completion A) (k : A -> Completion B) : Completion B :=
  match c with
  | Normal a => k a
  | Thrown m => Thrown m
  end.

Definition try_catch {A} (body : Completion A) (handler : string -> Completion A)
  : Completion A :=
  match body with
  | Normal a => Normal a
  | Thrown m => handler m
  end.

Declare Scope completion_scope.
Delimit Scope completion_scope with completion.
Notation "'let*' x ':=' c 'in' k" := (bindC c (fun x => k))
  (at level 10, x name, c at level 100, k at level 200) : completion_scope.

(** ** JavaScript values

    What [JSON.parse] can return, plus [undefined].  An object is its own
    enumerable properties in insertion order, and its prototype is
    [Object.prototype] (that of an array is [Array.prototype]), as for every
    value [JSON.parse] or an object literal builds.  [get] is the lookup
    [o.k] of an own property: none of the names the code reads with it is a
    member of a prototype.  Where the code takes the name from its caller
    ([k in o]), the inherited members count as well, see [has].  A string
    is its sequence of code units, those below 256. *)

Module Js.

Inductive value : Type :=
| Undefined
| Null
| Bool (b : bool)
| Num (f : float)
| Str (s : string)
| Arr (items : list value)
| Obj (props : list (string * value)).

(** [o.hasOwnProperty(k)] and [o\[k\]] on the property list. *)
Fixpoint lookup (k : string) (props : list (string * value)) : option value :=
  match props with
  | [] => None
  | (k', v) :: rest => if String.eqb k k' then Some v else lookup k rest
  end.

(** [ToBoolean]. *)
Definition truthy (v : value) : bool :=
  match v with
  | Undefined | Null => false
  | Bool b => b
  | Num f => negb (PrimFloat.eqb f 0%float || PrimFloat.is_nan f)
  | Str s => negb (String.eqb s "")
  | Arr _ | Obj _ => true
  end.

(** [a || b]. *)
Definition or (a b : value) : value := if truthy a then a else b.

(** [v.k]: a [TypeError] on [null] and [undefined]. *)
Definition get (v : value) (k : string) : Completion value :=
  match v with
  | Undefined => Thrown ("Cannot read properties of undefined (reading '" +:+ k +:+ "')")
  | Null => Thrown ("Cannot read properties of null (reading '" +:+ k +:+ "')")
  | Obj props => Normal (default Undefined (lookup k props))
  | Bool _ | Num _ | Str _ | Arr _ => Normal Undefined
  end.

(** [v?.k]. *)
Definition get_opt (v : value) (k : string) : value :=
  match v with
  | Obj props => default Undefined (lookup k props)
  | _ => Undefined
  end.

Definition is_nullish (v : value) : bool :=
  match v with
  | Undefined | Null => true
  | _ => false
  end.

(** An integer as a double (exact below 2^53). *)
Definition float_of_Z (z : Z) : float :=
  if z <? 0 then PrimFloat.opp (PrimFloat.of_uint63 (Uint63.of_Z (- z)))
  else PrimFloat.of_uint63 (Uint63.of_Z z).

(** [typeof v === 'object']: [null], arrays and objects. *)
Definition typeof_object (v : value) : bool :=
  match v with
  | Null | Arr _ | Obj _ => true
  | _ => false
  end.

Definition is_digit (c : ascii) : bool :=
  let n := N_of_ascii c in ((48 <=? n) && (n <=? 57))%N.

Fixpoint decimal (s : string) (acc : nat) : option nat :=
  match s with
  | EmptyString => Some acc
  | String c rest =>
      if is_digit c
      then decimal rest (acc * 10 + (N.to_nat (N_of_ascii c) - 48))%nat
      else None
  end.

(** A property name that is an array index: ["0"], or digits without a
    leading zero. *)
Definition array_index (k : string) : option nat :=
  match k with
  | EmptyString => None
  | String c rest =>
      if Ascii.eqb c "0"%char
      then (if String.eqb rest "" then Some 0%nat else None)
      else decimal k 0
  end.

(** The own property [k] of an object or an array (its elements and its
    [length]); [None] when there is none, which is when [k in v] is false
    and [v\[k\]] is [undefined]. *)
Definition own_property (v : value) (k : string) : option value :=
  match v with
  | Obj props => lookup k props
  | Arr items =>
      if String.eqb k "length" then Some (Num (float_of_Z (Z.of_nat (length items))))
      else match array_index k with
           | Some i => items !! i
           | None => None
           end
  | _ => None
  end.

(** The members of [Object.prototype] that have a string for name; every
    object and every array inherits them.  Each is a function, except
    [__proto__], an accessor that returns the prototype itself. *)
Definition OBJECT_PROTOTYPE : list string :=
  ["constructor"; "__defineGetter__"; "__defineSetter__"; "hasOwnProperty";
   "__lookupGetter__"; "__lookupSetter__"; "isPrototypeOf";
   "propertyIsEnumerable"; "toString"; "valueOf"; "__proto__";
   "toLocaleString"].

(** Those of [Array.prototype] (ECMAScript 2023), next to [length], which
    is an own property of every array; all are functions. *)
Definition ARRAY_PROTOTYPE : list string :=
  ["constructor"; "at"; "concat"; "copyWithin"; "fill"; "find"; "findIndex";
   "findLast"; "findLastIndex"; "lastIndexOf"; "pop"; "push"; "reverse";
   "shift"; "unshift"; "slice"; "sort"; "splice"; "includes"; "indexOf";
   "join"; "keys"; "entries"; "values"; "forEach"; "filter"; "flat";
   "flatMap"; "map"; "every"; "some"; "reduce"; "reduceRight"; "toReversed";
   "toSorted"; "toSpliced"; "with"; "toLocaleString"; "toString"].

(** The members an object or an array finds along its prototype chain. *)
Definition inherits (v : value) (k : string) : bool :=
  match v with
  | Obj _ => existsb (String.eqb k) OBJECT_PROTOTYPE
  | Arr _ => existsb (String.eqb k) (ARRAY_PROTOTYPE ++ OBJECT_PROTOTYPE)
  | _ => false
  end.

(** [k in v] on an object or an array: an own property, or a member of the
    prototype chain. *)
Definition has (v : value) (k : string) : bool :=
  match own_property v k with
  | Some _ => true
  | None => inherits v k
  end.

(** [result\[key\] = v] on an object built as [{}] makes [key] an own
    property, except under the name [__proto__]: the assignment then goes
    to the accessor of [Object.prototype], which replaces the prototype of
    [result] when [v] is an object and does nothing otherwise.  Either way
    [result] gets no own property, so that the entry is missing from
    [Object.entries(result)] and from [JSON.stringify(result)]. *)
Definition assigns_own (key : string) : bool :=
  negb (String.eqb key "__proto__").

(** [Object.keys(v).length] of an object or an array. *)
Definition keys_length (v : value) : nat :=
  match v with
  | Obj props => length props
  | Arr items => length items
  | _ => 0%nat
  end.

(** [v === false]. *)
Definition is_false (v : value) : bool :=
  match v with
  | Bool false => true
  | _ => false
  end.

End Js.

(** ** Bytes *)

Definition byteval (b : byte) : Z := Z.of_N (Byte.to_N b).

(** ** [base58Encode] *)

Module Base58.

Definition ALPHABET : string :=
  "123456789ABCDEFGHJKLMNPQRSTUVWXYZabcdefghijkmnopqrstuvwxyz".
Definition BASE : Z := 58.

(** [ALPHABET\[remainder\]]; the remainder is always in range. *)
Definition alphabet_at (remainder : Z) : ascii :=
  default "?"%char (String.get (Z.to_nat remainder) ALPHABET).

(** [for (const byte of bytes) num = num * 256n + BigInt(byte)]. *)
Definition bytes_to_num (bytes : list byte) : Z :=
  fold_left (fun num b => num * 256 + byteval b) bytes 0.

(** [while (num > 0) { ... }], the number of rounds bounded by [fuel]. *)
Fixpoint to_base58 (fuel : nat) (num : Z) (result : string) : string :=
  match fuel with
  | O => result
  | S fuel' =>
      if 0 <? num
      then to_base58 fuel' (num / BASE)
             (String (alphabet_at (num mod BASE)) result)
      else result
  end.

(** The second loop: one ['1'] for every leading zero byte. *)
Fixpoint leading_ones (bytes : list byte) (result : string) : string :=
  match bytes with
  | [] => result
  | b :: rest =>
      if byteval b =? 0 then leading_ones rest (String "1"%char result)
      else result
  end.

(** A number below [256 ^ length bytes] has fewer than [8 * length bytes]
    base-58 digits, see [to_base58_fuel]. *)
Definition rounds (bytes : list byte) : nat := (8 * length bytes)%nat.

Definition base58Encode (bytes : list byte) : string :=
  let result := to_base58 (rounds bytes) (bytes_to_num bytes) "" in
  let result := leading_ones bytes result in
  if String.eqb result "" then "1" else result.

(** [n] characters ['1']. *)
Fixpoint ones (n : nat) : string :=
  match n with
  | O => ""
  | S n' => String "1"%char (ones n')
  end.

End Base58.

(** ** The runtime services the decoder calls

    [Buffer.from(_, 'base64')] / [atob] and [JSON.parse] belong to the
    JavaScript runtime, not to the SDK.  The decoder is modelled over any
    runtime; each service may throw. *)

Record Runtime : Type := {
  (** [Buffer.from(paymentHeader, 'base64').toString('utf-8')], or
      [atob(paymentHeader)] where there is no [Buffer]. *)
  base64_text : string -> Completion string;
  (** [JSON.parse]. *)
  JSON_parse : string -> Completion Js.value;
  (** [Buffer.from(base64Transaction, 'base64')], or
      [Uint8Array.from(atob(base64Transaction), ...)]; the argument is
      whatever value [payload.transaction] holds. *)
  base64_bytes : Js.value -> Completion (list byte)
}.

(** *** A reference runtime

    A concrete runtime on which the decoder can be run on a header string:
    base64 as Node decodes it (both alphabets, characters outside them
    skipped, the first ['='] ends the input), and a JSON parser for
    documents of objects, arrays, strings with the single-character
    escapes, integers, [true], [false] and [null].  It refuses what it does
    not cover (a fraction, an exponent, a [\u] escape), so it is used for
    the worked examples only; the theorems hold for every runtime. *)

Module Reference.

Definition sextet (c : ascii) : option N :=
  let n := N_of_ascii c in
  if ((65 <=? n) && (n <=? 90))%N then Some (n - 65)%N
  else if ((97 <=? n) && (n <=? 122))%N then Some (n - 71)%N
  else if ((48 <=? n) && (n <=? 57))%N then Some (n + 4)%N
  else if ((n =? 43) || (n =? 45))%N then Some 62%N
  else if ((n =? 47) || (n =? 95))%N then Some 63%N
  else None.

Fixpoint sextets (s : string) : list N :=
  match s with
  | EmptyString => []
  | String c rest =>
      if Ascii.eqb c "="%char then []
      else match sextet c with
           | Some n => n :: sextets rest
           | None => sextets rest
           end
  end.

Definition to_byte (n : N) : byte := default x00 (Byte.of_N (n mod 256)).

Fixpoint group (l : list N) : list byte :=
  match l with
  | a :: b :: c :: d :: rest =>
      to_byte (a * 4 + b / 16) :: to_byte (b * 16 + c / 4) :: to_byte (c * 64 + d)
        :: group rest
  | [a; b; c] => [to_byte (a * 4 + b / 16); to_byte (b * 16 + c / 4)]
  | [a; b] => [to_byte (a * 4 + b / 16)]
  | _ => []
  end%N.

Definition base64_decode (s : string) : list byte := group (sextets s).

(** The decoded bytes as text, one character per byte. *)
Definition text_of (bytes : list byte) : string :=
  string_of_list_ascii (map ascii_of_byte bytes).

Definition quote : ascii := "034"%char.
Definition backslash : ascii := "092"%char.

Definition is_space (c : ascii) : bool :=
  let n := N_of_ascii c in ((n =? 32) || (n =? 9) || (n =? 10) || (n =? 13))%N.

Definition is_digit : ascii -> bool := Js.is_digit.

Fixpoint skip_space (s : string) : string :=
  match s with
  | String c rest => if is_space c then skip_space rest else s
  | EmptyString => s
  end.

(** The characters of a string literal after its opening quote. *)
Fixpoint string_literal (s : string) (acc : string) : option (string * string) :=
  match s with
  | EmptyString => None
  | String c rest =>
      if Ascii.eqb c quote then Some (acc, rest)
      else if Ascii.eqb c backslash then
        match rest with
        | String e rest' =>
            let unescaped :=
              if Ascii.eqb e quote then Some quote
              else if Ascii.eqb e backslash then Some backslash
              else if Ascii.eqb e "/"%char then Some "/"%char
              else if Ascii.eqb e "n"%char then Some "010"%char
              else if Ascii.eqb e "t"%char then Some "009"%char
              else if Ascii.eqb e "r"%char then Some "013"%char
              else if Ascii.eqb e "b"%char then Some "008"%char
              else if Ascii.eqb e "f"%char then Some "012"%char
              else None in
            match unescaped with
            | Some u => string_literal rest' (acc +:+ String u EmptyString)
            | None => None
            end
        | EmptyString => None
        end
      else if (N_of_ascii c <? 32)%N then None
      else string_literal rest (acc +:+ String c EmptyString)
  end.

Fixpoint digits (s : string) (acc : Z) : Z * string :=
  match s with
  | String c rest =>
      if is_digit c then digits rest (acc * 10 + (Z.of_N (N_of_ascii c) - 48))
      else (acc, s)
  | EmptyString => (acc, s)
  end.

(** An integer literal: no leading zero, and nothing after the digits
    that would continue a number. *)
Definition integer_literal (s : string) : option (Js.value * string) :=
  let '(negative, body) :=
    match s with
    | String "-"%char rest => (true, rest)
    | _ => (false, s)
    end in
  match body with
  | String c rest =>
      if negb (is_digit c) then None
      else if Ascii.eqb c "0"%char && match rest with
                                      | String d _ => is_digit d
                                      | EmptyString => false
                                      end then None
      else
        let '(z, after) := digits body 0 in
        match after with
        | String "."%char _ | String "e"%char _ | String "E"%char _ => None
        | _ => Some (Js.Num (Js.float_of_Z (if negative then - z else z)), after)
        end
  | EmptyString => None
  end.

(** [obj\[k\] = v]: a repeated key keeps its place and takes the new value. *)
Fixpoint set_property (k : string) (v : Js.value) (props : list (string * Js.value))
  : list (string * Js.value) :=
  match props with
  | [] => [(k, v)]
  | (k', v') :: rest =>
      if String.eqb k k' then (k', v) :: rest else (k', v') :: set_property k v rest
  end.

Definition keyword (word : string) (v : Js.value) (s : string)
  : option (Js.value * string) :=
  if String.prefix word s
  then Some (v, String.substring (String.length word)
                  (String.length s - String.length word) s)
  else None.

Fixpoint value (fuel : nat) (s : string) : option (Js.value * string) :=
  match fuel with
  | O => None
  | S fuel' =>
      match skip_space s with
      | String c rest =>
          if Ascii.eqb c "{"%char then
            match skip_space rest with
            | String "}"%char after => Some (Js.Obj [], after)
            | _ => members fuel' rest []
            end
          else if Ascii.eqb c "["%char then
            match skip_space rest with
            | String "]"%char after => Some (Js.Arr [], after)
            | _ => elements fuel' rest []
            end
          else if Ascii.eqb c quote then
            match string_literal rest "" with
            | Some (str, after) => Some (Js.Str str, after)
            | None => None
            end
          else if Ascii.eqb c "t"%char then keyword "true" (Js.Bool true) (String c rest)
          else if Ascii.eqb c "f"%char then keyword "false" (Js.Bool false) (String c rest)
          else if Ascii.eqb c "n"%char then keyword "null" Js.Null (String c rest)
          else integer_literal (String c rest)
      | EmptyString => None
      end
  end
with members (fuel : nat) (s : string) (acc : list (string * Js.value))
  : option (Js.value * string) :=
  match fuel with
  | O => None
  | S fuel' =>
      match skip_space s with
      | String c rest =>
          if Ascii.eqb c quote then
            match string_literal rest "" with
            | Some (k, after) =>
                match skip_space after with
                | String ":"%char after' =>
                    match value fuel' after' with
                    | Some (v, after'') =>
                        match skip_space after'' with
                        | String ","%char more =>
                            members fuel' more (set_property k v acc)
                        | String "}"%char done => Some (Js.Obj (set_property k v acc), done)
                        | _ => None
                        end
                    | None => None
                    end
                | _ => None
                end
            | None => None
            end
          else None
      | EmptyString => None
      end
  end
with elements (fuel : nat) (s : string) (acc : list Js.value)
  : option (Js.value * string) :=
  match fuel with
  | O => None
  | S fuel' =>
      match value fuel' s with
      | Some (v, after) =>
          match skip_space after with
          | String ","%char more => elements fuel' more (acc ++ [v])
          | String "]"%char done => Some (Js.Arr (acc ++ [v]), done)
          | _ => None
          end
      | None => None
      end
  end.

Definition parse (s : string) : Completion Js.value :=
  match value (S (String.length s)) s with
  | Some (v, after) =>
      match skip_space after with
      | EmptyString => Normal v
      | _ => Thrown "Unexpected non-whitespace character after JSON"
      end
  | None => Thrown "Unexpected token"
  end.

(** [Buffer.from(v, 'base64')] for a string; for the other values a
    transaction field can hold the example runtime throws. *)
Definition bytes_of (v : Js.value) : Completion (list byte) :=
  match v with
  | Js.Str s => Normal (base64_decode s)
  | _ => Thrown "The first argument must be of type string"
  end.

Definition runtime : Runtime := {|
  base64_text := fun header => Normal (text_of (base64_decode header));
  JSON_parse := parse;
  base64_bytes := bytes_of
|}.

End Reference.

(** ** [extractSolanaFeePayer]: the walk over the transaction bytes *)

Module Solana.
Import Base58.

Definition SPL_TOKEN_PROGRAM : string :=
  "TokenkegQfeZyiNwAJbNbGKPFXCWuBvf9Ss623VQ5DA".
Definition SPL_TOKEN_2022_PROGRAM : string :=
  "TokenzQdBNbLqP5VEhdkAS6EPFLC1PHnBqCXEpPxuEb".

(** A number read from the array: [None] is [undefined], and [NaN] once
    it has entered the arithmetic on [offset]. *)
Definition number : Type := option Z.

Definition plus (a b : number) : number :=
  match a, b with
  | Some x, Some y => Some (x + y)
  | _, _ => None
  end.

Definition times (a b : number) : number :=
  match a, b with
  | Some x, Some y => Some (x * y)
  | _, _ => None
  end.

(** [txBytes\[offset\]]: [undefined] outside the array, no exception. *)
Definition at_offset (txBytes : list byte) (offset : number) : number :=
  match offset with
  | Some o => if o <? 0 then None else byteval <$> txBytes !! Z.to_nat o
  | None => None
  end.

(** [txBytes.slice(start, end)]: both ends are clamped to the array, and
    [NaN] counts as 0. *)
Definition slice (txBytes : list byte) (start stop : number) : list byte :=
  let s := Z.to_nat (default 0 start) in
  let e := Z.to_nat (default 0 stop) in
  take (e - s) (drop s txBytes).

(** The number of rounds of [for (let i = 0; i < n; i++)]; [i < undefined]
    is false. *)
Definition rounds_of (n : number) : nat := Z.to_nat (default 0 n).

(** [(b & 0x80) !== 0]; [undefined & 0x80] is 0. *)
Definition high_bit_set (b : number) : bool :=
  negb (Z.land (default 0 b) 128 =? 0).

(** [array\[index\]] on a JavaScript array. *)
Definition element {A} (array : list A) (index : number) : option A :=
  match index with
  | Some i => if i <? 0 then None else array !! Z.to_nat i
  | None => None
  end.

(** [base58Encode(accountKeys\[i\])]: iterating [undefined] is a
    [TypeError]. *)
Definition encode_key (key : option (list byte)) : Completion string :=
  match key with
  | Some bytes => Normal (base58Encode bytes)
  | None => Thrown "bytes is not iterable"
  end.

(** The account-key loop: [accountKeys.push(txBytes.slice(offset, offset + 32))]. *)
Fixpoint read_account_keys (txBytes : list byte) (rounds : nat) (offset : number)
    (accountKeys : list (list byte)) : list (list byte) * number :=
  match rounds with
  | O => (accountKeys, offset)
  | S rounds' =>
      read_account_keys txBytes rounds' (plus offset (Some 32))
        (accountKeys ++ [slice txBytes offset (plus offset (Some 32))])
  end.

(** The inner loop: [ixAccountIndices.push(txBytes\[offset\])]. *)
Fixpoint read_indices (txBytes : list byte) (rounds : nat) (offset : number)
    (ixAccountIndices : list number) : list number * number :=
  match rounds with
  | O => (ixAccountIndices, offset)
  | S rounds' =>
      read_indices txBytes rounds' (plus offset (Some 1))
        (ixAccountIndices ++ [at_offset txBytes offset])
  end.

Definition is_token_program (programAddr : string) : bool :=
  String.eqb programAddr SPL_TOKEN_PROGRAM
  || String.eqb programAddr SPL_TOKEN_2022_PROGRAM.

(** The instruction loop; [Normal None] when it ends without a [return]. *)
Fixpoint scan_instructions (txBytes : list byte) (accountKeys : list (list byte))
    (rounds : nat) (offset : number) : Completion (option string) :=
  match rounds with
  | O => Normal None
  | S rounds' =>
      let programIdIndex := at_offset txBytes offset in
      let offset := plus offset (Some 1) in
      let numIxAccounts := at_offset txBytes offset in
      let offset := plus offset (Some 1) in
      let '(ixAccountIndices, offset) :=
        read_indices txBytes (rounds_of numIxAccounts) offset [] in
      let dataLen := at_offset txBytes offset in
      let offset := plus offset (plus (Some 1) dataLen) in
      (let* programAddr := encode_key (element accountKeys programIdIndex) in
       if is_token_program programAddr then
         if (4 <=? length ixAccountIndices)%nat then
           let authorityIndex := default None (ixAccountIndices !! 3%nat) in
           let* payer := encode_key (element accountKeys authorityIndex) in
           Normal (Some payer)
         else if (3 <=? length ixAccountIndices)%nat then
           let authorityIndex := default None (ixAccountIndices !! 2%nat) in
           let* payer := encode_key (element accountKeys authorityIndex) in
           Normal (Some payer)
         else scan_instructions txBytes accountKeys rounds' offset
       else scan_instructions txBytes accountKeys rounds' offset)%completion
  end.

(** The body of the [try] block, after the bytes have been decoded. *)
Definition walk (txBytes : list byte) : Completion (option string) :=
  let offset := Some 0 in
  let numSignatures := at_offset txBytes offset in
  let offset := plus offset (plus (Some 1) (times numSignatures (Some 64))) in
  let offset :=
    if high_bit_set (at_offset txBytes offset) then plus offset (Some 1)
    else offset in
  let offset := plus offset (Some 3) in
  let numAccounts := at_offset txBytes offset in
  let offset := plus offset (Some 1) in
  let '(accountKeys, offset) :=
    read_account_keys txBytes (rounds_of numAccounts) offset [] in
  if (length accountKeys =? 0)%nat then Normal None
  else
    let offset := plus offset (Some 32) in
    let numInstructions := at_offset txBytes offset in
    let offset := plus offset (Some 1) in
    (let* found :=
       scan_instructions txBytes accountKeys (rounds_of numInstructions) offset in
     match found with
     | Some payer => Normal (Some payer)
     | None =>
         let* payer := encode_key (accountKeys !! 0%nat) in
         Normal (Some payer)
     end)%completion.

(** [extractSolanaFeePayer] of the current [utils.ts]: [None] is [null]. *)
Definition extractSolanaFeePayer (R : Runtime) (base64Transaction : Js.value)
  : Completion (option string) :=
  try_catch
    (let* txBytes := base64_bytes R base64Transaction in walk txBytes)%completion
    (fun _ => Normal None).

(** *** The older walker kept in [src/utils.ts]: it stops at the first
    account key. *)
Definition walk_first_account (txBytes : list byte) : Completion (option string) :=
  let offset := Some 0 in
  let numSignatures := at_offset txBytes offset in
  let offset := plus offset (Some 1) in
  let offset := plus offset (times numSignatures (Some 64)) in
  let firstByte := at_offset txBytes offset in
  let offset := if high_bit_set firstByte then plus offset (Some 1) else offset in
  let offset := plus offset (Some 3) in
  let numAccounts := at_offset txBytes offset in
  let offset := plus offset (Some 1) in
  match numAccounts, plus offset (Some 32) with
  | Some n, Some stop =>
      if (0 <? n) && (stop <=? Z.of_nat (length txBytes)) then
        let feePayerBytes := slice txBytes offset (Some stop) in
        Normal (Some (base58Encode feePayerBytes))
      else Normal None
  | _, _ => Normal None
  end.

Definition extractSolanaFeePayer_first_account (R : Runtime)
    (base64Transaction : Js.value) : Completion (option string) :=
  try_catch
    (let* txBytes := base64_bytes R base64Transaction in
     walk_first_account txBytes)%completion
    (fun _ => Normal None).

End Solana.

(** ** [decodePaymentHeader] *)

Module PaymentHeader.

(** The returned object; each field holds whatever truthy value the
    envelope had there, or [null]. *)
Record DecodedPayment : Type := {
  payer : Js.value;
  amount : Js.value;
  network : Js.value
}.

Definition SOLANA_MAINNET : string := "solana:5eykt4UsFv8P8NJdTREpY1vzqKqZKvdp".

(** A [string | null] result as a value. *)
Definition of_nullable (s : option string) : Js.value :=
  match s with
  | Some s => Js.Str s
  | None => Js.Null
  end.

(** The field extraction of the current [utils.ts], from [JSON.parse] to
    the [return].  [parsed.payload] is the first property read: it throws
    when [parsed] is [null], and once it has not thrown no later read of
    [parsed.k] can. *)
Definition decode_parsed (R : Runtime) (parsed : Js.value)
  : Completion DecodedPayment :=
  (let* payload := Js.get parsed "payload" in
   let authorization := Js.get_opt payload "authorization" in
   let transaction := Js.get_opt payload "transaction" in
   let payer :=
     Js.or (Js.get_opt authorization "from")
       (Js.or (Js.get_opt parsed "payer")
          (Js.or (Js.get_opt parsed "from")
             (Js.or (Js.get_opt payload "from")
                (Js.or (Js.get_opt (Js.get_opt (Js.get_opt parsed "x") "signature")
                          "address")
                   Js.Null)))) in
   let* payer :=
     if negb (Js.truthy payer) && Js.truthy transaction
     then let* found := Solana.extractSolanaFeePayer R transaction in
          Normal (of_nullable found)
     else Normal payer in
   let amount :=
     Js.or (Js.get_opt authorization "value")
       (Js.or (Js.get_opt (Js.get_opt parsed "accepted") "amount")
          (Js.or (Js.get_opt parsed "amount")
             (Js.or (Js.get_opt payload "amount") Js.Null))) in
   let network :=
     Js.or (Js.get_opt authorization "network")
       (Js.or (Js.get_opt parsed "network")
          (Js.or (Js.get_opt payload "network") Js.Null)) in
   let network :=
     if negb (Js.truthy network) && Js.truthy transaction && Js.truthy payer
     then Js.Str SOLANA_MAINNET
     else network in
   Normal {| payer := payer; amount := amount; network := network |})%completion.

(** [decodePaymentHeader] of the current [utils.ts]; the argument is a
    [string | null], the result [None] is [null]. *)
Definition decodePaymentHeader (R : Runtime) (paymentHeader : option string)
  : Completion (option DecodedPayment) :=
  match paymentHeader with
  | None => Normal None
  | Some header =>
      if String.eqb header "" then Normal None
      else
        try_catch
          (let* decoded :=
             try_catch (base64_text R header) (fun _ => Normal header) in
           let* parsed := JSON_parse R decoded in
           let* result := decode_parsed R parsed in
           Normal (Some result))%completion
          (fun _ => Normal None)
  end.

(** *** The copy kept in [src/utils.ts]: no [accepted.amount], and the
    walker that stops at the first account. *)
Definition decode_parsed_first_account (R : Runtime) (parsed : Js.value)
  : Completion DecodedPayment :=
  (let* payload := Js.get parsed "payload" in
   let authorization := Js.get_opt payload "authorization" in
   let transaction := Js.get_opt payload "transaction" in
   let payer :=
     Js.or (Js.get_opt authorization "from")
       (Js.or (Js.get_opt parsed "payer")
          (Js.or (Js.get_opt parsed "from")
             (Js.or (Js.get_opt payload "from")
                (Js.or (Js.get_opt (Js.get_opt (Js.get_opt parsed "x") "signature")
                          "address")
                   Js.Null)))) in
   let* payer :=
     if negb (Js.truthy payer) && Js.truthy transaction
     then let* found := Solana.extractSolanaFeePayer_first_account R transaction in
          Normal (of_nullable found)
     else Normal payer in
   let amount :=
     Js.or (Js.get_opt authorization "value")
       (Js.or (Js.get_opt parsed "amount")
          (Js.or (Js.get_opt payload "amount") Js.Null)) in
   let network :=
     Js.or (Js.get_opt authorization "network")
       (Js.or (Js.get_opt parsed "network")
          (Js.or (Js.get_opt payload "network") Js.Null)) in
   let network :=
     if negb (Js.truthy network) && Js.truthy transaction && Js.truthy payer
     then Js.Str SOLANA_MAINNET
     else network in
   Normal {| payer := payer; amount := amount; network := network |})%completion.

Definition decodePaymentHeader_first_account (R : Runtime)
    (paymentHeader : option string) : Completion (option DecodedPayment) :=
  match paymentHeader with
  | None => Normal None
  | Some header =>
      if String.eqb header "" then Normal None
      else
        try_catch
          (let* decoded :=
             try_catch (base64_text R header) (fun _ => Normal header) in
           let* parsed := JSON_parse R decoded in
           let* result := decode_parsed_first_account R parsed in
           Normal (Some result))%completion
          (fun _ => Normal None)
  end.

(** The JSON document a header carries: the first two steps of
    [decodePaymentHeader]. *)
Definition envelope (R : Runtime) (header : string) : Completion Js.value :=
  (let* decoded := try_catch (base64_text R header) (fun _ => Normal header) in
   JSON_parse R decoded)%completion.

(** The payer an envelope names in one of its own fields. *)
Definition named_payer (parsed : Js.value) : Js.value :=
  let payload := Js.get_opt parsed "payload" in
  Js.or (Js.get_opt (Js.get_opt payload "authorization") "from")
    (Js.or (Js.get_opt parsed "payer")
       (Js.or (Js.get_opt parsed "from")
          (Js.or (Js.get_opt payload "from")
             (Js.or (Js.get_opt (Js.get_opt (Js.get_opt parsed "x") "signature")
                       "address")
                Js.Null)))).

(** What [extractSolanaFeePayer] returns given the outcome of decoding
    the bytes and of the walk: [null] on any exception. *)
Definition caught (outcome : Completion (option string)) : option string :=
  match outcome with
  | Normal found => found
  | Thrown _ => None
  end.

End PaymentHeader.

(** ** The wire format of a Solana transaction

    What a wallet serialises: the signatures, an optional version prefix,
    the three header bytes, the account table, the recent blockhash, the
    instructions and, in a versioned message, the address-table lookups.
    Each count and each length is a compact-u16, one to three bytes; an
    index into the account table is one byte.  The payer is defined on the
    transaction itself, by the keys of the accounts, apart from the walk
    over the bytes and from the base58 encoding. *)

Module Wire.

Record Instruction : Type := {
  programIdIndex : byte;
  accountIndices : list byte;
  data : list byte
}.

(** [addressTableLookups] holds the serialised lookups of a versioned
    message, which follow the instructions; the walk never reaches them. *)
Record Transaction : Type := {
  signatures : list (list byte);
  versionPrefix : option byte;
  numRequiredSignatures : byte;
  numReadonlySignedAccounts : byte;
  numReadonlyUnsignedAccounts : byte;
  accountKeys : list (list byte);
  recentBlockhash : list byte;
  instructions : list Instruction;
  addressTableLookups : list byte
}.

(** The byte of a number below 256. *)
Definition u8 (n : Z) : byte := default x00 (Byte.of_N (Z.to_N n)).

(** A length as Solana writes it, compact-u16: seven bits to a byte, the
    low ones first, and the high bit of a byte set when another byte
    follows.  A length below 128 is one byte, one below 16384 two. *)
Definition compact_u16 (n : nat) : list byte :=
  let n := Z.of_nat n in
  if n <? 128 then [u8 n]
  else if n <? 16384 then [u8 (Z.lor (Z.land n 127) 128); u8 (Z.shiftr n 7)]
  else [u8 (Z.lor (Z.land n 127) 128);
        u8 (Z.lor (Z.land (Z.shiftr n 7) 127) 128);
        u8 (Z.shiftr n 14)].

Definition serialize_instruction (ix : Instruction) : list byte :=
  programIdIndex ix
    :: compact_u16 (length (accountIndices ix)) ++ accountIndices ix
    ++ compact_u16 (length (data ix)) ++ data ix.

Definition serialize_instructions (ixs : list Instruction) : list byte :=
  concat (map serialize_instruction ixs).

Definition serialize (tx : Transaction) : list byte :=
  compact_u16 (length (signatures tx)) ++ concat (signatures tx)
    ++ option_list (versionPrefix tx)
    ++ [numRequiredSignatures tx; numReadonlySignedAccounts tx;
        numReadonlyUnsignedAccounts tx]
    ++ compact_u16 (length (accountKeys tx)) ++ concat (accountKeys tx)
    ++ recentBlockhash tx
    ++ compact_u16 (length (instructions tx))
    ++ serialize_instructions (instructions tx)
    ++ addressTableLookups tx.

(** The 32-byte keys of the two SPL Token programs, Token and Token-2022. *)
Definition TOKEN_PROGRAM_ID : list byte :=
  [x06; xdd; xf6; xe1; xd7; x65; xa1; x93; xd9; xcb; xe1; x46; xce; xeb; x79; xac;
   x1c; xb4; x85; xed; x5f; x5b; x37; x91; x3a; x8c; xf5; x85; x7e; xff; x00; xa9].
Definition TOKEN_2022_PROGRAM_ID : list byte :=
  [x06; xdd; xf6; xe1; xee; x75; x8f; xde; x18; x42; x5d; xbc; xe4; x6c; xcd; xda;
   xb6; x1a; xfc; x4d; x83; xb9; x0d; x27; xfe; xbd; xf9; x28; xd8; xa1; x8b; xfc].

Fixpoint same_bytes (a b : list byte) : bool :=
  match a, b with
  | [], [] => true
  | x :: a', y :: b' => Byte.eqb x y && same_bytes a' b'
  | _, _ => false
  end.

Definition token_program (key : list byte) : bool :=
  same_bytes key TOKEN_PROGRAM_ID || same_bytes key TOKEN_2022_PROGRAM_ID.

Definition in_table (tx : Transaction) (index : byte) : Prop :=
  (Z.to_nat (byteval index) < length (accountKeys tx))%nat.

(** The account an index of the transaction stands for. *)
Definition account (tx : Transaction) (index : byte) : option (list byte) :=
  accountKeys tx !! Z.to_nat (byteval index).

(** The index of the transfer authority among the accounts of a token
    instruction: position 3 of [TransferChecked], position 2 of
    [Transfer]. *)
Definition authority (ix : Instruction) : option byte :=
  if (4 <=? length (accountIndices ix))%nat then accountIndices ix !! 3%nat
  else if (3 <=? length (accountIndices ix))%nat then accountIndices ix !! 2%nat
  else None.

(** An instruction qualifies when its program is one of the two SPL Token
    programs and it lists at least three accounts. *)
Definition qualifies (tx : Transaction) (ix : Instruction) : bool :=
  match account tx (programIdIndex ix) with
  | Some key => token_program key && (3 <=? length (accountIndices ix))%nat
  | None => false
  end.

(** The payer as the specification words it, by the key of its account:
    the authority of the first qualifying instruction, else the fee payer,
    account 0. *)
Definition payer (tx : Transaction) : option (list byte) :=
  match List.find (qualifies tx) (instructions tx) with
  | Some ix => authority ix ≫= account tx
  | None => accountKeys tx !! 0%nat
  end.

(** The part of the instructions that decides the payer: up to the first
    one that qualifies. *)
Fixpoint deciding (tx : Transaction) (ixs : list Instruction) : list Instruction :=
  match ixs with
  | [] => []
  | ix :: rest => ix :: (if qualifies tx ix then [] else deciding tx rest)
  end.

(** The two lengths of the instruction are below 128, its program is in
    the account table, and so is its authority if it qualifies. *)
Definition instruction_ok (tx : Transaction) (ix : Instruction) : Prop :=
  (length (accountIndices ix) < 128)%nat
  /\ (length (data ix) < 128)%nat
  /\ in_table tx (programIdIndex ix)
  /\ (qualifies tx ix = true -> forall a, authority ix = Some a -> in_table tx a).

(** The transactions on which a compact-u16 that the walk comes across is
    a single byte: fewer than 128 signatures, accounts and instructions,
    and the lengths of the deciding instructions below 128.  A legacy
    message starts with a byte below 128, a versioned one with a prefix
    whose high bit is set. *)
Record well_formed (tx : Transaction) : Prop := {
  wf_signatures : (length (signatures tx) < 128)%nat;
  wf_signature_size : Forall (fun s => length s = 64%nat) (signatures tx);
  wf_version :
    match versionPrefix tx with
    | Some v => 128 <= byteval v
    | None => byteval (numRequiredSignatures tx) < 128
    end;
  wf_accounts : (0 < length (accountKeys tx) < 128)%nat;
  wf_key_size : Forall (fun k => length k = 32%nat) (accountKeys tx);
  wf_blockhash : length (recentBlockhash tx) = 32%nat;
  wf_instructions : (length (instructions tx) < 128)%nat;
  wf_instruction : Forall (instruction_ok tx) (deciding tx (instructions tx))
}.

(** The bytes ahead of the account keys: the signatures, the version
    prefix, the header and the number of accounts. *)
Definition ahead_of_keys (tx : Transaction) : list byte :=
  compact_u16 (length (signatures tx)) ++ concat (signatures tx)
    ++ option_list (versionPrefix tx)
    ++ [numRequiredSignatures tx; numReadonlySignedAccounts tx;
        numReadonlyUnsignedAccounts tx]
    ++ compact_u16 (length (accountKeys tx)).


(** [offset] is a position inside [txBytes], and [rest] is what lies from
    there on. *)
Definition remaining (txBytes : list byte) (offset : Z) (rest : list byte) : Prop :=
  0 <= offset /\ drop (Z.to_nat offset) txBytes = rest.

End Wire.

(** ** The response validator *)

Module Validator.

Record ValidationCheck : Type := {
  name : string;
  passed : bool;
  message : option string
}.

Record ValidationResult : Type := {
  valid : bool;
  checks : list ValidationCheck;
  meaningfulnessScore : float;
  reason : option string
}.

(** A call of the user-supplied validator: it returns a result or throws an
    [Error] with a message. *)
Inductive CustomOutcome : Type :=
| Returned (result : ValidationResult)
| Raised (errorMessage : string).

(** [ValidationConfig], every field optional ([responseSchema] is not read
    by [validateResponse]). *)
Record ValidationConfig : Type := {
  customValidator : option (Js.value -> Z -> CustomOutcome);
  minResponseSize : option Z;
  requiredFields : option (list string);
  errorFields : option (list string);
  rejectEmptyCollections : bool
}.

(** The white space [String.prototype.trim] removes, among the code units
    below 256. *)
Definition is_white_space (c : ascii) : bool :=
  let n := N_of_ascii c in
  (((9 <=? n) && (n <=? 13)) || (n =? 32) || (n =? 160))%N.

Fixpoint trim_start (s : string) : string :=
  match s with
  | String c rest => if is_white_space c then trim_start rest else s
  | EmptyString => s
  end.

(** The string without its trailing white space. *)
Fixpoint trim_end (s : string) : string :=
  match s with
  | EmptyString => EmptyString
  | String c rest =>
      match trim_end rest with
      | EmptyString => if is_white_space c then EmptyString else String c EmptyString
      | kept => String c kept
      end
  end.

Definition trim (s : string) : string := trim_end (trim_start s).

(** [isEmptyResponse(body, minSize)]. *)
Definition isEmptyResponse (body : Js.value) (minSize : Z) : bool :=
  match body with
  | Js.Undefined | Js.Null => true
  | Js.Str s =>
      if String.eqb s "" then true
      else Z.of_nat (String.length (trim s)) <? minSize
  | Js.Arr items => (length items =? 0)%nat
  | Js.Obj props => (length props =? 0)%nat
  | Js.Bool _ | Js.Num _ => false
  end.

(** The three tests on the value of an error field. *)
Definition field_has_content (v : Js.value) : bool :=
  match v with
  | Js.Str s => (0 <? String.length s)%nat
  | Js.Arr _ | Js.Obj _ => (0 <? Js.keys_length v)%nat
  | Js.Bool b => b
  | _ => false
  end.

(** [field in obj && obj\[field\] !== undefined && obj\[field\] !== null]
    and then the tests on the value.  An inherited member never passes
    them: it is a function, or under [__proto__] the prototype, an object
    without keys of its own. *)
Definition error_field_set (obj : Js.value) (field : string) : bool :=
  match Js.own_property obj field with
  | Some v => negb (Js.is_nullish v) && field_has_content v
  | None => false
  end.

Definition DEFAULT_ERROR_FIELDS : list string := ["error"; "errors"].

(** [hasErrorIndicators(body, errorFields)]. *)
Definition hasErrorIndicators (body : Js.value) (errorFields : option (list string))
  : bool :=
  let errorFields := default DEFAULT_ERROR_FIELDS errorFields in
  if negb (Js.truthy body) || negb (Js.typeof_object body) then false
  else if existsb (error_field_set body) errorFields then true
  else Js.is_false (default Js.Undefined (Js.own_property body "ok"))
       || Js.is_false (default Js.Undefined (Js.own_property body "success")).

(** The test on one top-level value in [checkEmptyCollections]. *)
Definition is_empty_collection (v : Js.value) : bool :=
  match v with
  | Js.Arr items => (length items =? 0)%nat
  | Js.Obj props => (length props =? 0)%nat
  | _ => false
  end.

(** [checkEmptyCollections(obj)]. *)
Definition checkEmptyCollections (obj : Js.value) : bool :=
  match obj with
  | Js.Arr items => (length items =? 0)%nat
  | Js.Obj props =>
      if (length props =? 0)%nat then true
      else existsb (fun entry => is_empty_collection (snd entry)) props
  | _ => false
  end.

(** [!(field in obj) || obj\[field\] === undefined || obj\[field\] === null]:
    an own property counts unless it holds [undefined] or [null]; a name
    that is no own property counts when the object inherits it, since
    [obj\[field\]] is then the inherited member, neither [undefined] nor
    [null]. *)
Definition field_missing (obj : Js.value) (field : string) : bool :=
  match Js.own_property obj field with
  | Some v => Js.is_nullish v
  | None => negb (Js.has obj field)
  end.

(** The required fields that are missing from [body]. *)
Definition missing_fields (body : Js.value) (required : list string) : list string :=
  match body with
  | Js.Obj _ => List.filter (field_missing body) required
  | _ => required
  end.

Definition join (separator : string) (parts : list string) : string :=
  String.concat separator parts.

Definition Math_min (a b : float) : float :=
  if PrimFloat.is_nan a || PrimFloat.is_nan b then PrimFloat.nan
  else if PrimFloat.ltb b a then b else a.

Definition Math_max (a b : float) : float :=
  if PrimFloat.is_nan a || PrimFloat.is_nan b then PrimFloat.nan
  else if PrimFloat.ltb a b then b else a.

(** [Math.max(0, Math.min(1, score))]. *)
Definition normalize (score : float) : float :=
  Math_max 0%float (Math_min 1%float score).

(** [checks.push(check); if (failed) meaningfulnessScore -= penalty]. *)
Definition record (check : ValidationCheck) (penalty : float)
    (state : list ValidationCheck * float) : list ValidationCheck * float :=
  (fst state ++ [check],
   if passed check then snd state else PrimFloat.sub (snd state) penalty).

(** Check 6, inside its [try]: the checks of the custom validator are
    appended as they are and the penalty follows its [valid]; the [catch]
    appends a failed check and leaves the score alone. *)
Definition custom_check (outcome : CustomOutcome)
    (state : list ValidationCheck * float) : list ValidationCheck * float :=
  match outcome with
  | Returned customResult =>
      (fst state ++ checks customResult,
       if valid customResult then snd state
       else PrimFloat.sub (snd state) 0.3%float)
  | Raised errorMessage =>
      (fst state
         ++ [{| name := "custom_validator"; passed := false;
                message := Some ("Custom validator error: " +:+ errorMessage) |}],
       snd state)
  end.

Definition status_check (statusCode : Z) : ValidationCheck :=
  let isSuccessStatus := (200 <=? statusCode) && (statusCode <? 300) in
  {| name := "status_code"; passed := isSuccessStatus;
     message := Some (if isSuccessStatus then "Success status code"
                      else "Non-success status: " +:+ pretty statusCode) |}.

Definition empty_check (isEmpty : bool) : ValidationCheck :=
  {| name := "not_empty"; passed := negb isEmpty;
     message := Some (if isEmpty then "Response is empty or too small"
                      else "Response has content") |}.

Definition error_check (hasErrors : bool) : ValidationCheck :=
  {| name := "no_error_fields"; passed := negb hasErrors;
     message := Some (if hasErrors then "Response contains error indicators"
                      else "No error indicators found") |}.

Definition required_check (missingFields : list string) : ValidationCheck :=
  let hasRequired := (length missingFields =? 0)%nat in
  {| name := "required_fields"; passed := hasRequired;
     message := Some (if hasRequired then "All required fields present"
                      else "Missing fields: " +:+ join ", " missingFields) |}.

Definition collections_check (hasEmptyCollection : bool) : ValidationCheck :=
  {| name := "non_empty_collections"; passed := negb hasEmptyCollection;
     message := Some (if hasEmptyCollection
                      then "Response contains empty arrays or objects"
                      else "Collections have content") |}.

(** Whether check 4 runs: [config.requiredFields && config.requiredFields.length > 0]. *)
Definition required_configured (config : ValidationConfig) : option (list string) :=
  match requiredFields config with
  | Some (field :: fields) => Some (field :: fields)
  | _ => None
  end.

(** Whether check 5 runs:
    [config.rejectEmptyCollections && body && typeof body === 'object']. *)
Definition collections_configured (config : ValidationConfig) (body : Js.value) : bool :=
  rejectEmptyCollections config && Js.truthy body && Js.typeof_object body.

(** [validateResponse(body, statusCode, config)]. *)
Definition validateResponse (body : Js.value) (statusCode : Z)
    (config : ValidationConfig) : ValidationResult :=
  let state := ([], 1%float) in
  (* Check 1: status code *)
  let isSuccessStatus := (200 <=? statusCode) && (statusCode <? 300) in
  let state := record (status_check statusCode) 0.3%float state in
  (* Check 2: not empty *)
  let isEmpty := isEmptyResponse body (default 2 (minResponseSize config)) in
  let state := record (empty_check isEmpty) 0.4%float state in
  (* Check 3: no error indicators *)
  let hasErrors := hasErrorIndicators body (errorFields config) in
  let state := record (error_check hasErrors) 0.3%float state in
  (* Check 4: required fields present *)
  let state :=
    match required_configured config with
    | Some required =>
        record (required_check (missing_fields body required)) 0.2%float state
    | None => state
    end in
  (* Check 5: empty collections *)
  let state :=
    if collections_configured config body
    then record (collections_check (checkEmptyCollections body)) 0.1%float state
    else state in
  (* Check 6: custom validator *)
  let state :=
    match customValidator config with
    | Some validator => custom_check (validator body statusCode) state
    | None => state
    end in
  let '(checks, meaningfulnessScore) := state in
  let meaningfulnessScore := normalize meaningfulnessScore in
  let valid :=
    PrimFloat.leb 0.5%float meaningfulnessScore && isSuccessStatus && negb isEmpty in
  let reason :=
    if valid then None
    else Some (join "; "
                 (map (fun c => default "" (message c))
                    (List.filter (fun c => negb (passed c)) checks))) in
  {| valid := valid; checks := checks;
     meaningfulnessScore := meaningfulnessScore; reason := reason |}.

(** *** The score as the specification words it

    Every check recorded as failed costs the penalty of its category. *)
Definition penalty_of (check : ValidationCheck) : float :=
  if String.eqb (name check) "status_code" then 0.3%float
  else if String.eqb (name check) "not_empty" then 0.4%float
  else if String.eqb (name check) "no_error_fields" then 0.3%float
  else if String.eqb (name check) "required_fields" then 0.2%float
  else if String.eqb (name check) "non_empty_collections" then 0.1%float
  else if String.eqb (name check) "custom_validator" then 0.3%float
  else 0%float.

Definition score_of_failed_checks (checks : list ValidationCheck) : float :=
  normalize
    (fold_left (fun score check =>
                  if passed check then score
                  else PrimFloat.sub score (penalty_of check))
       checks 1%float).

(** *** The score as the code computes it: the five built-in penalties by
    the outcome of their checks, and the sixth by the verdict the custom
    validator returned. *)
Definition minus_if (failed : bool) (penalty : float) (score : float) : float :=
  if failed then PrimFloat.sub score penalty else score.

Definition custom_reports_invalid (body : Js.value) (statusCode : Z)
    (config : ValidationConfig) : bool :=
  match customValidator config with
  | Some validator =>
      match validator body statusCode with
      | Returned customResult => negb (valid customResult)
      | Raised _ => false
      end
  | None => false
  end.

Definition score_by_category (body : Js.value) (statusCode : Z)
    (config : ValidationConfig) : float :=
  let isSuccessStatus := (200 <=? statusCode) && (statusCode <? 300) in
  let isEmpty := isEmptyResponse body (default 2 (minResponseSize config)) in
  let hasErrors := hasErrorIndicators body (errorFields config) in
  let missing :=
    match required_configured config with
    | Some required => negb (length (missing_fields body required) =? 0)%nat
    | None => false
    end in
  let emptyCollection :=
    collections_configured config body && checkEmptyCollections body in
  normalize
    (minus_if (custom_reports_invalid body statusCode config) 0.3%float
       (minus_if emptyCollection 0.1%float
          (minus_if missing 0.2%float
             (minus_if hasErrors 0.3%float
                (minus_if isEmpty 0.4%float
                   (minus_if (negb isSuccessStatus) 0.3%float 1%float)))))).

End Validator.

(** ** The refund executor *)

Module Endpoint.

(** [EndpointRefundConfig]: the two fields the executor reads. *)
Record EndpointRefundConfig : Type := {
  enabled : option bool;
  maxRefundUsd : option float
}.

End Endpoint.

Module Refund.

Record PendingRefund : Type := {
  id : string;
  url : string;
  network : string;
  amountCents : Z;
  amountUsd : float;
  recipientAddress : string;
  reason : string;
  sdkRequestEventId : option string
}.

(** [ResolvedRefundConfig]: [signer_configured] is [config.signer ||
    config.privateKey], and a callback is its presence. *)
Record ResolvedRefundConfig : Type := {
  signer_configured : bool;
  solanaPrivateKey_configured : bool;
  maxRefundUsd : float;
  dailyCapUsd : option float;
  monthlyCapUsd : option float;
  endpoints : list (string * Endpoint.EndpointRefundConfig);
  onRefund : bool;
  onRefundError : bool
}.

(** What the executor needs from outside: the regular expression it builds
    from an endpoint pattern, [new RegExp('^' + pattern.replace(/\*/g, '.*')
    + '$').test(url)], which throws on a pattern that is no regular
    expression. *)
Record Host : Type := {
  pattern_test : string -> string -> Completion bool
}.

(** The mutable fields of the class; [wsOpen] is [this.ws?.readyState === 1]. *)
Record RefundExecutor : Type := {
  reconnectAttempts : nat;
  isShuttingDown : bool;
  todayRefundedCents : Z;
  monthRefundedCents : Z;
  lastCapResetDate : string;
  lastCapResetMonth : string;
  processedRefundIds : gset string;
  wsOpen : bool
}.

Definition baseReconnectDelay : Z := 1000.
Definition persistentRetryDelay : Z := 60000.
Definition fastPhaseAttempts : nat := 5.

(** A new executor, constructed on the day [today] of the month [thisMonth]. *)
Definition create (today thisMonth : string) : RefundExecutor := {|
  reconnectAttempts := 0%nat;
  isShuttingDown := false;
  todayRefundedCents := 0;
  monthRefundedCents := 0;
  lastCapResetDate := today;
  lastCapResetMonth := thisMonth;
  processedRefundIds := ∅;
  wsOpen := false
|}.

(** [Math.floor] of a double. *)
Inductive Floored : Type :=
| Integer (z : Z)
| PlusInfinity
| MinusInfinity
| NotANumber.

Definition Math_floor (x : float) : Floored :=
  match Prim2SF x with
  | S754_zero _ => Integer 0
  | S754_infinity false => PlusInfinity
  | S754_infinity true => MinusInfinity
  | S754_nan => NotANumber
  | S754_finite negative mantissa exponent =>
      let m := if negative then Z.neg mantissa else Z.pos mantissa in
      Integer (if 0 <=? exponent then m * 2 ^ exponent else m / 2 ^ (- exponent))
  end.

(** [total > cap] for an integer total. *)
Definition greater (total : Z) (cap : Floored) : bool :=
  match cap with
  | Integer c => c <? total
  | PlusInfinity => false
  | MinusInfinity => true
  | NotANumber => false
  end.

(** The cap in cents when [if (capUsd)] holds: [Math.floor(capUsd * 100)]. *)
Definition cap_cents (capUsd : option float) : option Floored :=
  match capUsd with
  | Some usd =>
      if Js.truthy (Js.Num usd) then Some (Math_floor (PrimFloat.mul usd 100%float))
      else None
  | None => None
  end.

(** Whether [total] is past the cap; never, when no cap is configured. *)
Definition exceeds (total : Z) (capUsd : option float) : bool :=
  match cap_cents capUsd with
  | Some cap => greater total cap
  | None => false
  end.

Inductive Note : Type :=
| RefundsDisabled                           (* 'Refunds disabled for this endpoint' *)
| ExceedsMax (amountUsd maxUsd : float)  (* `Amount ${amountUsd} exceeds max ${maxUsd}` *)
| DailyCapExceeded                          (* 'Daily refund cap exceeded' *)
| MonthlyCapExceeded                        (* 'Monthly refund cap exceeded' *)
| ExecutionError (error : string).

Inductive Message : Type :=
| refund_rejected (refundId : string) (reason : string) (note : Note)
| refund_executing (refundId : string)
| refund_confirmed (refundId : string) (txHash : option string) (network : string)
    (amountRaw : option Floored) (token : string) (gasCostCents : option Z).

(** What a call leaves behind, in order: the messages it sends, its log
    lines, the call of [executeRefundTx], the transfer that went out on the
    chain (the successful return of [executeEvmRefund] or
    [executeSolanaRefund]), the callbacks and the reconnection timer. *)
Inductive Effect : Type :=
| Send (msg : Message)
| Log (text : string)
| ExecuteRefundTx (refund : PendingRefund)
| Transfer (refundId : string) (txHash : option string)
| OnRefund (refundId : string) (txHash : option string)
| OnRefundError (refundId : string) (error : string) (retryable : bool)
| SetTimeout (delay : Z).

(** [sendMessage]. *)
Definition sendMessage (st : RefundExecutor) (msg : Message) : Effect :=
  if wsOpen st then Send msg else Log "Cannot send message - WebSocket not connected".

(** [getEndpointConfig]: the first pattern that matches, in the order of
    [Object.entries]. *)
Fixpoint getEndpointConfig (host : Host)
    (endpoints : list (string * Endpoint.EndpointRefundConfig)) (url : string)
  : Completion (option Endpoint.EndpointRefundConfig) :=
  match endpoints with
  | [] => Normal None
  | (pattern, config) :: rest =>
      (let* matched := pattern_test host pattern url in
       if matched then Normal (Some config)
       else getEndpointConfig host rest url)%completion
  end.

(** The result of [executeRefundTx]. *)
Record TxResult : Type := {
  success : bool;
  txHash : option string;
  amountRaw : option Floored;
  gasCostCents : option Z;
  error : option string;
  retryable : option bool
}.

Definition failure (error : string) (retryable : bool) : TxResult := {|
  success := false; txHash := None; amountRaw := None; gasCostCents := None;
  error := Some error; retryable := Some retryable
|}.

Inductive Family : Type := Evm | SolanaFamily | Unsupported.

Definition family (network : string) : Family :=
  if String.prefix "eip155:" network || String.eqb network "base"
     || String.eqb network "ethereum" then Evm
  else if String.eqb network "solana" || String.prefix "solana:" network
  then SolanaFamily
  else Unsupported.

(** The failures [executeRefundTx] returns before it awaits anything. *)
Definition immediate (config : ResolvedRefundConfig) (refund : PendingRefund)
  : option TxResult :=
  match family (network refund) with
  | Evm =>
      if signer_configured config then None
      else Some (failure "No signer configured" false)
  | SolanaFamily =>
      if solanaPrivateKey_configured config then None
      else Some (failure
                   "No Solana private key configured (set ZAUTH_SOLANA_PRIVATE_KEY)"
                   false)
  | Unsupported => Some (failure ("Unsupported network: " +:+ network refund) false)
  end.

(** How the awaited transfer ends: broadcast with a transaction hash, or an
    error ([retryable] unless the Solana key is malformed). *)
Inductive ChainOutcome : Type :=
| Broadcast (txHash : string)
| Failed (error : string) (retryable : bool).

(** The result [executeRefundTx] builds from the outcome on the chain;
    [amountRaw] is [Math.floor(refund.amountUsd * 1_000_000)]. *)
Definition settled (refund : PendingRefund) (outcome : ChainOutcome) : TxResult :=
  match outcome with
  | Broadcast hash =>
      {| success := true; txHash := Some hash;
         amountRaw := Some (Math_floor (PrimFloat.mul (amountUsd refund) 1000000%float));
         gasCostCents := Some (match family (network refund) with
                               | Evm => 1
                               | _ => 0
                               end);
         error := None; retryable := None |}
  | Failed error retryable => failure error retryable
  end.

(** [endpointConfig?.maxRefundUsd ?? this.config.maxRefundUsd]. *)
Definition effective_maximum (config : ResolvedRefundConfig)
    (endpointConfig : option Endpoint.EndpointRefundConfig) : float :=
  default (maxRefundUsd config) (endpointConfig ≫= Endpoint.maxRefundUsd).

(** [endpointConfig?.enabled === false]. *)
Definition explicitly_disabled (endpointConfig : option Endpoint.EndpointRefundConfig)
  : bool :=
  match endpointConfig ≫= Endpoint.enabled with
  | Some false => true
  | _ => false
  end.

(** The lazy reset of the counters: each is set to zero when its marker
    differs from the current date, respectively month. *)
Definition reset_caps (st : RefundExecutor) (today thisMonth : string)
  : RefundExecutor :=
  let st :=
    if String.eqb today (lastCapResetDate st) then st
    else {| reconnectAttempts := reconnectAttempts st;
            isShuttingDown := isShuttingDown st;
            todayRefundedCents := 0;
            monthRefundedCents := monthRefundedCents st;
            lastCapResetDate := today;
            lastCapResetMonth := lastCapResetMonth st;
            processedRefundIds := processedRefundIds st;
            wsOpen := wsOpen st |} in
  if String.eqb thisMonth (lastCapResetMonth st) then st
  else {| reconnectAttempts := reconnectAttempts st;
          isShuttingDown := isShuttingDown st;
          todayRefundedCents := todayRefundedCents st;
          monthRefundedCents := 0;
          lastCapResetDate := lastCapResetDate st;
          lastCapResetMonth := thisMonth;
          processedRefundIds := processedRefundIds st;
          wsOpen := wsOpen st |}.

(** *** [processSingleRefund], up to its [await this.executeRefundTx(refund)]

    The third component tells whether the call goes on to execute the
    transfer.  The only step that can throw is [getEndpointConfig]; the
    [catch] of the function then logs and calls [onRefundError]. *)
Definition before_execution (host : Host) (config : ResolvedRefundConfig)
    (st : RefundExecutor) (refund : PendingRefund) (today thisMonth : string)
  : RefundExecutor * list Effect * bool :=
  if decide (id refund ∈ processedRefundIds st) then
    (st, [Log "Refund already processed in this session"], false)
  else
    match getEndpointConfig host (endpoints config) (url refund) with
    | Thrown message =>
        (st,
         Log "Error processing refund"
           :: (if onRefundError config then [OnRefundError (id refund) message true]
               else []),
         false)
    | Normal endpointConfig =>
        if explicitly_disabled endpointConfig then
          (st,
           [Log "Refunds disabled for endpoint";
            sendMessage st (refund_rejected (id refund) "OTHER" RefundsDisabled)],
           false)
        else
          let maxUsd := effective_maximum config endpointConfig in
          if PrimFloat.ltb maxUsd (amountUsd refund) then
            (st,
             [Log "Refund exceeds max";
              sendMessage st (refund_rejected (id refund) "EXCEEDED_CAP"
                                (ExceedsMax (amountUsd refund) maxUsd))],
             false)
          else
            let st := reset_caps st today thisMonth in
            if exceeds (todayRefundedCents st + amountCents refund) (dailyCapUsd config)
            then
              (st,
               [Log "Daily cap exceeded";
                sendMessage st (refund_rejected (id refund) "EXCEEDED_CAP"
                                  DailyCapExceeded)],
               false)
            else if exceeds (monthRefundedCents st + amountCents refund)
                      (monthlyCapUsd config)
            then
              (st,
               [Log "Monthly cap exceeded";
                sendMessage st (refund_rejected (id refund) "EXCEEDED_CAP"
                                  MonthlyCapExceeded)],
               false)
            else
              (st,
               [sendMessage st (refund_executing (id refund)); ExecuteRefundTx refund],
               true)
    end.

(** [text || fallback] on an optional string. *)
Definition or_else (text : option string) (fallback : string) : string :=
  match text with
  | Some t => if String.eqb t "" then fallback else t
  | None => fallback
  end.

(** *** [processSingleRefund], from the result of the transfer on

    The callbacks are the last step of either branch; what they do, and an
    exception they raise (which the [catch] of the function reports to
    [onRefundError]), comes after every update of the state. *)
Definition after_execution (config : ResolvedRefundConfig) (st : RefundExecutor)
    (refund : PendingRefund) (result : TxResult) : RefundExecutor * list Effect :=
  if success result then
    (* Mark as processed, confirm, update local stats, callback *)
    let st := {| reconnectAttempts := reconnectAttempts st;
                 isShuttingDown := isShuttingDown st;
                 todayRefundedCents := todayRefundedCents st;
                 monthRefundedCents := monthRefundedCents st;
                 lastCapResetDate := lastCapResetDate st;
                 lastCapResetMonth := lastCapResetMonth st;
                 processedRefundIds := {[ id refund ]} ∪ processedRefundIds st;
                 wsOpen := wsOpen st |} in
    let confirmed :=
      sendMessage st (refund_confirmed (id refund) (txHash result) (network refund)
                        (amountRaw result) "USDC" (gasCostCents result)) in
    let st := {| reconnectAttempts := reconnectAttempts st;
                 isShuttingDown := isShuttingDown st;
                 todayRefundedCents := todayRefundedCents st + amountCents refund;
                 monthRefundedCents := monthRefundedCents st + amountCents refund;
                 lastCapResetDate := lastCapResetDate st;
                 lastCapResetMonth := lastCapResetMonth st;
                 processedRefundIds := processedRefundIds st;
                 wsOpen := wsOpen st |} in
    (st,
     Transfer (id refund) (txHash result)
       :: confirmed
       :: (if onRefund config then [OnRefund (id refund) (txHash result)] else []))
  else
    (st,
     Log "Refund execution failed"
       :: (if default false (retryable result) then []
           else [sendMessage st
                   (refund_rejected (id refund) "OTHER"
                      (ExecutionError
                         (or_else (error result) "Execution failed")))])
       ++ (if onRefundError config
           then [OnRefundError (id refund)
                   (or_else (error result) "Unknown error")
                   (default true (retryable result))]
           else [])).

(** *** One instruction handled from start to end

    [processSingleRefund] with nothing else running while it awaits: the
    transfer, when it is started, ends with [outcome]. *)
Definition processSingleRefund (host : Host) (config : ResolvedRefundConfig)
    (st : RefundExecutor) (refund : PendingRefund) (today thisMonth : string)
    (outcome : ChainOutcome) : RefundExecutor * list Effect :=
  let '(st, effects, proceed) :=
    before_execution host config st refund today thisMonth in
  if proceed then
    let result := default (settled refund outcome) (immediate config refund) in
    let '(st, effects') := after_execution config st refund result in
    (st, effects ++ effects')
  else (st, effects).

(** An instruction as the remote authority sends it, with the date at
    which it is handled and how its transfer ends if one is started. *)
Record RefundInstruction : Type := {
  refund : PendingRefund;
  today : string;
  thisMonth : string;
  outcome : ChainOutcome
}.

(** Instructions handled one after the other. *)
Definition process_all (host : Host) (config : ResolvedRefundConfig)
    (st : RefundExecutor) (instructions : list RefundInstruction) : RefundExecutor :=
  fold_left
    (fun st i =>
       fst (processSingleRefund host config st (refund i) (today i) (thisMonth i)
              (outcome i)))
    instructions st.

(** Instructions handled one after the other, with what they leave behind. *)
Fixpoint process_trace (host : Host) (config : ResolvedRefundConfig)
    (st : RefundExecutor) (instructions : list RefundInstruction)
  : RefundExecutor * list Effect :=
  match instructions with
  | [] => (st, [])
  | i :: rest =>
      let '(st, effects) :=
        processSingleRefund host config st (refund i) (today i) (thisMonth i)
          (outcome i) in
      let '(st, effects') := process_trace host config st rest in
      (st, effects ++ effects')
  end.






(** *** The session as the event loop runs it

    [ws.onmessage] calls the asynchronous [handleMessage] and does not wait
    for it: a message that arrives while a transfer is awaited is handled
    at once, on the state as it is then.  A call suspended at its [await]
    is an entry of [inFlight]; [Settle] resumes the first one for an
    identifier, with the outcome of its transfer. *)
Record Session : Type := {
  executor : RefundExecutor;
  inFlight : list PendingRefund;
  trace : list Effect
}.

Inductive Event : Type :=
| Deliver (refund : PendingRefund) (today thisMonth : string)
| Settle (refundId : string) (outcome : ChainOutcome).

(** The first suspended call for [refundId], and the others. *)
Fixpoint take_in_flight (refundId : string) (calls : list PendingRefund)
  : option (PendingRefund * list PendingRefund) :=
  match calls with
  | [] => None
  | call :: rest =>
      if String.eqb (id call) refundId then Some (call, rest)
      else match take_in_flight refundId rest with
           | Some (found, others) => Some (found, call :: others)
           | None => None
           end
  end.

Definition handle (host : Host) (config : ResolvedRefundConfig) (s : Session)
    (e : Event) : Session :=
  match e with
  | Deliver refund today thisMonth =>
      let '(st, effects, proceed) :=
        before_execution host config (executor s) refund today thisMonth in
      {| executor := st;
         inFlight := if proceed then inFlight s ++ [refund] else inFlight s;
         trace := trace s ++ effects |}
  | Settle refundId outcome =>
      match take_in_flight refundId (inFlight s) with
      | Some (refund, others) =>
          let result := default (settled refund outcome) (immediate config refund) in
          let '(st, effects) := after_execution config (executor s) refund result in
          {| executor := st; inFlight := others; trace := trace s ++ effects |}
      | None => s
      end
  end.

Definition run (host : Host) (config : ResolvedRefundConfig) (s : Session)
    (events : list Event) : Session :=
  fold_left (handle host config) events s.

(** [ws.onopen]: the attempt counter is reset and the socket is open. *)
Definition onopen (st : RefundExecutor) : RefundExecutor * list Effect :=
  ({| reconnectAttempts := 0%nat;
      isShuttingDown := isShuttingDown st;
      todayRefundedCents := todayRefundedCents st;
      monthRefundedCents := monthRefundedCents st;
      lastCapResetDate := lastCapResetDate st;
      lastCapResetMonth := lastCapResetMonth st;
      processedRefundIds := processedRefundIds st;
      wsOpen := true |},
   [Log (if (0 <? reconnectAttempts st)%nat then "WebSocket reconnected"
         else "WebSocket connected")]).

(** A session that has just connected, on a new executor. *)
Definition connected (today thisMonth : string) : Session :=
  {| executor := fst (onopen (create today thisMonth)); inFlight := []; trace := [] |}.

(** The transfers of [refundId] that went out. *)
Definition is_transfer_of (refundId : string) (e : Effect) : bool :=
  match e with
  | Transfer r _ => String.eqb r refundId
  | _ => false
  end.

(** The confirmations sent for [refundId]. *)
Definition is_confirmation_of (refundId : string) (e : Effect) : bool :=
  match e with
  | Send (refund_confirmed r _ _ _ _ _) => String.eqb r refundId
  | _ => false
  end.

Definition transfers_of (refundId : string) (trace : list Effect) : nat :=
  length (List.filter (is_transfer_of refundId) trace).

(** The calls of [executeRefundTx] for [refundId]. *)
Definition is_execution_of (refundId : string) (e : Effect) : bool :=
  match e with
  | ExecuteRefundTx r => String.eqb (id r) refundId
  | _ => false
  end.

Definition executions_of (refundId : string) (trace : list Effect) : nat :=
  length (List.filter (is_execution_of refundId) trace).

(** *** The cap checks as the specification lists them

    [checkCaps]: endpoint explicitly disabled, then the per-request amount
    over the effective maximum (the endpoint's, else the global one), then
    the daily cap, then the monthly cap; the counters are the ones after
    the lazy reset. *)
Inductive Denial : Type :=
| EndpointDisabled
| OverMaximum
| OverDailyCap
| OverMonthlyCap.

Definition checkCaps (config : ResolvedRefundConfig)
    (endpointConfig : option Endpoint.EndpointRefundConfig) (refund : PendingRefund)
    (todayCents monthCents : Z) : option Denial :=
  if explicitly_disabled endpointConfig then Some EndpointDisabled
  else if PrimFloat.ltb (effective_maximum config endpointConfig) (amountUsd refund)
  then Some OverMaximum
  else if exceeds (todayCents + amountCents refund) (dailyCapUsd config)
  then Some OverDailyCap
  else if exceeds (monthCents + amountCents refund) (monthlyCapUsd config)
  then Some OverMonthlyCap
  else None.

(** What the executor does on each verdict. *)
Definition on_verdict (config : ResolvedRefundConfig) (st : RefundExecutor)
    (endpointConfig : option Endpoint.EndpointRefundConfig) (refund : PendingRefund)
    (today thisMonth : string) (verdict : option Denial)
  : RefundExecutor * list Effect * bool :=
  let rolled := reset_caps st today thisMonth in
  match verdict with
  | Some EndpointDisabled =>
      (st,
       [Log "Refunds disabled for endpoint";
        sendMessage st (refund_rejected (id refund) "OTHER" RefundsDisabled)],
       false)
  | Some OverMaximum =>
      (st,
       [Log "Refund exceeds max";
        sendMessage st
          (refund_rejected (id refund) "EXCEEDED_CAP"
             (ExceedsMax (amountUsd refund) (effective_maximum config endpointConfig)))],
       false)
  | Some OverDailyCap =>
      (rolled,
       [Log "Daily cap exceeded";
        sendMessage rolled (refund_rejected (id refund) "EXCEEDED_CAP" DailyCapExceeded)],
       false)
  | Some OverMonthlyCap =>
      (rolled,
       [Log "Monthly cap exceeded";
        sendMessage rolled
          (refund_rejected (id refund) "EXCEEDED_CAP" MonthlyCapExceeded)],
       false)
  | None =>
      (rolled,
       [sendMessage rolled (refund_executing (id refund)); ExecuteRefundTx refund],
       true)
  end.

(** An instruction that gets as far as the cap checks: not yet processed in
    this session, its endpoint not disabled, its amount within the
    per-request maximum. *)
Definition reaches_caps (host : Host) (config : ResolvedRefundConfig)
    (st : RefundExecutor) (refund : PendingRefund) : Prop :=
  (id refund ∉ processedRefundIds st)
  /\ exists endpointConfig,
      getEndpointConfig host (endpoints config) (url refund) = Normal endpointConfig
      /\ explicitly_disabled endpointConfig = false
      /\ PrimFloat.ltb (effective_maximum config endpointConfig) (amountUsd refund)
         = false.

(** *** [scheduleReconnect] *)
Definition scheduleReconnect (st : RefundExecutor) : RefundExecutor * list Effect :=
  if isShuttingDown st then (st, [])
  else
    let '(delay, notice) :=
      if (reconnectAttempts st <? fastPhaseAttempts)%nat then
        (baseReconnectDelay * 2 ^ Z.of_nat (reconnectAttempts st), [])
      else
        (persistentRetryDelay,
         if (reconnectAttempts st =? fastPhaseAttempts)%nat
         then [Log "Server unreachable, retrying every 60s"]
         else []) in
    ({| reconnectAttempts := S (reconnectAttempts st);
        isShuttingDown := isShuttingDown st;
        todayRefundedCents := todayRefundedCents st;
        monthRefundedCents := monthRefundedCents st;
        lastCapResetDate := lastCapResetDate st;
        lastCapResetMonth := lastCapResetMonth st;
        processedRefundIds := processedRefundIds st;
        wsOpen := wsOpen st |},
     notice ++ [SetTimeout delay]).

End Refund.

(** ** Worked inputs *)

Module Examples.
Import Wire.

(** One signature, a legacy message, four accounts (fee payer, source,
    owner, SPL Token program) and one [TransferChecked] of the token
    program whose fourth account is the owner. *)
Definition transferChecked : Transaction := {|
  signatures := [repeat x07 64];
  versionPrefix := None;
  numRequiredSignatures := x01;
  numReadonlySignedAccounts := x00;
  numReadonlyUnsignedAccounts := x01;
  accountKeys :=
    [repeat x11 32; repeat x22 32; repeat x33 32;
     [x06; xdd; xf6; xe1; xd7; x65; xa1; x93; xd9; xcb; xe1; x46; xce; xeb; x79; xac;
      x1c; xb4; x85; xed; x5f; x5b; x37; x91; x3a; x8c; xf5; x85; x7e; xff; x00; xa9]];
  recentBlockhash := repeat x09 32;
  instructions :=
    [ {| programIdIndex := x03;
         accountIndices := [x01; x00; x01; x02];
         data := [x0c; x40; x42; x0f; x00; x00; x00; x00; x00; x06] |} ];
  addressTableLookups := []
|}.


(** The header of [{x402Version: 2, payload: {transaction: <transferChecked_base64>}}]. *)
Definition solana_header : string :=
  "eyJ4NDAyVmVyc2lvbiI6MiwicGF5bG9hZCI6eyJ0cmFuc2FjdGlvbiI6IkFRY0hCd2NIQndjSEJ3Y0hCd2NIQndjSEJ3Y0hCd2NIQndjSEJ3Y0hCd2NIQndjSEJ3Y0hCd2NIQndjSEJ3Y0hCd2NIQndjSEJ3Y0hCd2NIQndjSEJ3Y0JBQUVFRVJFUkVSRVJFUkVSRVJFUkVSRVJFUkVSRVJFUkVSRVJFUkVSRVJFUkVSRWlJaUlpSWlJaUlpSWlJaUlpSWlJaUlpSWlJaUlpSWlJaUlpSWlJaUlpSWpNek16TXpNek16TXpNek16TXpNek16TXpNek16TXpNek16TXpNek16TXpCdDMyNGRkbG9aUFp5K0ZHenV0NXJCeTBoZTFmV3plUk9vejFoWDcvQUtrSkNRa0pDUWtKQ1FrSkNRa0pDUWtKQ1FrSkNRa0pDUWtKQ1FrSkNRa0pDUUVEQkFFQUFRSUtERUJDRHdBQUFBQUFCZz09In19".

(** The header of [{accepted: {amount: '1000'}}]. *)
Definition accepted_header : string :=
  "eyJhY2NlcHRlZCI6eyJhbW91bnQiOiIxMDAwIn19".

(** A transaction cut after its account table: no signature, the header,
    one account and its key; the blockhash and the instructions are
    missing. *)
Definition cut_after_accounts : list byte :=
  [x00; x01; x00; x00; x01] ++ repeat x11 32.
Definition cut_after_accounts_base64 : string :=
  "AAEAAAEREREREREREREREREREREREREREREREREREREREREREQ==".

(** The header of [{payload: {transaction: <cut_after_accounts_base64>}}]. *)
Definition cut_after_accounts_header : string :=
  "eyJwYXlsb2FkIjp7InRyYW5zYWN0aW9uIjoiQUFFQUFBRVJFUkVSRVJFUkVSRVJFUkVSRVJFUkVSRVJFUkVSRVJFUkVSRVJFUkVSRVE9PSJ9fQ==".

(** Five bytes: no signature, a three-byte header, an account count of 1
    and nothing after it. *)
Definition truncated : list byte := [x00; x00; x00; x00; x01].
Definition truncated_base64 : string := "AAAAAAE=".



(** The header of [{payload: {transaction: <truncated_base64>}}]. *)
Definition truncated_header : string :=
  "eyJwYXlsb2FkIjp7InRyYW5zYWN0aW9uIjoiQUFBQUFBRT0ifX0=".

(** The first 74 bytes of [transferChecked] on the wire, in base64: all
    that is ahead of the account keys, and five bytes of the first key. *)
Definition transferChecked_cut_base64 : string :=
  "AQcHBwcHBwcHBwcHBwcHBwcHBwcHBwcHBwcHBwcHBwcHBwcHBwcHBwcHBwcHBwcHBwcHBwcHBwcHBwcHBwcHBwcBAAEEERERERE=".

(** The header of an EVM authorization:
    [{x402Version: 2, payload: {authorization:
        {from: '0xA11ce', value: '1000', network: 'eip155:8453'}}}]. *)
Definition evm_header : string :=
  "eyJ4NDAyVmVyc2lvbiI6MiwicGF5bG9hZCI6eyJhdXRob3JpemF0aW9uIjp7ImZyb20iOiIweEExMWNlIiwidmFsdWUiOiIxMDAwIiwibmV0d29yayI6ImVpcDE1NTo4NDUzIn19fQ==".

(** A provider with a signer, a per-request maximum of 1 USD, a daily cap
    of 50 USD and a monthly cap of 500 USD, and no endpoint override. *)
Definition provider : Refund.ResolvedRefundConfig := {|
  Refund.signer_configured := true;
  Refund.solanaPrivateKey_configured := false;
  Refund.maxRefundUsd := 1%float;
  Refund.dailyCapUsd := Some 50%float;
  Refund.monthlyCapUsd := Some 500%float;
  Refund.endpoints := [];
  Refund.onRefund := true;
  Refund.onRefundError := true
|}.

Definition host : Refund.Host := {| Refund.pattern_test := fun _ _ => Normal false |}.

(** A refund on Base of [cents] cents. *)
Definition refund_of (refundId : string) (cents : Z) (usd : float)
  : Refund.PendingRefund := {|
  Refund.id := refundId;
  Refund.url := "https://api.example.com/data";
  Refund.network := "base";
  Refund.amountCents := cents;
  Refund.amountUsd := usd;
  Refund.recipientAddress := "0x1111111111111111111111111111111111111111";
  Refund.reason := "server_error";
  Refund.sdkRequestEventId := None
|}.

(** An executor that has refunded 49.50 USD today. *)
Definition near_cap : Refund.RefundExecutor := {|
  Refund.reconnectAttempts := 0%nat;
  Refund.isShuttingDown := false;
  Refund.todayRefundedCents := 4950;
  Refund.monthRefundedCents := 4950;
  Refund.lastCapResetDate := "2026-03-14";
  Refund.lastCapResetMonth := "2026-03";
  Refund.processedRefundIds := ∅;
  Refund.wsOpen := true
|}.

(** Three instructions for [near_cap]: 50 cents that reach the daily cap,
    50 cents more on the same day, and 100 cents on the next day. *)
Definition three_instructions : list Refund.RefundInstruction :=
  [ {| Refund.refund := refund_of "refund-a" 50 0.5%float;
       Refund.today := "2026-03-14"; Refund.thisMonth := "2026-03";
       Refund.outcome := Refund.Broadcast "0xa" |};
    {| Refund.refund := refund_of "refund-b" 50 0.5%float;
       Refund.today := "2026-03-14"; Refund.thisMonth := "2026-03";
       Refund.outcome := Refund.Broadcast "0xb" |};
    {| Refund.refund := refund_of "refund-c" 100 1%float;
       Refund.today := "2026-03-15"; Refund.thisMonth := "2026-03";
       Refund.outcome := Refund.Broadcast "0xc" |} ].



(** An executor after five failed reconnection attempts. *)
Definition unreachable : Refund.RefundExecutor := {|
  Refund.reconnectAttempts := 5%nat;
  Refund.isShuttingDown := false;
  Refund.todayRefundedCents := 0;
  Refund.monthRefundedCents := 0;
  Refund.lastCapResetDate := "2026-03-14";
  Refund.lastCapResetMonth := "2026-03";
  Refund.processedRefundIds := ∅;
  Refund.wsOpen := false
|}.

End Examples.

(** ** The schema validator *)

Module Schema.
Import Validator.

(** [typeof v]. *)
Definition typeof (v : Js.value) : string :=
  match v with
  | Js.Undefined => "undefined"
  | Js.Null | Js.Arr _ | Js.Obj _ => "object"
  | Js.Bool _ => "boolean"
  | Js.Num _ => "number"
  | Js.Str _ => "string"
  end.

(** The two members of a schema that [validateSchema] reads:
    [schema.type as string], absent or a string, and [schema.required] when
    it is an array, of strings ([None] when it is absent or no array). *)
Record Schema : Type := {
  type : option string;
  required : option (list string)
}.

(** [Array.isArray(body) ? 'array' : typeof body]. *)
Definition actual_type (body : Js.value) : string :=
  match body with
  | Js.Arr _ => "array"
  | _ => typeof body
  end.

(** [prop in obj] on an object or an array: an own property or an
    inherited member. *)
Definition has_property (obj : Js.value) (prop : string) : bool :=
  Js.has obj prop.

(** [typeof body === 'object' && body !== null]. *)
Definition is_object (body : Js.value) : bool :=
  match body with
  | Js.Arr _ | Js.Obj _ => true
  | _ => false
  end.

(** [validateSchema(body, schema)]. *)
Definition validateSchema (body : Js.value) (schema : Schema) : ValidationResult :=
  let expectedType := default "" (type schema) in
  let actualType := actual_type body in
  if negb (String.eqb expectedType "") && negb (String.eqb expectedType actualType)
  then
    {| valid := false;
       checks := [{| name := "type"; passed := false;
                     message := Some ("Expected " +:+ expectedType
                                        +:+ ", got " +:+ actualType) |}];
       meaningfulnessScore := 0%float;
       reason := Some ("Type mismatch: expected " +:+ expectedType) |}
  else
    let checks := [{| name := "type"; passed := true;
                      message := Some ("Type is " +:+ actualType) |}] in
    let accepted checks :=
      {| valid := true; checks := checks; meaningfulnessScore := 1%float;
         reason := None |} in
    match required schema with
    | Some required =>
        if is_object body then
          let missing := List.filter (fun prop => negb (has_property body prop)) required in
          if (0 <? length missing)%nat then
            {| valid := false;
               checks := checks
                 ++ [{| name := "required_properties"; passed := false;
                        message := Some ("Missing required: " +:+ join ", " missing) |}];
               meaningfulnessScore := 0.3%float;
               reason := Some ("Missing required properties: " +:+ join ", " missing) |}
          else
            accepted
              (checks ++ [{| name := "required_properties"; passed := true;
                             message := Some "All required properties present" |}])
        else accepted checks
    | None => accepted checks
    end.

(** [createSchemaValidator(schema)]: the status code is not looked at. *)
Definition createSchemaValidator (schema : Schema) : Js.value -> Z -> CustomOutcome :=
  fun body _statusCode => Returned (validateSchema body schema).

End Schema.

(** ** [RefundHandler.shouldRefund] *)

Module Handler.
Import Validator.

Inductive RefundReason : Type :=
| empty_response
| invalid_response
| schema_validation_failed
| timeout
| server_error
| custom.

(** [RefundTriggers], the members [shouldRefund] reads; an optional boolean
    is its truth value. *)
Record RefundTriggers : Type := {
  serverError : bool;
  emptyResponse : bool;
  schemaValidation : bool;
  minMeaningfulness : option float
}.

(** [RefundConfig], the members [shouldRefund] reads. *)
Record RefundConfig : Type := {
  enabled : bool;
  triggers : option RefundTriggers
}.

(** [c => c.name === 'not_empty' && !c.passed]. *)
Definition failed_not_empty (c : ValidationCheck) : bool :=
  String.eqb (name c) "not_empty" && negb (passed c).

(** [shouldRefund(validationResult, statusCode)]. *)
Definition shouldRefund (config : RefundConfig) (validationResult : ValidationResult)
    (statusCode : Z) : option RefundReason :=
  if negb (enabled config) then None
  else
    match triggers config with
    | None => None
    | Some triggers =>
        if serverError triggers && (500 <=? statusCode) then Some server_error
        else if emptyResponse triggers
                && existsb failed_not_empty (checks validationResult)
        then Some empty_response
        else if schemaValidation triggers && negb (valid validationResult)
        then Some schema_validation_failed
        else
          match minMeaningfulness triggers with
          | Some minimum =>
              if PrimFloat.ltb (meaningfulnessScore validationResult) minimum
              then Some invalid_response
              else None
          | None => None
          end
    end.

(** The triggers of [DEFAULT_CONFIG.refund]. *)
Definition DEFAULT_TRIGGERS : RefundTriggers := {|
  serverError := true;
  emptyResponse := true;
  schemaValidation := false;
  minMeaningfulness := Some 0.3%float
|}.

End Handler.

(** ** The x402 response helpers *)

Module X402.

(** [v === n] for a number [n]. *)
Definition is_number (v : Js.value) (n : float) : bool :=
  match v with
  | Js.Num f => PrimFloat.eqb f n
  | _ => false
  end.

(** [Array.isArray(v)]. *)
Definition is_array (v : Js.value) : bool :=
  match v with
  | Js.Arr _ => true
  | _ => false
  end.

(** [typeof v === 'string']. *)
Definition is_string (v : Js.value) : bool :=
  match v with
  | Js.Str _ => true
  | _ => false
  end.

(** [parseX402Response(body)]; [null] is [None]. *)
Definition parseX402Response (body : Js.value) : option Js.value :=
  if negb (Js.truthy body) || negb (Js.typeof_object body) then None
  else
    let data := Js.get_opt body in
    (* V2 format *)
    if is_number (data "x402Version") 2%float && is_array (data "paymentRequirements")
    then Some body
    (* V1 format with explicit version *)
    else if is_number (data "x402Version") 1%float && is_array (data "accepts")
    then Some body
    (* V1 format without version field *)
    else if is_array (data "accepts")
    then Some (Js.Obj [("x402Version", Js.Num 1%float);
                       ("accepts", data "accepts");
                       ("resource", data "resource")])
    (* Direct V1 format *)
    else if is_string (data "scheme") && is_string (data "network")
            && is_string (data "payTo")
    then Some (Js.Obj [("x402Version", Js.Num 1%float);
                       ("accepts", Js.Arr [body])])
    else None.

(** [getPaymentRequirements(response)]. *)
Definition getPaymentRequirements (response : Js.value) : Js.value :=
  if is_number (Js.get_opt response "x402Version") 2%float
  then Js.get_opt response "paymentRequirements"
  else Js.get_opt response "accepts".

(** [detectX402Version(body)]. *)
Definition detectX402Version (body : Js.value) : option Z :=
  if negb (Js.truthy body) || negb (Js.typeof_object body) then None
  else
    let obj := Js.get_opt body in
    if is_number (obj "x402Version") 2%float then Some 2
    else if is_number (obj "x402Version") 1%float then Some 1
    else if Js.truthy (obj "paymentRequirements") then Some 2
    else if Js.truthy (obj "accepts")
            || (Js.truthy (obj "scheme") && Js.truthy (obj "network")
                && Js.truthy (obj "payTo"))
    then Some 1
    else None.

End X402.

(** ** Redaction for telemetry *)

Module Telemetry.

Definition REDACTED : string := "[REDACTED]".

(** [redactRecursive(current, path)], for the set [fieldSet] of the
    enclosing [redactFields].  The property names of an object are
    distinct, so assigning them one by one to a new object keeps their
    order; an entry named [__proto__] is lost on the way, see
    [Js.assigns_own]. *)
Fixpoint redactRecursive (fieldSet : gset string) (current : Js.value) (path : string)
    {struct current} : Js.value :=
  match current with
  | Js.Arr items =>
      Js.Arr
        ((fix each (items : list Js.value) (i : nat) {struct items} : list Js.value :=
            match items with
            | [] => []
            | item :: rest =>
                redactRecursive fieldSet item (path +:+ "[" +:+ pretty i +:+ "]")
                  :: each rest (S i)
            end) items 0%nat)
  | Js.Obj props =>
      Js.Obj
        ((fix entries (props : list (string * Js.value)) {struct props}
            : list (string * Js.value) :=
            match props with
            | [] => []
            | (key, value) :: rest =>
                let fullPath :=
                  if String.eqb path "" then key else path +:+ "." +:+ key in
                let assigned :=
                  if bool_decide (key ∈ fieldSet) || bool_decide (fullPath ∈ fieldSet)
                  then Js.Str REDACTED
                  else match value with
                       | Js.Arr _ | Js.Obj _ => redactRecursive fieldSet value fullPath
                       | _ => value
                       end in
                if Js.assigns_own key then (key, assigned) :: entries rest
                else entries rest
            end) props)
  | _ => current
  end.

(** [redactFields(obj, fields)]. *)
Definition redactFields (obj : Js.value) (fields : list string) : Js.value :=
  if negb (Js.truthy obj) || negb (Js.typeof_object obj) || (length fields =? 0)%nat
  then obj
  else redactRecursive (list_to_set fields) obj "".

(** Whether some object inside [v], at any depth, holds under a name of
    [fieldSet] anything but the redaction marker. *)
Fixpoint exposes (fieldSet : gset string) (v : Js.value) {struct v} : bool :=
  match v with
  | Js.Arr items =>
      (fix any (items : list Js.value) {struct items} : bool :=
         match items with
         | [] => false
         | item :: rest => exposes fieldSet item || any rest
         end) items
  | Js.Obj props =>
      (fix any (props : list (string * Js.value)) {struct props} : bool :=
         match props with
         | [] => false
         | (key, value) :: rest =>
             (if bool_decide (key ∈ fieldSet)
              then match value with
                   | Js.Str s => negb (String.eqb s REDACTED)
                   | _ => true
                   end
              else exposes fieldSet value)
             || any rest
         end) props
  | _ => false
  end.

(** [String.prototype.toLowerCase] on one code unit below 256: the letters
    [A-Z] and the capital letters of Latin-1 ([À] to [Þ], without [×]). *)
Definition lower (c : ascii) : ascii :=
  let n := N_of_ascii c in
  if ((65 <=? n) && (n <=? 90))%N
     || (((192 <=? n) && (n <=? 222))%N && negb (n =? 215)%N)
  then ascii_of_N (n + 32)
  else c.

Fixpoint toLowerCase (s : string) : string :=
  match s with
  | EmptyString => EmptyString
  | String c rest => String (lower c) (toLowerCase rest)
  end.

(** The value of a header: a string, an array of strings, or [undefined]. *)
Inductive HeaderValue : Type :=
| Single (value : string)
| Many (values : list string)
| Absent.

(** One round of the loop of [redactHeaders]: nothing for a header whose
    value is [undefined], and nothing for one named [__proto__], which
    [result\[key\] = ...] does not add, see [Js.assigns_own]. *)
Definition redact_header (redactSet : gset string) (header : string * HeaderValue)
  : option (string * string) :=
  let redacted headerValue :=
    if Js.assigns_own (fst header) then
      Some (fst header,
            if bool_decide (toLowerCase (fst header) ∈ redactSet) then REDACTED
            else headerValue)
    else None in
  match snd header with
  | Absent => None
  | Many values => redacted (String.concat ", " values)
  | Single value => redacted value
  end.

(** [redactHeaders(headers, redactList)]. *)
Definition redactHeaders (headers : list (string * HeaderValue))
    (redactList : list string) : list (string * string) :=
  omap (redact_header (list_to_set (map toLowerCase redactList))) headers.

(** [DEFAULT_CONFIG.telemetry.redactHeaders]. *)
Definition DEFAULT_REDACT_HEADERS : list string :=
  ["authorization"; "cookie"; "x-api-key"; "x-payment"].

End Telemetry.

(** ** The client: batching of events *)

Module Client.

(** What the client reads of an event. *)
Record ZauthEvent : Type := {
  type : string;
  eventId : string
}.

(** [Required<BatchingConfig>]. *)
Record BatchingConfig : Type := {
  maxBatchSize : Z;
  maxBatchWaitMs : Z;
  retry : bool;
  maxRetries : Z
}.

(** [DEFAULT_CONFIG.batching]. *)
Definition DEFAULT_BATCHING : BatchingConfig := {|
  maxBatchSize := 10;
  maxBatchWaitMs := 5000;
  retry := true;
  maxRetries := 3
|}.

(** How one [fetch] of [submitBatch] ends: the response is [ok] and its
    body parses, to the [EventSubmitResponse] the call returns; or anything
    else (the request fails, the status is not [ok], the body is no JSON),
    which the [try] turns into an error. *)
Inductive Attempt : Type :=
| Accepted (result : Js.value)
| Refused (error : string).

(** What a call leaves behind. *)
Inductive Effect : Type :=
| Fetch (events : list ZauthEvent)
| Wait (delay : Z)
| SetFlushTimer (delay : Z)
| ClearFlushTimer.

(** [Math.min(1000 * Math.pow(2, retryCount), 10000)]. *)
Definition retry_delay (retryCount : Z) : Z := Z.min (1000 * 2 ^ retryCount) 10000.

(** [submitBatch(events, retryCount)]; [server n] is how the [n]-th fetch
    of the call ends.  Each recursive call is one more round of [fuel]. *)
Fixpoint submitBatch_rounds (fuel : nat) (config : BatchingConfig)
    (server : Z -> Attempt) (events : list ZauthEvent) (retryCount : Z)
  : option (Completion Js.value * list Effect) :=
  match fuel with
  | O => None
  | S fuel' =>
      match server retryCount with
      | Accepted accepted => Some (Normal accepted, [Fetch events])
      | Refused error =>
          if retry config && (retryCount <? maxRetries config) then
            match submitBatch_rounds fuel' config server events (retryCount + 1) with
            | Some (result, effects) =>
                Some (result, Fetch events :: Wait (retry_delay retryCount) :: effects)
            | None => None
            end
          else Some (Thrown error, [Fetch events])
      end
  end.

(** The rounds a call from [retryCount] can take. *)
Definition rounds (config : BatchingConfig) (retryCount : Z) : nat :=
  S (Z.to_nat (maxRetries config - retryCount)).

Definition submitBatch (config : BatchingConfig) (server : Z -> Attempt)
    (events : list ZauthEvent) : option (Completion Js.value * list Effect) :=
  submitBatch_rounds (rounds config 0) config server events 0.




(** The mutable fields of [ZauthClient]; [flushTimer] is whether the handle
    is set. *)
Record ZauthClient : Type := {
  eventQueue : list ZauthEvent;
  flushTimer : bool;
  isFlushing : bool
}.

Definition create : ZauthClient :=
  {| eventQueue := []; flushTimer := false; isFlushing := false |}.

(** [flush()] up to its [await this.submitBatch(events)]: the batch it
    submits, if it submits one. *)
Definition flush_begin (c : ZauthClient)
  : ZauthClient * list Effect * option (list ZauthEvent) :=
  let cleared := if flushTimer c then [ClearFlushTimer] else [] in
  let c := {| eventQueue := eventQueue c; flushTimer := false;
              isFlushing := isFlushing c |} in
  if (length (eventQueue c) =? 0)%nat || isFlushing c then (c, cleared, None)
  else
    let events := eventQueue c in
    ({| eventQueue := []; flushTimer := flushTimer c; isFlushing := true |},
     cleared, Some events).

(** [flush()] from the end of [submitBatch] on: the [catch] and the
    [finally]. *)
Definition flush_end (config : BatchingConfig) (c : ZauthClient)
    (events : list ZauthEvent) (submitted : bool) : ZauthClient :=
  let queue :=
    if submitted then eventQueue c
    else if retry config then events ++ eventQueue c
    else eventQueue c in
  {| eventQueue := queue; flushTimer := flushTimer c; isFlushing := false |}.

(** [queueEvent(event)]. *)
Definition queueEvent (config : BatchingConfig) (c : ZauthClient) (event : ZauthEvent)
  : ZauthClient * list Effect * option (list ZauthEvent) :=
  let c := {| eventQueue := eventQueue c ++ [event]; flushTimer := flushTimer c;
              isFlushing := isFlushing c |} in
  if maxBatchSize config <=? Z.of_nat (length (eventQueue c)) then flush_begin c
  else if negb (flushTimer c) then
    ({| eventQueue := eventQueue c; flushTimer := true; isFlushing := isFlushing c |},
     [SetFlushTimer (maxBatchWaitMs config)], None)
  else (c, [], None).

(** *** The client as the event loop runs it

    [pending] holds the batches of the calls of [flush] that are suspended
    at their [await]; [delivered] the events of the batches the service has
    accepted; [queued] every event handed to [queueEvent]. *)
Record Session : Type := {
  client : ZauthClient;
  pending : list (list ZauthEvent);
  delivered : list ZauthEvent;
  queued : list ZauthEvent
}.

Inductive Event : Type :=
| Queue (event : ZauthEvent)
| TimerFires
| Flush
| Settle (submitted : bool).

Definition start : Session :=
  {| client := create; pending := []; delivered := []; queued := [] |}.

Definition suspended (batch : option (list ZauthEvent)) : list (list ZauthEvent) :=
  match batch with
  | Some events => [events]
  | None => []
  end.

Definition handle (config : BatchingConfig) (s : Session) (e : Event) : Session :=
  match e with
  | Queue event =>
      let '(c, _, batch) := queueEvent config (client s) event in
      {| client := c; pending := pending s ++ suspended batch;
         delivered := delivered s; queued := queued s ++ [event] |}
  | TimerFires =>
      if flushTimer (client s) then
        let '(c, _, batch) := flush_begin (client s) in
        {| client := c; pending := pending s ++ suspended batch;
           delivered := delivered s; queued := queued s |}
      else s
  | Flush =>
      let '(c, _, batch) := flush_begin (client s) in
      {| client := c; pending := pending s ++ suspended batch;
         delivered := delivered s; queued := queued s |}
  | Settle submitted =>
      match pending s with
      | events :: others =>
          {| client := flush_end config (client s) events submitted;
             pending := others;
             delivered := if submitted then delivered s ++ events else delivered s;
             queued := queued s |}
      | [] => s
      end
  end.

Definition run (config : BatchingConfig) (s : Session) (events : list Event) : Session :=
  fold_left (handle config) events s.

(** The invariant of the event loop: a batch is pending exactly while
    [isFlushing] is set, and there is never more than one. *)
Definition one_flight (s : Session) : Prop :=
  (pending s = [] /\ isFlushing (client s) = false)
  \/ (exists batch, pending s = [batch] /\ isFlushing (client s) = true).

(** What the client holds, in order: the accepted events, the batch being
    submitted, the queue. *)
Definition held (s : Session) : list ZauthEvent :=
  delivered s ++ concat (pending s) ++ eventQueue (client s).

(** The events handed to [queueEvent] by a list of steps, in order. *)
Definition queued_by (events : list Event) : list ZauthEvent :=
  omap (fun e => match e with
                 | Queue event => Some event
                 | _ => None
                 end) events.

End Client.

(** ** Reading base 58 back *)

Module Base58Reading.

(** [ALPHABET.indexOf(c)], from position [i] on. *)
Fixpoint index_from (c : ascii) (alphabet : string) (i : Z) : option Z :=
  match alphabet with
  | EmptyString => None
  | String a rest => if Ascii.eqb a c then Some i else index_from c rest (i + 1)
  end.

(** The digit a character of the alphabet stands for. *)
Definition digit (c : ascii) : option Z := index_from c Base58.ALPHABET 0.

(** The number a string of digits denotes in base 58, most significant
    digit first, continuing from [acc]. *)
Fixpoint read (s : string) (acc : Z) : option Z :=
  match s with
  | EmptyString => Some acc
  | String c rest =>
      match digit c with
      | Some d => read rest (acc * Base58.BASE + d)
      | None => None
      end
  end.

Definition value_of (s : string) : option Z := read s 0.

End Base58Reading.

(** ** What a decoded payment can hold *)

Module Decoded.

(** A field of the result of [decodePaymentHeader]: [null], or a value
    that passes an [if]. *)
Definition null_or_truthy (v : Js.value) : Prop :=
  v = Js.Null \/ Js.truthy v = true.

End Decoded.

(** ** More worked inputs *)

Module Samples.

(** A validation configuration with nothing set but a schema that asks
    for an object with the property [data]. *)
Definition data_schema : Schema.Schema :=
  {| Schema.type := Some "object"; Schema.required := Some ["data"] |}.

Definition with_schema : Validator.ValidationConfig := {|
  Validator.customValidator := Some (Schema.createSchemaValidator data_schema);
  Validator.minResponseSize := None;
  Validator.requiredFields := None;
  Validator.errorFields := None;
  Validator.rejectEmptyCollections := true
|}.

(** [DEFAULT_CONFIG.validation]. *)
Definition default_validation : Validator.ValidationConfig := {|
  Validator.customValidator := None;
  Validator.minResponseSize := Some 2;
  Validator.requiredFields := Some [];
  Validator.errorFields := Some ["error"; "errors"];
  Validator.rejectEmptyCollections := true
|}.

(** A schema that asks for the properties [a] and [toString]. *)
Definition inherited_schema : Schema.Schema :=
  {| Schema.type := None; Schema.required := Some ["a"; "toString"] |}.

(** A validation configuration that asks for the field [constructor]. *)
Definition requires_constructor : Validator.ValidationConfig := {|
  Validator.customValidator := None;
  Validator.minResponseSize := None;
  Validator.requiredFields := Some ["constructor"];
  Validator.errorFields := None;
  Validator.rejectEmptyCollections := true
|}.

(** The body [{a: 1}]. *)
Definition a_body : Js.value := Js.Obj [("a", Js.Num 1%float)].

(** The body [{price: 42}]. *)
Definition price_body : Js.value := Js.Obj [("price", Js.Num 42%float)].

(** A handler with refunds enabled and the default triggers. *)
Definition handler : Handler.RefundConfig :=
  {| Handler.enabled := true; Handler.triggers := Some Handler.DEFAULT_TRIGGERS |}.

(** A 402 body of the older shape: [{accepts: \[{scheme: 'exact'}\]}]. *)
Definition accepts_body : Js.value :=
  Js.Obj [("accepts", Js.Arr [Js.Obj [("scheme", Js.Str "exact")]])].

(** A refund of 50 cents on Base Sepolia. *)
Definition sepolia_refund : Refund.PendingRefund := {|
  Refund.id := "refund-s";
  Refund.url := "https://api.example.com/data";
  Refund.network := "base-sepolia";
  Refund.amountCents := 50;
  Refund.amountUsd := 0.5%float;
  Refund.recipientAddress := "0x1111111111111111111111111111111111111111";
  Refund.reason := "server_error";
  Refund.sdkRequestEventId := None
|}.

(** A session in which [refund-1] has been executed. *)
Definition after_refund_1 : Refund.Session :=
  Refund.run Examples.host Examples.provider
    (Refund.connected "2026-03-14" "2026-03")
    [Refund.Deliver (Examples.refund_of "refund-1" 100 1%float) "2026-03-14" "2026-03";
     Refund.Settle "refund-1" (Refund.Broadcast "0xaaa")].

End Samples.

(* ===== Theorems ===== *)

Section Base58Facts.
Import Base58.

Lemma to_base58_done (fuel : nat) (num : Z) (result : string) :
  num <= 0 -> to_base58 fuel num result = result.
Proof.
  intros Hle. destruct fuel as [|fuel]; simpl; [reflexivity|].
  destruct (0 <? num) eqn:E; [apply Z.ltb_lt in E; lia | reflexivity].
Qed.

(** The loop has finished within the rounds it is given: more fuel does not
    change the digits. *)
Lemma to_base58_fuel (fuel extra : nat) (num : Z) (result : string) :
  0 <= num < 2 ^ Z.of_nat fuel ->
  to_base58 (fuel + extra) num result = to_base58 fuel num result.
Proof.
  revert num result.
  induction fuel as [|fuel IH]; intros num result [H0 Hlt].
  - simpl in Hlt. assert (num = 0) by lia. subst num.
    rewrite !to_base58_done by lia. reflexivity.
  - simpl. destruct (0 <? num) eqn:E; [|reflexivity].
    apply Z.ltb_lt in E. apply IH. unfold BASE. split.
    + apply Z.div_pos; lia.
    + rewrite Nat2Z.inj_succ, Z.pow_succ_r in Hlt by lia.
      apply Z.div_lt_upper_bound; lia.
Qed.

Lemma bytes_to_num_bound_from (bytes : list byte) (acc : Z) :
  0 <= acc ->
  0 <= fold_left (fun num b => num * 256 + byteval b) bytes acc
    < (acc + 1) * 2 ^ (8 * Z.of_nat (length bytes)).
Proof.
  revert acc. induction bytes as [|b bytes IH]; intros acc Hacc.
  - simpl. lia.
  - cbn [fold_left length].
    assert (Hb : 0 <= byteval b < 256).
    { unfold byteval. pose proof (Byte.to_N_bounded b). lia. }
    specialize (IH (acc * 256 + byteval b) ltac:(lia)).
    replace (8 * Z.of_nat (S (length bytes)))
      with (8 + 8 * Z.of_nat (length bytes)) by lia.
    rewrite Z.pow_add_r by lia. change (2 ^ 8) with 256.
    split; [lia|]. destruct IH as [_ IH].
    eapply Z.lt_le_trans; [exact IH|].
    rewrite Z.mul_assoc.
    apply Z.mul_le_mono_nonneg_r; [apply Z.pow_nonneg|]; lia.
Qed.

Lemma bytes_to_num_bound (bytes : list byte) :
  0 <= bytes_to_num bytes < 2 ^ Z.of_nat (rounds bytes).
Proof.
  unfold bytes_to_num, rounds.
  pose proof (bytes_to_num_bound_from bytes 0 ltac:(lia)) as H.
  rewrite Nat2Z.inj_mul. simpl Z.of_nat at 1. lia.
Qed.

(** The rounds [base58Encode] allows are enough for the loop to reach
    [num = 0]: with more of them the result is the same. *)
Lemma base58Encode_rounds_suffice (bytes : list byte) (extra : nat) :
  to_base58 (rounds bytes + extra) (bytes_to_num bytes) ""
  = to_base58 (rounds bytes) (bytes_to_num bytes) "".
Proof. apply to_base58_fuel, bytes_to_num_bound. Qed.

End Base58Facts.

Section ZeroKeys.
Import Base58.

Lemma bytes_to_num_zeros (n : nat) : bytes_to_num (repeat x00 n) = 0.
Proof.
  unfold bytes_to_num. induction n as [|n IH]; [reflexivity|].
  cbn [repeat fold_left]. exact IH.
Qed.

Lemma append_cons (c : ascii) (s t : string) :
  (String c s ++ t)%string = String c (s ++ t)%string.
Proof. reflexivity. Qed.

Lemma ones_shift (n : nat) (acc : string) :
  (ones n ++ String "1"%char acc = String "1"%char (ones n ++ acc))%string.
Proof.
  induction n as [|n IH]; [reflexivity|].
  cbn [ones]. rewrite !append_cons, IH. reflexivity.
Qed.

Lemma leading_ones_zeros (n : nat) (acc : string) :
  leading_ones (repeat x00 n) acc = (ones n ++ acc)%string.
Proof.
  revert acc. induction n as [|n IH]; intros acc; [reflexivity|].
  cbn [repeat leading_ones]. change (byteval x00 =? 0) with true.
  cbv iota. rewrite IH. cbn [ones]. rewrite append_cons. apply ones_shift.
Qed.

Lemma ones_nil (n : nat) : (ones n ++ "")%string = ones n.
Proof.
  induction n as [|n IH]; [reflexivity|]. cbn [ones].
  rewrite append_cons, IH. reflexivity.
Qed.

(** C4, as the code has it: a key of [n] zero bytes encodes to [n]
    characters ['1'], one per leading zero byte, so the 32-byte all-zero
    key encodes to 32 of them (the address of the system program); the
    single ["1"] is what the final [result || '1'] gives for no bytes at
    all. *)
Theorem base58Encode_zero_key :
  base58Encode (repeat x00 32) = "11111111111111111111111111111111"
  /\ (forall n : nat, base58Encode (repeat x00 (S n)) = ones (S n))
  /\ base58Encode [] = "1".
Proof.
  assert (Hn : forall n : nat, base58Encode (repeat x00 (S n)) = ones (S n)).
  { intros n. unfold base58Encode.
    rewrite bytes_to_num_zeros, to_base58_done by lia.
    rewrite leading_ones_zeros, ones_nil. reflexivity. }
  split; [exact (Hn 31%nat)|]. split; [exact Hn | reflexivity].
Qed.

(** C4 as stated fails: the all-zero 32-byte key does not encode to ["1"]. *)
Lemma base58Encode_zero_key_not_1 : base58Encode (repeat x00 32) <> "1".
Proof. vm_compute. discriminate. Qed.

End ZeroKeys.

(** ** Bytes *)

Section Bytes.

Lemma byteval_bound (b : byte) : 0 <= byteval b < 256.
Proof. unfold byteval. pose proof (Byte.to_N_bounded b). lia. Qed.

End Bytes.


(** ** The payment-header decoder *)

Section Decoder.
Import Solana PaymentHeader.

Lemma extractSolanaFeePayer_first_account_normal (R : Runtime) (v : Js.value) :
  exists found, extractSolanaFeePayer_first_account R v = Normal found.
Proof.
  unfold extractSolanaFeePayer_first_account, try_catch.
  destruct (bindC (base64_bytes R v) walk_first_account); eauto.
Qed.

(** Where the walk does throw, the answer is [null]: a program-id index
    outside the account table. *)
Example program_index_outside_table :
  let txBytes :=
    [x00; x01; x00; x00; x01] ++ repeat x11 32 ++ repeat x09 32
      ++ [x01; x09; x00; x00] in
  walk txBytes = Thrown "bytes is not iterable"
  /\ caught (walk txBytes) = None.
Proof. vm_compute. split; reflexivity. Qed.

Lemma get_get_opt (v : Js.value) (k : string) (x : Js.value) :
  Js.get v k = Normal x -> Js.get_opt v k = x.
Proof. destruct v; cbn; intros H; inversion H; reflexivity. Qed.





Example evm_header_decoded :
  decodePaymentHeader Reference.runtime (Some Examples.evm_header)
    = Normal (Some {| payer := Js.Str "0xA11ce"; amount := Js.Str "1000";
                      network := Js.Str "eip155:8453" |}).
Proof. vm_compute. reflexivity. Qed.


Example versions_on_accepted_header :
  decodePaymentHeader_first_account Reference.runtime (Some Examples.accepted_header)
    = Normal (Some {| payer := Js.Null; amount := Js.Null; network := Js.Null |})
  /\ decodePaymentHeader Reference.runtime (Some Examples.accepted_header)
    = Normal (Some {| payer := Js.Null; amount := Js.Str "1000"; network := Js.Null |}).
Proof. vm_compute. split; reflexivity. Qed.

Example versions_on_solana_header :
  decodePaymentHeader_first_account Reference.runtime (Some Examples.solana_header)
    = Normal (Some {| payer := Js.Str "29d2S7vB453rNYFdR5Ycwt7y9haRT5fwVwL9zTmBhfV2";
                      amount := Js.Null; network := Js.Str SOLANA_MAINNET |})
  /\ decodePaymentHeader Reference.runtime (Some Examples.solana_header)
    = Normal (Some {| payer := Js.Str "4Ss5JMkXAD9Z7cktFEdrqeMuT6jGMF1pVozTyPHZ6zT4";
                      amount := Js.Null; network := Js.Str SOLANA_MAINNET |}).
Proof. vm_compute. split; reflexivity. Qed.

End Decoder.

(** ** The response validator *)

Section ValidatorFacts.
Import Validator.

Lemma valid_unfolded (body : Js.value) (statusCode : Z) (config : ValidationConfig) :
  valid (validateResponse body statusCode config)
  = PrimFloat.leb 0.5%float
      (meaningfulnessScore (validateResponse body statusCode config))
    && ((200 <=? statusCode) && (statusCode <? 300))
    && negb (isEmptyResponse body (default 2 (minResponseSize config))).
Proof.
  unfold validateResponse.
  match goal with
  | |- context [let '(checks, score) := ?state in _] => destruct state
  end.
  reflexivity.
Qed.

(** C6: [valid] is the conjunction of the three gates: the score computed
    for the response is at least 0.5, the status is in [200, 300), and the
    body is not empty for the configured minimum size (2 by default).  The
    last two are conjuncts of their own, whatever the score. *)
Theorem validateResponse_valid (body : Js.value) (statusCode : Z)
    (config : ValidationConfig) :
  valid (validateResponse body statusCode config)
  = PrimFloat.leb 0.5%float
      (meaningfulnessScore (validateResponse body statusCode config))
    && ((200 <=? statusCode) && (statusCode <? 300))
    && negb (isEmptyResponse body (default 2 (minResponseSize config))).
Proof.
  unfold validateResponse.
  destruct (match customValidator config with
            | Some validator => _
            | None => _
            end) as [checks score].
  cbn [valid meaningfulnessScore]. reflexivity.
Qed.

(** A non-2xx status or an empty body makes the response invalid, whatever
    the other checks say. *)
Corollary validateResponse_gates (body : Js.value) (statusCode : Z)
    (config : ValidationConfig) :
  valid (validateResponse body statusCode config) = true ->
  200 <= statusCode < 300
  /\ isEmptyResponse body (default 2 (minResponseSize config)) = false.
Proof.
  rewrite valid_unfolded. intros H.
  apply andb_prop in H as [H Hempty]. apply andb_prop in H as [_ Hstatus].
  apply andb_prop in Hstatus as [Hlo Hhi].
  apply Z.leb_le in Hlo. apply Z.ltb_lt in Hhi.
  split; [lia|]. destruct (isEmptyResponse _ _); [discriminate | reflexivity].
Qed.

(** C5, as the code has it: the score is 1.0 minus 0.3 for a non-2xx
    status, 0.4 for an empty body, 0.3 for error indicators, 0.2 for
    missing required fields, 0.1 for empty collections and 0.3 when the
    custom validator returned a result that is not valid, in this order,
    then clamped to [0, 1].  The checks the custom validator returns, and
    the failed [custom_validator] check recorded when it throws, are
    appended to the list and leave the score as it is. *)
Theorem validateResponse_score (body : Js.value) (statusCode : Z)
    (config : ValidationConfig) :
  meaningfulnessScore (validateResponse body statusCode config)
  = score_by_category body statusCode config
  /\ PrimFloat.leb 0%float (score_by_category body statusCode config) = true
  /\ PrimFloat.leb (score_by_category body statusCode config) 1%float = true.
Proof.
  unfold validateResponse, score_by_category, custom_reports_invalid,
    record, custom_check, minus_if.
  cbn [passed status_check empty_check error_check required_check collections_check
       fst snd negb].
  destruct ((200 <=? statusCode) && (statusCode <? 300));
    destruct (isEmptyResponse body (default 2 (minResponseSize config)));
    destruct (hasErrorIndicators body (errorFields config));
    cbn [negb];
    (destruct (required_configured config) as [required|];
     [destruct (length (missing_fields body required) =? 0)%nat|]);
    cbn [negb];
    [> destruct (collections_configured config body);
       [destruct (checkEmptyCollections body)|] ..];
    cbn [negb andb];
    [> destruct (customValidator config) as [validator|];
       [destruct (validator body statusCode) as [customResult|errorMessage];
        [destruct (valid customResult)|]|] ..];
    cbn [negb fst snd];
    (split; [reflexivity | split; vm_compute; reflexivity]).
Qed.

(** C5 as stated fails.  A custom validator that throws leaves a failed
    [custom_validator] check in the result and the score at 1.0, where the
    penalties of the failed checks give 0.7. *)
Lemma validateResponse_raised_no_penalty :
  let config :=
    {| customValidator := Some (fun _ _ => Raised "boom"); minResponseSize := None;
       requiredFields := None; errorFields := None;
       rejectEmptyCollections := false |} in
  let result := validateResponse (Js.Str "ok") 200 config in
  List.filter (fun c => negb (passed c)) (checks result)
    = [{| name := "custom_validator"; passed := false;
          message := Some "Custom validator error: boom" |}]
  /\ meaningfulnessScore result = 1%float
  /\ score_of_failed_checks (checks result) = 0.7%float
  /\ PrimFloat.eqb (meaningfulnessScore result)
       (score_of_failed_checks (checks result)) = false.
Proof. vm_compute. repeat split. Qed.

(** The custom penalty follows the verdict, not the checks: a validator
    that returns a failed check of its own with [valid = true] costs
    nothing, and one that returns [valid = false] with no check costs 0.3. *)
Example custom_verdict_decides :
  let ok_with_failed_check :=
    {| valid := true;
       checks := [{| name := "schema"; passed := false; message := None |}];
       meaningfulnessScore := 1%float; reason := None |} in
  let invalid_without_check :=
    {| valid := false; checks := []; meaningfulnessScore := 0%float; reason := None |} in
  let config outcome :=
    {| customValidator := Some (fun _ _ => Returned outcome); minResponseSize := None;
       requiredFields := None; errorFields := None;
       rejectEmptyCollections := false |} in
  meaningfulnessScore (validateResponse (Js.Str "ok") 200 (config ok_with_failed_check))
    = 1%float
  /\ meaningfulnessScore (validateResponse (Js.Str "ok") 200 (config invalid_without_check))
    = 0.7%float.
Proof. vm_compute. split; reflexivity. Qed.

(** The subtraction is the one of doubles: error indicators and a missing
    required field on a 200 response give 0.49999999999999994, below the
    threshold of 0.5. *)
Example score_is_a_double :
  let config :=
    {| customValidator := None; minResponseSize := None;
       requiredFields := Some ["data"]; errorFields := None;
       rejectEmptyCollections := false |} in
  let result := validateResponse (Js.Obj [("error", Js.Str "failed")]) 200 config in
  meaningfulnessScore result = 0.49999999999999994%float
  /\ valid result = false.
Proof. vm_compute. split; reflexivity. Qed.

Example isEmptyResponse_cases :
  isEmptyResponse (Js.Str "") 2 = true
  /\ isEmptyResponse (Js.Str "ok") 2 = false
  /\ (forall minSize, isEmptyResponse (Js.Obj []) minSize = true)
  /\ (forall minSize, isEmptyResponse (Js.Arr []) minSize = true).
Proof. repeat split. Qed.

(** A required field that the body inherits is not missing: the score of
    [{a: 1}] stays 1 when [constructor] is required, and drops to 0.8 when
    [data] is. *)
Example inherited_field_is_not_missing :
  missing_fields Samples.a_body ["constructor"; "data"; "a"] = ["data"]
  /\ meaningfulnessScore (validateResponse Samples.a_body 200 Samples.requires_constructor)
     = 1%float
  /\ missing_fields (Js.Obj [("constructor", Js.Null)]) ["constructor"]
     = ["constructor"].
Proof. vm_compute. repeat split. Qed.

End ValidatorFacts.

(** ** The refund executor *)

Section RefundFacts.
Import Refund.

(** C7: when a reconnection is scheduled with the attempt counter at [n],
    the delay is [1000 * 2 ^ n] ms while [n < 5], that is 1000, 2000, 4000,
    8000 and 16000 ms, and 60000 ms from [n = 5] on; the notice of the
    change of phase is logged at [n = 5] and at no other value; the counter
    becomes [n + 1]. *)
Theorem scheduleReconnect_schedule (st : RefundExecutor) :
  isShuttingDown st = false ->
  let n := reconnectAttempts st in
  let delay := if (n <? 5)%nat then 1000 * 2 ^ Z.of_nat n else 60000 in
  snd (scheduleReconnect st)
    = (if (n =? 5)%nat then [Log "Server unreachable, retrying every 60s"] else [])
        ++ [SetTimeout delay]
  /\ reconnectAttempts (fst (scheduleReconnect st)) = S n
  /\ delay = match n with
             | 0%nat => 1000
             | 1%nat => 2000
             | 2%nat => 4000
             | 3%nat => 8000
             | 4%nat => 16000
             | _ => 60000
             end.
Proof.
  intros Hrunning. unfold scheduleReconnect. rewrite Hrunning.
  destruct (reconnectAttempts st) as [|[|[|[|[|[|n]]]]]]; cbn; repeat split.
Qed.

Lemma scheduleReconnect_schedule_witness :
  isShuttingDown Examples.unreachable = false
  /\ snd (scheduleReconnect Examples.unreachable)
     = [Log "Server unreachable, retrying every 60s"; SetTimeout 60000]
  /\ snd (scheduleReconnect (fst (scheduleReconnect Examples.unreachable)))
     = [SetTimeout 60000].
Proof.
  split; [reflexivity|]. split.
  - exact (proj1 (scheduleReconnect_schedule Examples.unreachable eq_refl)).
  - exact (proj1 (scheduleReconnect_schedule
                    (fst (scheduleReconnect Examples.unreachable)) eq_refl)).
Defined.

(** Shutting down suppresses the reconnection. *)
Lemma scheduleReconnect_shutting_down (st : RefundExecutor) :
  isShuttingDown st = true -> scheduleReconnect st = (st, []).
Proof. intros H. unfold scheduleReconnect. rewrite H. reflexivity. Qed.

(** The checks of [processSingleRefund] are the specification's [checkCaps]
    on the counters after the lazy reset. *)
Lemma before_execution_checkCaps (host : Host) (config : ResolvedRefundConfig)
    (st : RefundExecutor) (refund : PendingRefund) (today thisMonth : string) :
  before_execution host config st refund today thisMonth
  = if decide (id refund ∈ processedRefundIds st) then
      (st, [Log "Refund already processed in this session"], false)
    else
      match getEndpointConfig host (endpoints config) (url refund) with
      | Thrown message =>
          (st,
           Log "Error processing refund"
             :: (if onRefundError config then [OnRefundError (id refund) message true]
                 else []),
           false)
      | Normal endpointConfig =>
          on_verdict config st endpointConfig refund today thisMonth
            (checkCaps config endpointConfig refund
               (todayRefundedCents (reset_caps st today thisMonth))
               (monthRefundedCents (reset_caps st today thisMonth)))
      end.
Proof.
  unfold before_execution, on_verdict, checkCaps.
  destruct (decide (id refund ∈ processedRefundIds st)); [reflexivity|].
  destruct (getEndpointConfig host (endpoints config) (url refund))
    as [endpointConfig|message]; [|reflexivity].
  destruct (explicitly_disabled endpointConfig); [reflexivity|].
  destruct (PrimFloat.ltb (effective_maximum config endpointConfig) (amountUsd refund));
    [reflexivity|].
  destruct (exceeds (todayRefundedCents (reset_caps st today thisMonth)
                     + amountCents refund) (dailyCapUsd config)); [reflexivity|].
  destruct (exceeds (monthRefundedCents (reset_caps st today thisMonth)
                     + amountCents refund) (monthlyCapUsd config)); reflexivity.
Qed.

Lemma reset_caps_same_day (st : RefundExecutor) (today thisMonth : string) :
  lastCapResetDate st = today ->
  todayRefundedCents (reset_caps st today thisMonth) = todayRefundedCents st.
Proof.
  intros <-. unfold reset_caps. rewrite String.eqb_refl.
  destruct (String.eqb thisMonth (lastCapResetMonth st)); reflexivity.
Qed.

Lemma reset_caps_wsOpen (st : RefundExecutor) (today thisMonth : string) :
  wsOpen (reset_caps st today thisMonth) = wsOpen st.
Proof.
  unfold reset_caps.
  destruct (String.eqb today (lastCapResetDate st)); cbn;
    destruct (String.eqb thisMonth _); reflexivity.
Qed.

(** A daily cap of 50 USD is 5000 cents. *)
Lemma exceeds_50_usd (total : Z) : exceeds total (Some 50%float) = (5000 <? total).
Proof. reflexivity. Qed.

(** C3: with a daily cap of 50 USD and 4950 cents refunded today, an
    instruction of 100 cents that reaches the cap checks is rejected with
    reason [EXCEEDED_CAP], the counter stays at 4950 and no transfer is
    started; one of 50 cents passes the daily check and, its transfer
    broadcast, brings the counter to exactly 5000.  The daily check denies
    when the counter plus the amount is greater than
    [floor(dailyCapUsd * 100)], here 5000, and the checks are those of
    [checkCaps] in its order: endpoint disabled, per-request maximum, daily
    cap, monthly cap. *)
Theorem daily_cap_enforcement (host : Host) (config : ResolvedRefundConfig)
    (st : RefundExecutor) (today thisMonth : string)
    (denied allowed : PendingRefund) (txHash : string) :
  dailyCapUsd config = Some 50%float ->
  todayRefundedCents st = 4950 ->
  lastCapResetDate st = today ->
  reaches_caps host config st denied -> amountCents denied = 100 ->
  reaches_caps host config st allowed -> amountCents allowed = 50 ->
  exceeds (monthRefundedCents (reset_caps st today thisMonth) + 50)
    (monthlyCapUsd config) = false ->
  immediate config allowed = None ->
  let rolled := reset_caps st today thisMonth in
  let rejection :=
    [Log "Daily cap exceeded";
     sendMessage rolled (refund_rejected (id denied) "EXCEEDED_CAP" DailyCapExceeded)] in
  before_execution host config st denied today thisMonth = (rolled, rejection, false)
  /\ processSingleRefund host config st denied today thisMonth (Broadcast txHash)
     = (rolled, rejection)
  /\ todayRefundedCents rolled = 4950
  /\ exceeds (todayRefundedCents rolled + amountCents allowed) (dailyCapUsd config)
     = false
  /\ snd (before_execution host config st allowed today thisMonth) = true
  /\ todayRefundedCents
       (fst (processSingleRefund host config st allowed today thisMonth
               (Broadcast txHash))) = 5000
  /\ (forall total : Z, exceeds total (dailyCapUsd config) = (5000 <? total))
  /\ (forall (refund : PendingRefund) (endpointConfig : option Endpoint.EndpointRefundConfig),
        let todayCents := todayRefundedCents rolled in
        let monthCents := monthRefundedCents rolled in
        checkCaps config endpointConfig refund todayCents monthCents
        = if explicitly_disabled endpointConfig then Some EndpointDisabled
          else if PrimFloat.ltb (effective_maximum config endpointConfig)
                    (amountUsd refund) then Some OverMaximum
          else if 5000 <? todayCents + amountCents refund then Some OverDailyCap
          else if exceeds (monthCents + amountCents refund) (monthlyCapUsd config)
          then Some OverMonthlyCap
          else None)
  /\ (forall refund : PendingRefund,
        id refund ∉ processedRefundIds st ->
        forall endpointConfig,
          getEndpointConfig host (endpoints config) (url refund) = Normal endpointConfig ->
          before_execution host config st refund today thisMonth
          = on_verdict config st endpointConfig refund today thisMonth
              (checkCaps config endpointConfig refund
                 (todayRefundedCents rolled) (monthRefundedCents rolled))).
Proof.
  intros Hcap Htoday Hdate
    (Hnew1 & ec1 & Hec1 & Hon1 & Hmax1) Hamount1
    (Hnew2 & ec2 & Hec2 & Hon2 & Hmax2) Hamount2 Hmonth Himmediate rolled rejection.
  assert (Hrolled : todayRefundedCents rolled = 4950).
  { unfold rolled. rewrite (reset_caps_same_day st today thisMonth Hdate). exact Htoday. }
  assert (Hdenied : before_execution host config st denied today thisMonth
                    = (rolled, rejection, false)).
  { rewrite before_execution_checkCaps.
    destruct (decide (id denied ∈ processedRefundIds st)); [contradiction|].
    rewrite Hec1. unfold checkCaps. rewrite Hon1, Hmax1. fold rolled.
    rewrite Hrolled, Hamount1, Hcap. reflexivity. }
  assert (Hallowed : before_execution host config st allowed today thisMonth
                     = (rolled,
                        [sendMessage rolled (refund_executing (id allowed));
                         ExecuteRefundTx allowed], true)).
  { rewrite before_execution_checkCaps.
    destruct (decide (id allowed ∈ processedRefundIds st)); [contradiction|].
    rewrite Hec2. unfold checkCaps. rewrite Hon2, Hmax2. fold rolled.
    rewrite Hrolled, Hamount2, Hcap.
    change (exceeds (4950 + 50) (Some 50%float)) with false. cbv iota.
    unfold rolled. rewrite Hmonth. reflexivity. }
  split; [exact Hdenied|].
  split; [unfold processSingleRefund; rewrite Hdenied; reflexivity|].
  split; [exact Hrolled|].
  split; [rewrite Hrolled, Hamount2, Hcap; reflexivity|].
  split; [rewrite Hallowed; reflexivity|].
  split.
  { unfold processSingleRefund. rewrite Hallowed, Himmediate.
    cbn. rewrite Hrolled, Hamount2. reflexivity. }
  split; [intros total; rewrite Hcap; reflexivity|].
  split.
  { intros refund endpointConfig. cbn zeta. unfold checkCaps. rewrite Hcap.
    reflexivity. }
  intros refund Hnew endpointConfig Hec.
  rewrite before_execution_checkCaps.
  destruct (decide (id refund ∈ processedRefundIds st)); [contradiction|].
  rewrite Hec. reflexivity.
Qed.

Lemma daily_cap_enforcement_witness :
  let denied := Examples.refund_of "refund-100" 100 1%float in
  let allowed := Examples.refund_of "refund-50" 50 0.5%float in
  processSingleRefund Examples.host Examples.provider Examples.near_cap denied
    "2026-03-14" "2026-03" (Broadcast "0xfeed")
  = (Examples.near_cap,
     [Log "Daily cap exceeded";
      Send (refund_rejected "refund-100" "EXCEEDED_CAP" DailyCapExceeded)])
  /\ todayRefundedCents
       (fst (processSingleRefund Examples.host Examples.provider Examples.near_cap
               allowed "2026-03-14" "2026-03" (Broadcast "0xfeed"))) = 5000.
Proof.
  intros denied allowed.
  pose proof (daily_cap_enforcement Examples.host Examples.provider Examples.near_cap
                "2026-03-14" "2026-03" denied allowed "0xfeed"
                eq_refl eq_refl eq_refl
                (conj (not_elem_of_empty (C := gset string) "refund-100")
                   (ex_intro _ None (conj eq_refl (conj eq_refl eq_refl))))
                eq_refl
                (conj (not_elem_of_empty (C := gset string) "refund-50")
                   (ex_intro _ None (conj eq_refl (conj eq_refl eq_refl))))
                eq_refl eq_refl eq_refl) as H.
  split.
  - exact (proj1 (proj2 H)).
  - exact (proj1 (proj2 (proj2 (proj2 (proj2 (proj2 H)))))).
Defined.

(** *** Idempotency *)

(** An identifier in the set is skipped: no check, no transfer. *)
Lemma processed_is_skipped (host : Host) (config : ResolvedRefundConfig)
    (st : RefundExecutor) (refund : PendingRefund) (today thisMonth : string)
    (outcome : ChainOutcome) :
  id refund ∈ processedRefundIds st ->
  processSingleRefund host config st refund today thisMonth outcome
  = (st, [Log "Refund already processed in this session"]).
Proof.
  intros Hin. unfold processSingleRefund, before_execution.
  destruct (decide (id refund ∈ processedRefundIds st)); [reflexivity | contradiction].
Qed.

Lemma reset_caps_processed (st : RefundExecutor) (today thisMonth : string) :
  processedRefundIds (reset_caps st today thisMonth) = processedRefundIds st.
Proof.
  unfold reset_caps.
  destruct (String.eqb today (lastCapResetDate st)); cbn;
    destruct (String.eqb thisMonth _); reflexivity.
Qed.

(** The identifier enters the set when, and only when, its transfer has
    succeeded. *)
Lemma after_execution_processed (config : ResolvedRefundConfig) (st : RefundExecutor)
    (refund : PendingRefund) (result : TxResult) :
  processedRefundIds (fst (after_execution config st refund result))
  = if success result then {[ id refund ]} ∪ processedRefundIds st
    else processedRefundIds st.
Proof. unfold after_execution. destruct (success result); reflexivity. Qed.

Lemma transfers_of_app (refundId : string) (a b : list Effect) :
  transfers_of refundId (a ++ b)
  = (transfers_of refundId a + transfers_of refundId b)%nat.
Proof. unfold transfers_of. rewrite List.filter_app, length_app. reflexivity. Qed.

Lemma before_execution_no_transfer (host : Host) (config : ResolvedRefundConfig)
    (st : RefundExecutor) (refund : PendingRefund) (today thisMonth : string)
    (refundId : string) :
  transfers_of refundId
    (snd (fst (before_execution host config st refund today thisMonth))) = 0%nat.
Proof.
  rewrite before_execution_checkCaps.
  destruct (decide (id refund ∈ processedRefundIds st)); [reflexivity|].
  destruct (getEndpointConfig host (endpoints config) (url refund))
    as [endpointConfig|message]; [|destruct (onRefundError config); reflexivity].
  unfold on_verdict, sendMessage. rewrite reset_caps_wsOpen.
  destruct (checkCaps _ _ _ _ _) as [[| | |]|]; destruct (wsOpen st); reflexivity.
Qed.

Lemma before_execution_processed (host : Host) (config : ResolvedRefundConfig)
    (st : RefundExecutor) (refund : PendingRefund) (today thisMonth : string) :
  processedRefundIds (fst (fst (before_execution host config st refund today thisMonth)))
  = processedRefundIds st.
Proof.
  rewrite before_execution_checkCaps.
  destruct (decide (id refund ∈ processedRefundIds st)); [reflexivity|].
  destruct (getEndpointConfig host (endpoints config) (url refund))
    as [endpointConfig|message]; [|reflexivity].
  unfold on_verdict.
  destruct (checkCaps _ _ _ _ _) as [[| | |]|]; cbn [fst];
    rewrite ?reset_caps_processed; reflexivity.
Qed.

Lemma before_execution_proceeds (host : Host) (config : ResolvedRefundConfig)
    (st : RefundExecutor) (refund : PendingRefund) (today thisMonth : string) :
  snd (before_execution host config st refund today thisMonth) = true ->
  id refund ∉ processedRefundIds st.
Proof.
  unfold before_execution.
  destruct (decide (id refund ∈ processedRefundIds st)); [discriminate | trivial].
Qed.

(** A confirmation goes out for the identifier of the instruction alone,
    and then the identifier is in the set. *)
Lemma after_execution_transfer (config : ResolvedRefundConfig) (st : RefundExecutor)
    (refund : PendingRefund) (result : TxResult) (refundId : string) :
  (transfers_of refundId (snd (after_execution config st refund result)) <= 1)%nat
  /\ (transfers_of refundId (snd (after_execution config st refund result)) = 1%nat ->
      refundId = id refund
      /\ refundId ∈ processedRefundIds (fst (after_execution config st refund result)))
  /\ processedRefundIds st
       ⊆ processedRefundIds (fst (after_execution config st refund result)).
Proof.
  unfold after_execution, sendMessage.
  destruct (success result); cbn [fst snd].
  - split; [|split; [|set_solver]].
    + destruct (wsOpen st), (onRefund config); cbn;
        destruct (String.eqb (id refund) refundId); cbn; lia.
    + destruct (wsOpen st), (onRefund config); cbn;
        destruct (String.eqb (id refund) refundId) eqn:E; cbn; try discriminate;
        intros _; apply String.eqb_eq in E; subst refundId; split;
        solve [reflexivity | set_solver].
  - assert (Hzero : transfers_of refundId
                      (Log "Refund execution failed"
                         :: (if default false (retryable result) then []
                             else [if wsOpen st
                                   then Send (refund_rejected (id refund) "OTHER"
                                                (ExecutionError
                                                   (or_else (error result)
                                                      "Execution failed")))
                                   else Log "Cannot send message - WebSocket not connected"])
                         ++ (if onRefundError config
                             then [OnRefundError (id refund)
                                     (or_else (error result) "Unknown error")
                                     (default true (retryable result))]
                             else [])) = 0%nat).
    { destruct (default false (retryable result)), (wsOpen st), (onRefundError config);
        reflexivity. }
    rewrite Hzero. split; [lia|]. split; [discriminate | reflexivity].
Qed.

Lemma processSingleRefund_transfer (host : Host) (config : ResolvedRefundConfig)
    (st : RefundExecutor) (refund : PendingRefund) (today thisMonth : string)
    (outcome : ChainOutcome) (refundId : string) :
  let result := processSingleRefund host config st refund today thisMonth outcome in
  (transfers_of refundId (snd result) <= 1)%nat
  /\ (transfers_of refundId (snd result) = 1%nat ->
      (refundId ∉ processedRefundIds st)
      /\ refundId ∈ processedRefundIds (fst result))
  /\ processedRefundIds st ⊆ processedRefundIds (fst result).
Proof.
  cbn zeta. unfold processSingleRefund.
  pose proof (before_execution_no_transfer host config st refund today thisMonth refundId)
    as Hnone.
  pose proof (before_execution_processed host config st refund today thisMonth) as Hset.
  pose proof (before_execution_proceeds host config st refund today thisMonth) as Hnew.
  destruct (before_execution host config st refund today thisMonth)
    as [[st1 effects] proceed].
  cbn [fst snd] in Hnone, Hset, Hnew.
  destruct proceed; cbn [fst snd].
  - pose proof (after_execution_transfer config st1 refund
                  (default (settled refund outcome) (immediate config refund)) refundId)
      as (Hle & Hone & Hsub).
    destruct (after_execution config st1 refund
                (default (settled refund outcome) (immediate config refund)))
      as [st2 effects2].
    cbn [fst snd] in *. rewrite transfers_of_app, Hnone. cbn [Nat.add].
    split; [exact Hle|]. split.
    + intros H1. destruct (Hone H1) as [-> Hin]. split; [|exact Hin].
      apply Hnew. reflexivity.
    + rewrite <- Hset. exact Hsub.
  - rewrite Hnone. split; [lia|]. split; [discriminate|]. rewrite Hset. reflexivity.
Qed.

(** X15: Handled one after the other, the instructions of a session lead to at
    most one transfer for each identifier, and to none for an identifier
    that is already in the set. *)
Lemma sequential_at_most_once (host : Host) (config : ResolvedRefundConfig)
    (instructions : list RefundInstruction) (refundId : string) :
  forall st : RefundExecutor,
    (transfers_of refundId (snd (process_trace host config st instructions)) <= 1)%nat
    /\ (refundId ∈ processedRefundIds st ->
        transfers_of refundId (snd (process_trace host config st instructions)) = 0%nat).
Proof.
  induction instructions as [|i instructions IH]; intros st.
  - split; [cbn; lia | reflexivity].
  - cbn [process_trace].
    pose proof (processSingleRefund_transfer host config st (refund i) (today i)
                  (thisMonth i) (outcome i) refundId) as (Hle & Hone & Hsub).
    destruct (processSingleRefund host config st (refund i) (today i) (thisMonth i)
                (outcome i)) as [st1 effects1].
    cbn [fst snd] in *.
    destruct (IH st1) as [IHle IHzero].
    destruct (process_trace host config st1 instructions) as [st2 effects2].
    cbn [fst snd] in *. rewrite transfers_of_app.
    assert (Hcases : transfers_of refundId effects1 = 0%nat
                     \/ transfers_of refundId effects1 = 1%nat) by lia.
    destruct Hcases as [H0 | H1].
    + rewrite H0. cbn [Nat.add]. split; [exact IHle|].
      intros Hin. apply IHzero. exact (Hsub _ Hin).
    + destruct (Hone H1) as [Hnew Hin]. rewrite H1, (IHzero Hin).
      split; [lia|]. intros Hold. contradiction.
Qed.

(** One instruction handled from start to end is its delivery followed by
    the end of its transfer, with no other event in between. *)
Lemma deliver_then_settle (host : Host) (config : ResolvedRefundConfig) (s : Session)
    (refund : PendingRefund) (today thisMonth : string) (outcome : ChainOutcome) :
  inFlight s = [] ->
  let result :=
    processSingleRefund host config (executor s) refund today thisMonth outcome in
  run host config s [Deliver refund today thisMonth; Settle (id refund) outcome]
  = {| executor := fst result; inFlight := []; trace := trace s ++ snd result |}.
Proof.
  intros Hnone. cbn zeta. unfold run, processSingleRefund. cbn [fold_left handle].
  destruct (before_execution host config (executor s) refund today thisMonth)
    as [[st effects] proceed].
  destruct proceed; cbn [executor inFlight trace]; rewrite Hnone.
  - cbn [app take_in_flight]. rewrite String.eqb_refl.
    destruct (after_execution config st refund
                (default (settled refund outcome) (immediate config refund)))
      as [st' effects'].
    cbn [fst snd]. rewrite <- app_assoc. reflexivity.
  - cbn [take_in_flight fst snd]. reflexivity.
Qed.

Lemma after_execution_broadcast (config : ResolvedRefundConfig) (st : RefundExecutor)
    (refund : PendingRefund) (hash : string) :
  transfers_of (id refund)
    (snd (after_execution config st refund (settled refund (Broadcast hash)))) = 1%nat.
Proof.
  unfold after_execution, settled, sendMessage. cbn [success snd].
  unfold transfers_of. cbn [List.filter is_transfer_of]. rewrite String.eqb_refl.
  destruct (wsOpen st), (onRefund config); reflexivity.
Qed.

Lemma reset_caps_again (st : RefundExecutor) (today thisMonth : string) :
  reset_caps (reset_caps st today thisMonth) today thisMonth
  = reset_caps st today thisMonth.
Proof.
  unfold reset_caps.
  destruct (String.eqb today (lastCapResetDate st)) eqn:Eday; cbn;
    destruct (String.eqb thisMonth (lastCapResetMonth st)) eqn:Emonth; cbn;
    rewrite ?Eday, ?Emonth, ?String.eqb_refl; cbn;
    rewrite ?Eday, ?Emonth, ?String.eqb_refl; reflexivity.
Qed.

(** A call that goes on to its transfer leaves the executor in a state in
    which the same instruction passes every check again: the set and the
    counters change only after the transfer. *)
Lemma before_execution_again (host : Host) (config : ResolvedRefundConfig)
    (st : RefundExecutor) (refund : PendingRefund) (today thisMonth : string) :
  snd (before_execution host config st refund today thisMonth) = true ->
  before_execution host config
    (fst (fst (before_execution host config st refund today thisMonth)))
    refund today thisMonth
  = before_execution host config st refund today thisMonth.
Proof.
  intros Hproceed. revert Hproceed.
  unfold before_execution at 1 3.
  destruct (decide (id refund ∈ processedRefundIds st)) as [Hin|Hnew]; [discriminate|].
  destruct (getEndpointConfig host (endpoints config) (url refund))
    as [endpointConfig|message] eqn:Hendpoint; [|discriminate].
  destruct (explicitly_disabled endpointConfig) eqn:Hdisabled; [discriminate|].
  destruct (PrimFloat.ltb (effective_maximum config endpointConfig) (amountUsd refund))
    eqn:Hmax; [discriminate|].
  destruct (exceeds (todayRefundedCents (reset_caps st today thisMonth)
                     + amountCents refund) (dailyCapUsd config)) eqn:Hday;
    [discriminate|].
  destruct (exceeds (monthRefundedCents (reset_caps st today thisMonth)
                     + amountCents refund) (monthlyCapUsd config)) eqn:Hmonth;
    [discriminate|].
  intros _. cbn [fst]. unfold before_execution.
  rewrite reset_caps_processed.
  destruct (decide (id refund ∈ processedRefundIds st)); [contradiction|].
  rewrite Hendpoint, Hdisabled, Hmax, reset_caps_again, Hday, Hmonth. reflexivity.
Qed.

(** Whenever a delivery leads to a transfer, a second delivery of the same
    instruction while that transfer is awaited leads to another one. *)
Lemma delivered_in_flight_executes_again (host : Host) (config : ResolvedRefundConfig)
    (s : Session) (refund : PendingRefund) (today thisMonth : string)
    (hash1 hash2 : string) :
  inFlight s = [] ->
  snd (before_execution host config (executor s) refund today thisMonth) = true ->
  immediate config refund = None ->
  let s' :=
    run host config s
      [Deliver refund today thisMonth; Deliver refund today thisMonth;
       Settle (id refund) (Broadcast hash1); Settle (id refund) (Broadcast hash2)] in
  transfers_of (id refund) (trace s')
  = (transfers_of (id refund) (trace s) + 2)%nat.
Proof.
  intros Hnone Hproceed Himmediate. cbn zeta. unfold run. cbn [fold_left].
  pose proof (before_execution_again host config (executor s) refund today thisMonth
                Hproceed) as Hagain.
  pose proof (before_execution_no_transfer host config (executor s) refund today
                thisMonth (id refund)) as Hzero.
  unfold handle at 4.
  destruct (before_execution host config (executor s) refund today thisMonth)
    as [[st1 effects1] proceed].
  cbn [fst snd] in Hproceed, Hagain, Hzero. subst proceed.
  unfold handle at 3. cbn [executor inFlight trace]. rewrite Hagain, Hnone.
  unfold handle at 2. cbn [executor inFlight trace app take_in_flight].
  rewrite String.eqb_refl, Himmediate. cbn [from_option id].
  pose proof (after_execution_broadcast config st1 refund hash1) as Hone1.
  destruct (after_execution config st1 refund (settled refund (Broadcast hash1)))
    as [st3 effects3].
  unfold handle. cbn [executor inFlight trace take_in_flight].
  rewrite String.eqb_refl, Himmediate. cbn [from_option id].
  pose proof (after_execution_broadcast config st3 refund hash2) as Hone2.
  destruct (after_execution config st3 refund (settled refund (Broadcast hash2)))
    as [st4 effects4].
  cbn [fst snd trace] in *.
  rewrite !transfers_of_app, Hzero, Hone1, Hone2. lia.
Qed.

(** The counters are read before the transfer and written after it: two
    instructions of 50 cents delivered to an executor at 4950 cents, the
    second while the first is in flight, both pass the daily cap of 5000. *)
Example cap_passed_in_flight :
  let s :=
    run Examples.host Examples.provider
      {| executor := Examples.near_cap; inFlight := []; trace := [] |}
      [Deliver (Examples.refund_of "refund-a" 50 0.5%float) "2026-03-14" "2026-03";
       Deliver (Examples.refund_of "refund-b" 50 0.5%float) "2026-03-14" "2026-03";
       Settle "refund-a" (Broadcast "0xa");
       Settle "refund-b" (Broadcast "0xb")] in
  todayRefundedCents (executor s) = 5050
  /\ exceeds (todayRefundedCents (executor s)) (dailyCapUsd Examples.provider) = true.
Proof. vm_compute. split; reflexivity. Qed.

(** C2 on the code: the same instruction delivered twice in one connected
    session, the second time while the transfer of the first is awaited.
    Both calls find the set without the identifier, both transfers are
    started and broadcast, two confirmations go out and the counter stands
    at twice the amount. *)
Theorem same_id_twice_in_flight :
  let refund := Examples.refund_of "refund-1" 100 1%float in
  let s :=
    run Examples.host Examples.provider (connected "2026-03-14" "2026-03")
      [Deliver refund "2026-03-14" "2026-03";
       Deliver refund "2026-03-14" "2026-03";
       Settle "refund-1" (Broadcast "0xaaa");
       Settle "refund-1" (Broadcast "0xbbb")] in
  executions_of "refund-1" (trace s) = 2%nat
  /\ transfers_of "refund-1" (trace s) = 2%nat
  /\ List.filter (is_transfer_of "refund-1") (trace s)
     = [Transfer "refund-1" (Some "0xaaa"); Transfer "refund-1" (Some "0xbbb")]
  /\ List.filter (is_confirmation_of "refund-1") (trace s)
     = [Send (refund_confirmed "refund-1" (Some "0xaaa") "base"
                (Some (Integer 1000000)) "USDC" (Some 1));
        Send (refund_confirmed "refund-1" (Some "0xbbb") "base"
                (Some (Integer 1000000)) "USDC" (Some 1))]
  /\ todayRefundedCents (executor s) = 200.
Proof. vm_compute. repeat split. Qed.

(** Delivered the second time after the first transfer has succeeded, the
    instruction is skipped. *)
Example same_id_twice_in_turn :
  let refund := Examples.refund_of "refund-1" 100 1%float in
  let s :=
    run Examples.host Examples.provider (connected "2026-03-14" "2026-03")
      [Deliver refund "2026-03-14" "2026-03";
       Settle "refund-1" (Broadcast "0xaaa");
       Deliver refund "2026-03-14" "2026-03";
       Settle "refund-1" (Broadcast "0xbbb")] in
  executions_of "refund-1" (trace s) = 1%nat
  /\ transfers_of "refund-1" (trace s) = 1%nat
  /\ todayRefundedCents (executor s) = 100.
Proof. vm_compute. repeat split. Qed.

End RefundFacts.

(** ** The client: batching of events *)

Section ClientFacts.
Import Client.

Lemma flush_begin_flight (s : Session) :
  one_flight s ->
  let '(c, _, batch) := flush_begin (client s) in
  one_flight {| client := c; pending := pending s ++ suspended batch;
                delivered := delivered s; queued := queued s |}
  /\ concat (pending s ++ suspended batch) ++ eventQueue c
     = concat (pending s) ++ eventQueue (client s).
Proof.
  intros Hinv. unfold flush_begin. cbn [eventQueue isFlushing flushTimer].
  destruct (length (eventQueue (client s)) =? 0)%nat eqn:Hlen; cbn [orb].
  - apply Nat.eqb_eq in Hlen. apply nil_length_inv in Hlen.
    cbn [suspended]. rewrite app_nil_r. split; [|reflexivity].
    destruct Hinv as [[Hp Hf]|[batch [Hp Hf]]]; [left|right; exists batch];
      cbn; auto.
  - destruct Hinv as [[Hp Hf]|[batch [Hp Hf]]]; rewrite Hf.
    + cbn [suspended]. rewrite Hp. cbn. rewrite !app_nil_r. split; [|reflexivity].
      right. exists (eventQueue (client s)). cbn. auto.
    + cbn [suspended]. rewrite app_nil_r. split; [|reflexivity].
      right. exists batch. cbn. auto.
Qed.

Lemma handle_one_flight (config : BatchingConfig) (s : Session) (e : Event) :
  one_flight s -> one_flight (handle config s e).
Proof.
  intros Hinv. destruct e as [event| | |submitted]; cbn [handle].
  - unfold queueEvent. cbn [eventQueue flushTimer isFlushing].
    destruct (maxBatchSize config <=? _).
    + set (s' := {| client := {| eventQueue := eventQueue (client s) ++ [event];
                                 flushTimer := flushTimer (client s);
                                 isFlushing := isFlushing (client s) |};
                    pending := pending s; delivered := delivered s;
                    queued := queued s ++ [event] |}).
      assert (Hinv' : one_flight s').
      { destruct Hinv as [[Hp Hf]|[batch [Hp Hf]]]; [left|right; exists batch];
          cbn; auto. }
      pose proof (flush_begin_flight s' Hinv') as H.
      change (flush_begin {| eventQueue := eventQueue (client s) ++ [event];
                             flushTimer := flushTimer (client s);
                             isFlushing := isFlushing (client s) |})
        with (flush_begin (client s')).
      destruct (flush_begin (client s')) as [[c eff] batch].
      destruct H as [H _]. exact H.
    + destruct (negb (flushTimer (client s)));
        cbn [suspended]; rewrite app_nil_r;
        (destruct Hinv as [[Hp Hf]|[batch [Hp Hf]]]; [left|right; exists batch];
         cbn; auto).
  - destruct (flushTimer (client s)); [|exact Hinv].
    pose proof (flush_begin_flight s Hinv) as H.
    destruct (flush_begin (client s)) as [[c eff] batch]. apply H.
  - pose proof (flush_begin_flight s Hinv) as H.
    destruct (flush_begin (client s)) as [[c eff] batch]. apply H.
  - destruct Hinv as [[Hp Hf]|[batch [Hp Hf]]]; rewrite Hp.
    + left. auto.
    + left. cbn. auto.
Qed.

Lemma handle_held (config : BatchingConfig) (s : Session) (e : Event) :
  one_flight s ->
  held s `sublist_of` queued s ->
  held (handle config s e) `sublist_of` queued (handle config s e)
  /\ (retry config = true -> held s = queued s ->
      held (handle config s e) = queued (handle config s e)).
Proof.
  intros Hinv Hsub. unfold held in *.
  destruct e as [event| | |submitted]; cbn [handle].
  - unfold queueEvent. cbn [eventQueue flushTimer isFlushing].
    destruct (maxBatchSize config <=? _).
    + set (s' := {| client := {| eventQueue := eventQueue (client s) ++ [event];
                                 flushTimer := flushTimer (client s);
                                 isFlushing := isFlushing (client s) |};
                    pending := pending s; delivered := delivered s;
                    queued := queued s ++ [event] |}).
      assert (Hinv' : one_flight s').
      { destruct Hinv as [[Hp Hf]|[batch [Hp Hf]]]; [left|right; exists batch];
          cbn; auto. }
      pose proof (flush_begin_flight s' Hinv') as H.
      change (flush_begin {| eventQueue := eventQueue (client s) ++ [event];
                             flushTimer := flushTimer (client s);
                             isFlushing := isFlushing (client s) |})
        with (flush_begin (client s')).
      destruct (flush_begin (client s')) as [[c eff] batch].
      destruct H as [_ H]. subst s'.
      cbn [client pending delivered queued eventQueue] in *.
      rewrite H. rewrite !app_assoc. rewrite <- (app_assoc (delivered s)).
      split.
      * apply sublist_app; [exact Hsub | reflexivity].
      * intros _ Heq. rewrite Heq. reflexivity.
    + assert (Hgoal :
        (delivered s ++ concat (pending s ++ suspended None)
           ++ (eventQueue (client s) ++ [event]))
        = (delivered s ++ concat (pending s) ++ eventQueue (client s)) ++ [event]).
      { cbn [suspended]. rewrite app_nil_r, <- !app_assoc. reflexivity. }
      destruct (negb (flushTimer (client s)));
        cbn [client pending delivered queued eventQueue]; rewrite Hgoal;
        (split; [apply sublist_app; [exact Hsub | reflexivity]
                | intros _ Heq; rewrite Heq; reflexivity]).
  - destruct (flushTimer (client s)); [|split; [exact Hsub | auto]].
    pose proof (flush_begin_flight s Hinv) as H.
    destruct (flush_begin (client s)) as [[c eff] batch].
    destruct H as [_ H]. cbn [client pending delivered queued].
    rewrite H. split; [exact Hsub | auto].
  - pose proof (flush_begin_flight s Hinv) as H.
    destruct (flush_begin (client s)) as [[c eff] batch].
    destruct H as [_ H]. cbn [client pending delivered queued].
    rewrite H. split; [exact Hsub | auto].
  - destruct Hinv as [[Hp Hf]|[batch [Hp Hf]]]; rewrite Hp in *.
    + cbn iota. rewrite Hp. split; [exact Hsub | auto].
    + cbn [client pending delivered queued concat app] in *.
      rewrite app_nil_r in Hsub. unfold flush_end. cbn [eventQueue].
      destruct submitted.
      * rewrite <- app_assoc. split; [exact Hsub|].
        intros _ Heq. rewrite app_nil_r in Heq. exact Heq.
      * destruct (retry config).
        -- split; [exact Hsub|]. intros _ Heq. rewrite app_nil_r in Heq. exact Heq.
        -- split; [|discriminate].
           etransitivity; [|exact Hsub].
           apply sublist_app; [reflexivity|]. apply sublist_inserts_l. reflexivity.
Qed.

Lemma run_invariants (config : BatchingConfig) (events : list Event) :
  forall s : Session,
    one_flight s ->
    held s `sublist_of` queued s ->
    one_flight (run config s events)
    /\ held (run config s events) `sublist_of` queued (run config s events)
    /\ (retry config = true -> held s = queued s ->
        held (run config s events) = queued (run config s events)).
Proof.
  induction events as [|e events IH]; intros s Hinv Hsub.
  - cbn. auto.
  - cbn [run fold_left].
    pose proof (handle_one_flight config s e Hinv) as Hinv'.
    pose proof (handle_held config s e Hinv Hsub) as [Hsub' Heq'].
    destruct (IH _ Hinv' Hsub') as (H1 & H2 & H3).
    split; [exact H1|]. split; [exact H2|].
    intros Hretry Heq. apply H3; [exact Hretry|]. apply Heq'; assumption.
Qed.

Lemma run_queued (config : BatchingConfig) (events : list Event) :
  forall s : Session,
    queued (run config s events) = queued s ++ queued_by events.
Proof.
  induction events as [|e events IH]; intros s.
  - cbn. rewrite app_nil_r. reflexivity.
  - cbn [run fold_left]. fold (run config (handle config s e) events).
    rewrite IH. destruct e as [event| | |submitted]; cbn [handle queued_by omap].
    + destruct (queueEvent config (client s) event) as [[c eff] batch].
      cbn [queued]. rewrite <- app_assoc. reflexivity.
    + destruct (flushTimer (client s)); [|reflexivity].
      destruct (flush_begin (client s)) as [[c eff] batch]. reflexivity.
    + destruct (flush_begin (client s)) as [[c eff] batch]. reflexivity.
    + destruct (pending s); reflexivity.
Qed.

(** X1: Whatever the order in which events are queued, the timer fires, [flush]
    is called and submissions end: at most one batch is being submitted at
    any time, and [isFlushing] is set exactly while one is. *)
Theorem flush_one_batch_at_a_time (config : BatchingConfig) (events : list Event) :
  let s := run config start events in
  (length (pending s) <= 1)%nat
  /\ (isFlushing (client s) = true <-> pending s <> []).
Proof.
  intros s.
  assert (Hinv : one_flight s).
  { apply run_invariants; [left; auto | reflexivity]. }
  destruct Hinv as [[Hp Hf]|[batch [Hp Hf]]]; rewrite Hp, Hf; cbn.
  - split; [lia|]. split; [discriminate | congruence].
  - split; [lia|]. split; [discriminate | reflexivity].
Qed.

(** X2: No event is duplicated or reordered: the accepted events, then the
    batch being submitted, then the queue, are the queued events in their
    order with some left out; and with [retry] on none is left out, however
    many submissions fail. *)
Theorem events_kept_in_order (config : BatchingConfig) (events : list Event) :
  let s := run config start events in
  (delivered s ++ concat (pending s) ++ eventQueue (client s))
    `sublist_of` queued_by events
  /\ (retry config = true ->
      delivered s ++ concat (pending s) ++ eventQueue (client s) = queued_by events).
Proof.
  intros s.
  pose proof (run_invariants config events start) as H.
  destruct H as (_ & Hsub & Heq); [left; auto | reflexivity |].
  pose proof (run_queued config events start) as Hq. cbn in Hq.
  fold s in Hsub, Heq, Hq. unfold held in *. rewrite Hq in *.
  split; [exact Hsub|]. intros Hretry. apply Heq; [exact Hretry | reflexivity].
Qed.

End ClientFacts.

Section SubmitFacts.
Import Client.





(** With the default batching (three retries), a service that refuses every
    request is asked four times, after waits of 1, 2 and 4 seconds, and the
    call throws the last error. *)
Example submitBatch_gives_up :
  submitBatch DEFAULT_BATCHING (fun n => Refused ("refused " +:+ pretty n)) []
  = Some (Thrown "refused 3",
          [Fetch []; Wait 1000; Fetch []; Wait 2000; Fetch []; Wait 4000; Fetch []]).
Proof. vm_compute. reflexivity. Qed.

End SubmitFacts.

(** ** Order of doubles *)

Ltac compare_cases :=
  change (PosDef.Pos.compare_cont Eq) with Pos.compare in *;
  repeat match goal with
         | H : context [(?x ?= ?y)%Z] |- _ =>
             destruct (Z.compare_spec x y); cbn [CompOpp] in *; try discriminate
         | H : context [(?x ?= ?y)%positive] |- _ =>
             destruct (Pos.compare_spec x y); cbn [CompOpp] in *; try discriminate
         | |- context [(?x ?= ?y)%Z] =>
             destruct (Z.compare_spec x y); cbn [CompOpp] in *; try discriminate
         | |- context [(?x ?= ?y)%positive] =>
             destruct (Pos.compare_spec x y); cbn [CompOpp] in *; try discriminate
         end;
  try reflexivity; try lia.

Section FloatOrder.

Lemma SFltb_leb_trans (a b c : spec_float) :
  SFleb a b = true -> SFleb b c = true -> SFltb c a = false.
Proof.
  unfold SFleb, SFltb, SFcompare.
  destruct a as [sa|sa| |sa ma ea], b as [sb|sb| |sb mb eb], c as [sc|sc| |sc mc ec];
    try destruct sa; try destruct sb; try destruct sc;
    try discriminate; try reflexivity; intros H1 H2; compare_cases.
Qed.

(** [a <= b] and [b <= c] leave no room for [c < a]. *)
Lemma ltb_leb_trans (a b c : float) :
  PrimFloat.leb a b = true -> PrimFloat.leb b c = true -> PrimFloat.ltb c a = false.
Proof.
  rewrite !FloatAxioms.leb_spec, FloatAxioms.ltb_spec. apply SFltb_leb_trans.
Qed.

Lemma SFeqb_common (a b c : spec_float) :
  SFeqb a b = true -> SFeqb a c = true -> SFeqb b c = true.
Proof.
  unfold SFeqb, SFcompare.
  destruct a as [sa|sa| |sa ma ea], b as [sb|sb| |sb mb eb], c as [sc|sc| |sc mc ec];
    try destruct sa; try destruct sb; try destruct sc;
    try discriminate; try reflexivity; intros H1 H2; compare_cases.
Qed.

(** A number that is [=== 1] is not [=== 2]. *)
Lemma eqb_1_not_2 (f : float) :
  PrimFloat.eqb f 1%float = true -> PrimFloat.eqb f 2%float = false.
Proof.
  intros H1. destruct (PrimFloat.eqb f 2%float) eqn:H2; [|reflexivity].
  rewrite FloatAxioms.eqb_spec in H1, H2.
  pose proof (SFeqb_common _ _ _ H1 H2) as H.
  vm_compute in H. discriminate.
Qed.

End FloatOrder.

(** ** The caps as an invariant of sequential processing *)

Section CapFacts.
Import Refund.



(** *** The product of a positive double and 100 is not below zero *)
















Example three_instructions_counters :
  let st := process_all Examples.host Examples.provider Examples.near_cap
              Examples.three_instructions in
  todayRefundedCents st = 100 /\ monthRefundedCents st = 5100.
Proof. vm_compute. split; reflexivity. Qed.


End CapFacts.

(** ** The schema validator *)

Section SchemaFacts.
Import Validator Schema.

Lemma filter_none_iff {A} (f : A -> bool) (l : list A) :
  (0 <? length (List.filter f l))%nat = false <-> forall x, In x l -> f x = false.
Proof.
  induction l as [|a l IH]; cbn [List.filter].
  - split; [intros _ x []| reflexivity].
  - destruct (f a) eqn:Hfa; cbn [length].
    + split; [discriminate|]. intros H. specialize (H a (or_introl eq_refl)). congruence.
    + rewrite IH. split.
      * intros H x [<-|Hx]; auto.
      * intros H x Hx. apply H. right. exact Hx.
Qed.

Lemma validateSchema_valid_has (body : Js.value) (schema : Schema) :
  valid (validateSchema body schema) = true
  <-> (forall expected, type schema = Some expected -> expected <> "" ->
       expected = actual_type body)
      /\ (forall names prop, required schema = Some names -> is_object body = true ->
          In prop names -> has_property body prop = true).
Proof.
  unfold validateSchema.
  destruct (type schema) as [expected|] eqn:Htype; cbn [from_option id].
  - destruct (String.eqb expected "") eqn:Hempty; cbn [negb andb].
    + apply String.eqb_eq in Hempty. subst expected.
      destruct (required schema) as [names|] eqn:Hreq.
      * destruct (is_object body) eqn:Hobj.
        -- destruct (0 <? length (List.filter _ names))%nat eqn:Hmissing; cbn [valid].
           ++ split; [discriminate|]. intros [_ H].
              assert (Hnone : (0 <? length (List.filter
                         (fun prop => negb (has_property body prop)) names))%nat = false).
              { apply filter_none_iff. intros x Hx.
                rewrite (H names x eq_refl eq_refl Hx). reflexivity. }
              congruence.
           ++ split; [|reflexivity]. intros _. split.
              ** intros e He Hne. injection He as <-. contradiction.
              ** intros names' prop Hn _ Hin. injection Hn as <-.
                 rewrite filter_none_iff in Hmissing.
                 specialize (Hmissing prop Hin). apply negb_false_iff in Hmissing.
                 exact Hmissing.
        -- cbn [valid]. split; [|reflexivity]. intros _. split.
           ++ intros e He Hne. injection He as <-. contradiction.
           ++ intros names' prop _ Hobj'. congruence.
      * cbn [valid]. split; [|reflexivity]. intros _. split.
        -- intros e He Hne. injection He as <-. contradiction.
        -- intros names' prop Hn. discriminate.
    + destruct (String.eqb expected (actual_type body)) eqn:Hactual; cbn [negb].
      * apply String.eqb_eq in Hactual.
        destruct (required schema) as [names|] eqn:Hreq.
        -- destruct (is_object body) eqn:Hobj.
           ++ destruct (0 <? length (List.filter _ names))%nat eqn:Hmissing; cbn [valid].
              ** split; [discriminate|]. intros [_ H].
                 assert (Hnone : (0 <? length (List.filter
                            (fun prop => negb (has_property body prop)) names))%nat
                                 = false).
                 { apply filter_none_iff. intros x Hx.
                   rewrite (H names x eq_refl eq_refl Hx). reflexivity. }
                 congruence.
              ** split; [|reflexivity]. intros _. split.
                 --- intros e He _. injection He as <-. exact Hactual.
                 --- intros names' prop Hn _ Hin. injection Hn as <-.
                     rewrite filter_none_iff in Hmissing.
                     specialize (Hmissing prop Hin). apply negb_false_iff in Hmissing.
                     exact Hmissing.
           ++ cbn [valid]. split; [|reflexivity]. intros _. split.
              ** intros e He _. injection He as <-. exact Hactual.
              ** intros names' prop _ Hobj'. congruence.
        -- cbn [valid]. split; [|reflexivity]. intros _. split.
           ++ intros e He _. injection He as <-. exact Hactual.
           ++ intros names' prop Hn. discriminate.
      * cbn [valid]. split; [discriminate|]. intros [H _].
        apply String.eqb_neq in Hempty, Hactual.
        specialize (H expected eq_refl Hempty). contradiction.
  - change (String.eqb "" "") with true. cbn [negb andb].
    destruct (required schema) as [names|] eqn:Hreq.
    + destruct (is_object body) eqn:Hobj.
      * destruct (0 <? length (List.filter _ names))%nat eqn:Hmissing; cbn [valid].
        -- split; [discriminate|]. intros [_ H].
           assert (Hnone : (0 <? length (List.filter
                      (fun prop => negb (has_property body prop)) names))%nat = false).
           { apply filter_none_iff. intros x Hx.
             rewrite (H names x eq_refl eq_refl Hx). reflexivity. }
           congruence.
        -- split; [|reflexivity]. intros _. split; [discriminate|].
           intros names' prop Hn _ Hin. injection Hn as <-.
           rewrite filter_none_iff in Hmissing.
           specialize (Hmissing prop Hin). apply negb_false_iff in Hmissing.
           exact Hmissing.
      * cbn [valid]. split; [|reflexivity]. intros _. split; [discriminate|].
        intros names' prop _ Hobj'. congruence.
    + cbn [valid]. split; [|reflexivity]. intros _. split; discriminate.
Qed.

(** [prop in obj]: an own property, or a member of the prototype chain. *)
Lemma has_property_iff (obj : Js.value) (prop : string) :
  has_property obj prop = true
  <-> is_Some (Js.own_property obj prop) \/ Js.inherits obj prop = true.
Proof.
  unfold has_property, Js.has.
  destruct (Js.own_property obj prop) as [v|]; split.
  - intros _. left. eexists. reflexivity.
  - reflexivity.
  - intros H. right. exact H.
  - intros [[v Hv]|H]; [discriminate | exact H].
Qed.

(** X4: [validateSchema] accepts a body exactly when its type is the expected
    one, if the schema names one, and, if the schema lists required
    properties and the body is an object or an array, every one of them is
    a property of the body, its own or one it inherits from its prototype
    (such as [toString]).  The required properties of a body that is not an
    object are not looked at, and [null] counts as of type [object]. *)
Theorem validateSchema_valid_iff (body : Js.value) (schema : Schema) :
  valid (validateSchema body schema) = true
  <-> (forall expected, type schema = Some expected -> expected <> "" ->
       expected = actual_type body)
      /\ (forall names prop, required schema = Some names -> is_object body = true ->
          In prop names ->
          is_Some (Js.own_property body prop) \/ Js.inherits body prop = true).
Proof.
  rewrite validateSchema_valid_has. split; intros [Htype Hrequired]; (split; [exact Htype|]);
    intros names prop Hnames Hobject Hin;
    apply has_property_iff; exact (Hrequired names prop Hnames Hobject Hin).
Qed.

Lemma zero_is_not_one : 0%float <> 1%float.
Proof. intros H. apply (f_equal PrimFloat.is_zero) in H. vm_compute in H. discriminate. Qed.

Lemma three_tenths_is_not_one : 0.3%float <> 1%float.
Proof.
  intros H. apply (f_equal (fun x => PrimFloat.ltb x 0.5%float)) in H.
  vm_compute in H. discriminate.
Qed.

(** X5: The parts of a result of [validateSchema] agree: a body is accepted
    with score 1.0, no reason and nothing but passed checks; and refused
    with score 0 (wrong type) or 0.3 (a required property is missing), a
    reason, and a failed check as the last one of the list. *)
Theorem validateSchema_consistent (body : Js.value) (schema : Schema) :
  let result := validateSchema body schema in
  (valid result = true
   /\ meaningfulnessScore result = 1%float
   /\ reason result = None
   /\ forallb passed (checks result) = true)
  \/ (valid result = false
      /\ (meaningfulnessScore result = 0%float \/ meaningfulnessScore result = 0.3%float)
      /\ meaningfulnessScore result <> 1%float
      /\ (exists text, reason result = Some text)
      /\ exists check, last (checks result) = Some check /\ passed check = false).
Proof.
  unfold validateSchema.
  destruct (negb (String.eqb (default "" (type schema)) "")
            && negb (String.eqb (default "" (type schema)) (actual_type body))).
  - right. cbn. split; [reflexivity|]. split; [left; reflexivity|].
    split; [exact zero_is_not_one|]. split; eauto.
  - destruct (required schema) as [names|].
    + destruct (is_object body).
      * destruct (0 <? length (List.filter _ names))%nat.
        -- right. cbn. split; [reflexivity|]. split; [right; reflexivity|].
           split; [exact three_tenths_is_not_one|]. split; eauto.
        -- left. cbn. auto.
      * left. cbn. auto.
    + left. cbn. auto.
Qed.

Lemma validateSchema_failed_check (body : Js.value) (schema : Schema) :
  valid (validateSchema body schema) = false ->
  exists check,
    In check (checks (validateSchema body schema)) /\ passed check = false.
Proof.
  unfold validateSchema.
  destruct (negb (String.eqb (default "" (type schema)) "")
            && negb (String.eqb (default "" (type schema)) (actual_type body))).
  - intros _. eexists. split; [left; reflexivity | reflexivity].
  - destruct (required schema) as [names|]; [|discriminate].
    destruct (is_object body); [|discriminate].
    destruct (0 <? length (List.filter _ names))%nat; [|discriminate].
    intros _. eexists. split; [right; left; reflexivity | reflexivity].
Qed.

(** [in] finds the members an object inherits: [{a: 1}] has [toString],
    and has no [b]; an array has [map] and [length]. *)
Example inherited_member_is_present :
  valid (validateSchema Samples.a_body Samples.inherited_schema) = true
  /\ valid (validateSchema Samples.a_body
              {| type := None; required := Some ["a"; "b"] |}) = false
  /\ valid (validateSchema (Js.Arr [])
              {| type := Some "array"; required := Some ["map"; "length"] |}) = true
  /\ valid (validateSchema (Js.Arr [])
              {| type := Some "array"; required := Some ["0"] |}) = false.
Proof. vm_compute. repeat split. Qed.

End SchemaFacts.

(** ** Strings that count as empty *)

Section EmptyFacts.
Import Validator.

Lemma trim_start_length (s : string) :
  (String.length (trim_start s) <= String.length s)%nat.
Proof.
  induction s as [|c s IH]; [reflexivity|].
  cbn [trim_start]. destruct (is_white_space c); cbn [String.length]; lia.
Qed.

Lemma trim_end_length (s : string) :
  (String.length (trim_end s) <= String.length s)%nat.
Proof.
  induction s as [|c s IH]; [reflexivity|].
  cbn [trim_end]. destruct (trim_end s) as [|c' kept].
  - destruct (is_white_space c); cbn [String.length]; lia.
  - cbn [String.length] in *. lia.
Qed.

Lemma trim_start_blank (s : string) :
  forallb is_white_space (list_ascii_of_string s) = true -> trim_start s = "".
Proof.
  induction s as [|c s IH]; [reflexivity|].
  cbn [list_ascii_of_string forallb trim_start]. intros H.
  apply andb_prop in H as [Hc Hs]. rewrite Hc. exact (IH Hs).
Qed.

(** X24: The minimum size is a lower bound on the length of a string body: a
    string shorter than [minSize] is empty, and so is, for a minimum size
    of at least 1, a string of white space only, however long; a string
    that is not empty has at least [minSize] characters. *)
Theorem short_or_blank_string_is_empty (s : string) (minSize : Z) :
  Z.of_nat (String.length s) < minSize
  \/ (0 < minSize /\ forallb is_white_space (list_ascii_of_string s) = true) ->
  isEmptyResponse (Js.Str s) minSize = true.
Proof.
  intros H. cbn [isEmptyResponse].
  destruct (String.eqb s ""); [reflexivity|]. apply Z.ltb_lt.
  destruct H as [Hshort|[Hpositive Hblank]].
  - pose proof (trim_end_length (trim_start s)). pose proof (trim_start_length s).
    unfold trim. lia.
  - unfold trim. rewrite (trim_start_blank s Hblank). exact Hpositive.
Qed.

End EmptyFacts.

(** ** The validator and the refund decision *)

Section VerdictFacts.
Import Validator Schema Handler.

Lemma score_unfolded (body : Js.value) (statusCode : Z) (config : ValidationConfig) :
  meaningfulnessScore (validateResponse body statusCode config)
  = score_by_category body statusCode config.
Proof.
  unfold validateResponse, score_by_category, custom_reports_invalid,
    record, custom_check, minus_if.
  cbn [passed status_check empty_check error_check required_check collections_check
       fst snd negb].
  destruct ((200 <=? statusCode) && (statusCode <? 300));
    destruct (isEmptyResponse body (default 2 (minResponseSize config)));
    destruct (hasErrorIndicators body (errorFields config));
    cbn [negb];
    (destruct (required_configured config) as [names|];
     [destruct (length (missing_fields body names) =? 0)%nat|]);
    cbn [negb];
    [> destruct (collections_configured config body);
       [destruct (checkEmptyCollections body)|] ..];
    cbn [negb andb];
    [> destruct (customValidator config) as [validator|];
       [destruct (validator body statusCode) as [customResult|errorMessage];
        [destruct (valid customResult)|]|] ..];
    reflexivity.
Qed.

(** The list of checks: the three that always run, the two that run when
    configured, and what the custom validator adds. *)
Lemma checks_unfolded (body : Js.value) (statusCode : Z) (config : ValidationConfig) :
  checks (validateResponse body statusCode config)
  = [status_check statusCode;
     empty_check (isEmptyResponse body (default 2 (minResponseSize config)));
     error_check (hasErrorIndicators body (errorFields config))]
    ++ match required_configured config with
       | Some names => [required_check (missing_fields body names)]
       | None => []
       end
    ++ (if collections_configured config body
        then [collections_check (checkEmptyCollections body)]
        else [])
    ++ match customValidator config with
       | Some validator =>
           match validator body statusCode with
           | Returned customResult => checks customResult
           | Raised errorMessage =>
               [{| name := "custom_validator"; passed := false;
                   message := Some ("Custom validator error: " +:+ errorMessage) |}]
           end
       | None => []
       end.
Proof.
  unfold validateResponse, record, custom_check. cbn [fst snd].
  destruct (required_configured config) as [names|];
    destruct (collections_configured config body);
    (destruct (customValidator config) as [validator|];
     [destruct (validator body statusCode) as [customResult|errorMessage]|]);
    cbn [fst snd checks app]; rewrite ?app_nil_r; reflexivity.
Qed.

Lemma reason_unfolded (body : Js.value) (statusCode : Z) (config : ValidationConfig) :
  let result := validateResponse body statusCode config in
  reason result
  = if valid result then None
    else Some (join "; "
                 (map (fun c => default "" (message c))
                    (List.filter (fun c => negb (passed c)) (checks result)))).
Proof.
  unfold validateResponse.
  match goal with
  | |- context [let '(checks, score) := ?state in _] => destruct state
  end.
  reflexivity.
Qed.

(** X6: A result that is not valid says why: one of its checks has failed, so
    the reason, which joins the messages of the failed checks, has at least
    one of them; and a valid result carries no reason. *)
Theorem invalid_result_has_failed_check (body : Js.value) (statusCode : Z)
    (config : ValidationConfig) :
  let result := validateResponse body statusCode config in
  (valid result = false ->
   (exists check, In check (checks result) /\ passed check = false)
   /\ exists first others,
       List.filter (fun c => negb (passed c)) (checks result) = first :: others
       /\ reason result
          = Some (join "; " (map (fun c => default "" (message c)) (first :: others))))
  /\ (valid result = true -> reason result = None).
Proof.
  intros result.
  assert (Hfailed : valid result = false ->
            exists check, In check (checks result) /\ passed check = false).
  { subst result. rewrite valid_unfolded, score_unfolded, checks_unfolded.
    unfold score_by_category, minus_if, custom_reports_invalid.
    destruct ((200 <=? statusCode) && (statusCode <? 300)) eqn:Hstatus.
    2:{ intros _. exists (status_check statusCode). split; [left; reflexivity|].
        unfold status_check. cbn [passed]. exact Hstatus. }
    destruct (isEmptyResponse body (default 2 (minResponseSize config))) eqn:Hempty.
    { intros _. exists (empty_check true). split; [right; left; reflexivity|].
      reflexivity. }
    destruct (hasErrorIndicators body (errorFields config)) eqn:Herrors.
    { intros _. exists (error_check true).
      split; [right; right; left; reflexivity | reflexivity]. }
    destruct (required_configured config) as [names|].
    - destruct (length (missing_fields body names) =? 0)%nat eqn:Hmissing.
      + destruct (collections_configured config body).
        * destruct (checkEmptyCollections body) eqn:Hcoll.
          -- intros _. exists (collections_check true). split; [|reflexivity].
             do 4 right. left. reflexivity.
          -- cbn [negb andb].
             destruct (customValidator config) as [validator|];
               [destruct (validator body statusCode) as [customResult|errorMessage];
                [destruct (valid customResult)|]|];
               vm_compute; discriminate.
        * cbn [negb andb].
          destruct (customValidator config) as [validator|];
            [destruct (validator body statusCode) as [customResult|errorMessage];
             [destruct (valid customResult)|]|];
            vm_compute; discriminate.
      + intros _. exists (required_check (missing_fields body names)).
        split; [do 3 right; left; reflexivity|].
        unfold required_check. cbn [passed]. exact Hmissing.
    - destruct (collections_configured config body).
      + destruct (checkEmptyCollections body) eqn:Hcoll.
        * intros _. exists (collections_check true). split; [|reflexivity].
          do 3 right. left. reflexivity.
        * cbn [negb andb].
          destruct (customValidator config) as [validator|];
            [destruct (validator body statusCode) as [customResult|errorMessage];
             [destruct (valid customResult)|]|];
            vm_compute; discriminate.
      + cbn [negb andb].
        destruct (customValidator config) as [validator|];
          [destruct (validator body statusCode) as [customResult|errorMessage];
           [destruct (valid customResult)|]|];
          vm_compute; discriminate. }
  pose proof (reason_unfolded body statusCode config) as Hreason.
  cbv zeta in Hreason. fold result in Hreason.
  split.
  - intros Hinvalid. split; [exact (Hfailed Hinvalid)|].
    destruct (Hfailed Hinvalid) as [check [Hin Hpassed]].
    assert (Hmem : In check (List.filter (fun c => negb (passed c)) (checks result))).
    { apply List.filter_In. split; [exact Hin|]. rewrite Hpassed. reflexivity. }
    destruct (List.filter (fun c => negb (passed c)) (checks result))
      as [|first others] eqn:Hfilter; [destruct Hmem|].
    exists first, others. split; [reflexivity|].
    rewrite Hreason, Hinvalid. reflexivity.
  - intros Hvalid. rewrite Hreason, Hvalid. reflexivity.
Qed.

(** X7: A schema given to [validateResponse] through [createSchemaValidator]
    does not decide alone.  A 2xx response with a body that is not empty,
    no error indicator, every required field and no empty collection is
    valid also when it fails the schema: the score is 0.7, there is no
    reason, and the failed check of the schema is in the list. *)
Theorem schema_failure_alone_is_valid (body : Js.value) (statusCode : Z)
    (config : ValidationConfig) (schema : Schema) :
  customValidator config = Some (createSchemaValidator schema) ->
  200 <= statusCode < 300 ->
  isEmptyResponse body (default 2 (minResponseSize config)) = false ->
  hasErrorIndicators body (errorFields config) = false ->
  (forall names, required_configured config = Some names ->
                 missing_fields body names = []) ->
  collections_configured config body && checkEmptyCollections body = false ->
  valid (validateSchema body schema) = false ->
  let result := validateResponse body statusCode config in
  valid result = true
  /\ meaningfulnessScore result = 0.7%float
  /\ reason result = None
  /\ exists check, In check (checks result) /\ passed check = false.
Proof.
  intros Hcustom Hstatus Hempty Herrors Hrequired Hcoll Hschema result.
  assert (Hs : (200 <=? statusCode) && (statusCode <? 300) = true).
  { apply andb_true_intro. split; [apply Z.leb_le | apply Z.ltb_lt]; lia. }
  assert (Hscore : meaningfulnessScore result = 0.7%float).
  { unfold result. rewrite score_unfolded.
    unfold score_by_category, custom_reports_invalid, createSchemaValidator.
    rewrite Hs, Hempty, Herrors, Hcoll, Hcustom.
    unfold createSchemaValidator. rewrite Hschema.
    destruct (required_configured config) as [names|].
    - rewrite (Hrequired names eq_refl). vm_compute. reflexivity.
    - vm_compute. reflexivity. }
  assert (Hvalid : valid result = true).
  { unfold result. rewrite valid_unfolded. fold result. rewrite Hscore, Hs, Hempty.
    vm_compute. reflexivity. }
  split; [exact Hvalid|]. split; [exact Hscore|]. split.
  - pose proof (reason_unfolded body statusCode config) as Hreason.
    cbv zeta in Hreason. fold result in Hreason. rewrite Hreason, Hvalid. reflexivity.
  - destruct (validateSchema_failed_check body schema Hschema)
      as (check & Hin & Hpassed).
    exists check. split; [|exact Hpassed].
    unfold result. rewrite checks_unfolded, Hcustom. unfold createSchemaValidator.
    apply in_or_app. right. apply in_or_app. right. apply in_or_app. right.
    exact Hin.
Qed.

(** X8: What [shouldRefund] answers is backed by the configuration: a reason is
    given only with refunds enabled and the trigger of that reason switched
    on, and then the condition of the trigger holds; [timeout] and [custom]
    are never given. *)
Theorem shouldRefund_sound (config : RefundConfig) (result : ValidationResult)
    (statusCode : Z) (why : RefundReason) :
  shouldRefund config result statusCode = Some why ->
  enabled config = true
  /\ exists switches,
      triggers config = Some switches
      /\ match why with
         | server_error => serverError switches = true /\ 500 <= statusCode
         | empty_response =>
             emptyResponse switches = true
             /\ exists check, In check (checks result)
                              /\ name check = "not_empty" /\ passed check = false
         | schema_validation_failed =>
             schemaValidation switches = true /\ valid result = false
         | invalid_response =>
             exists minimum,
               minMeaningfulness switches = Some minimum
               /\ PrimFloat.ltb (meaningfulnessScore result) minimum = true
         | timeout | custom => False
         end.
Proof.
  unfold shouldRefund.
  destruct (enabled config); cbn [negb]; [|discriminate].
  destruct (triggers config) as [switches|]; [|discriminate].
  intros H. split; [reflexivity|]. exists switches. split; [reflexivity|].
  destruct (serverError switches && (500 <=? statusCode)) eqn:Hserver.
  { injection H as <-. apply andb_prop in Hserver as [H1 H2].
    apply Z.leb_le in H2. auto. }
  destruct (emptyResponse switches && existsb failed_not_empty (checks result))
    eqn:Hempty.
  { injection H as <-. apply andb_prop in Hempty as [H1 H2].
    split; [exact H1|]. apply existsb_exists in H2 as [check [Hin Hcheck]].
    unfold failed_not_empty in Hcheck. apply andb_prop in Hcheck as [Hname Hpassed].
    apply String.eqb_eq in Hname. apply negb_true_iff in Hpassed. eauto. }
  destruct (schemaValidation switches && negb (valid result)) eqn:Hschema.
  { injection H as <-. apply andb_prop in Hschema as [H1 H2].
    apply negb_true_iff in H2. auto. }
  destruct (minMeaningfulness switches) as [minimum|]; [|discriminate].
  destruct (PrimFloat.ltb (meaningfulnessScore result) minimum) eqn:Hmin;
    [|discriminate].
  injection H as <-. eauto.
Qed.

(** X9: A response that [validateResponse] finds valid is not refunded: with a
    minimum score of at most 0.5 (0.3 by default), and a custom validator
    that adds no failed [not_empty] check of its own, [shouldRefund] gives
    no reason, whatever triggers are switched on. *)
Theorem valid_response_is_not_refunded (handler : RefundConfig) (body : Js.value)
    (statusCode : Z) (config : ValidationConfig) :
  valid (validateResponse body statusCode config) = true ->
  (forall switches minimum,
      triggers handler = Some switches -> minMeaningfulness switches = Some minimum ->
      PrimFloat.leb minimum 0.5%float = true) ->
  (forall validator customResult,
      customValidator config = Some validator ->
      validator body statusCode = Returned customResult ->
      existsb failed_not_empty (checks customResult) = false) ->
  shouldRefund handler (validateResponse body statusCode config) statusCode = None.
Proof.
  intros Hvalid Hminimum Hcustom.
  pose proof Hvalid as Hgates. rewrite valid_unfolded in Hgates.
  apply andb_prop in Hgates as [Hgates Hempty].
  apply andb_prop in Hgates as [Hscore Hstatus].
  apply andb_prop in Hstatus as [_ Hhigh]. apply Z.ltb_lt in Hhigh.
  apply negb_true_iff in Hempty.
  unfold shouldRefund.
  destruct (enabled handler); cbn [negb]; [|reflexivity].
  destruct (triggers handler) as [switches|] eqn:Hswitches; [|reflexivity].
  replace (500 <=? statusCode) with false by (symmetry; apply Z.leb_gt; lia).
  rewrite andb_false_r.
  assert (Hnone : existsb failed_not_empty
                    (checks (validateResponse body statusCode config)) = false).
  { rewrite checks_unfolded, Hempty, !existsb_app.
    assert (Hthree : existsb failed_not_empty
              [status_check statusCode; empty_check false;
               error_check (hasErrorIndicators body (errorFields config))] = false)
      by reflexivity.
    rewrite Hthree. cbn [orb].
    assert (Hfour : existsb failed_not_empty
              match required_configured config with
              | Some names => [required_check (missing_fields body names)]
              | None => []
              end = false)
      by (destruct (required_configured config); reflexivity).
    rewrite Hfour. cbn [orb].
    assert (Hfive : existsb failed_not_empty
              (if collections_configured config body
               then [collections_check (checkEmptyCollections body)]
               else []) = false)
      by (destruct (collections_configured config body); reflexivity).
    rewrite Hfive. cbn [orb].
    destruct (customValidator config) as [validator|] eqn:Hvalidator; [|reflexivity].
    destruct (validator body statusCode) as [customResult|errorMessage] eqn:Hcall.
    - exact (Hcustom validator customResult eq_refl Hcall).
    - reflexivity. }
  rewrite Hnone, andb_false_r, Hvalid. cbn [negb]. rewrite andb_false_r.
  destruct (minMeaningfulness switches) as [minimum|] eqn:Hmin; [|reflexivity].
  rewrite (ltb_leb_trans minimum 0.5%float _
             (Hminimum switches minimum eq_refl Hmin) Hscore).
  reflexivity.
Qed.

End VerdictFacts.

(** ** The x402 response helpers *)

Section X402Facts.
Import X402.

Lemma is_array_inv (v : Js.value) :
  is_array v = true -> exists items, v = Js.Arr items.
Proof. destruct v; try discriminate. eauto. Qed.

Lemma is_number_1_not_2 (v : Js.value) :
  is_number v 1%float = true -> is_number v 2%float = false.
Proof. destruct v; try reflexivity. apply eqb_1_not_2. Qed.

(** X10: Whatever [parseX402Response] accepts can be handed to
    [getPaymentRequirements]: the version of the response it returns is 1
    or 2 and the requirements read from it are an array, also for the two
    shapes it rebuilds (no version field, a single requirement); and a
    response it returns as version 2 is one [detectX402Version] calls
    version 2. *)
Theorem parsed_requirements_are_an_array (body response : Js.value) :
  parseX402Response body = Some response ->
  (exists items, getPaymentRequirements response = Js.Arr items)
  /\ (is_number (Js.get_opt response "x402Version") 1%float = true
      \/ is_number (Js.get_opt response "x402Version") 2%float = true)
  /\ (is_number (Js.get_opt response "x402Version") 2%float = true ->
      detectX402Version body = Some 2).
Proof.
  unfold parseX402Response, detectX402Version, getPaymentRequirements.
  destruct (negb (Js.truthy body) || negb (Js.typeof_object body)); [discriminate|].
  destruct (is_number (Js.get_opt body "x402Version") 2%float
            && is_array (Js.get_opt body "paymentRequirements")) eqn:Hv2.
  { intros H. injection H as <-. apply andb_prop in Hv2 as [Hversion Harray].
    rewrite Hversion. split; [exact (is_array_inv _ Harray)|]. auto. }
  destruct (is_number (Js.get_opt body "x402Version") 1%float
            && is_array (Js.get_opt body "accepts")) eqn:Hv1.
  { intros H. injection H as <-. apply andb_prop in Hv1 as [Hversion Harray].
    rewrite (is_number_1_not_2 _ Hversion).
    split; [exact (is_array_inv _ Harray)|]. split; [left; exact Hversion|].
    discriminate. }
  destruct (is_array (Js.get_opt body "accepts")) eqn:Haccepts.
  { intros H. injection H as <-.
    change (Js.get_opt
              (Js.Obj [("x402Version", Js.Num 1%float);
                       ("accepts", Js.get_opt body "accepts");
                       ("resource", Js.get_opt body "resource")]) "x402Version")
      with (Js.Num 1%float).
    change (is_number (Js.Num 1%float) 2%float) with false.
    change (is_number (Js.Num 1%float) 1%float) with true.
    cbv iota.
    change (Js.get_opt
              (Js.Obj [("x402Version", Js.Num 1%float);
                       ("accepts", Js.get_opt body "accepts");
                       ("resource", Js.get_opt body "resource")]) "accepts")
      with (Js.get_opt body "accepts").
    split; [exact (is_array_inv _ Haccepts)|]. split; [left; reflexivity|].
    discriminate. }
  destruct (is_string (Js.get_opt body "scheme") && is_string (Js.get_opt body "network")
            && is_string (Js.get_opt body "payTo")); [|discriminate].
  intros H. injection H as <-.
  change (Js.get_opt
            (Js.Obj [("x402Version", Js.Num 1%float); ("accepts", Js.Arr [body])])
            "x402Version")
    with (Js.Num 1%float).
  change (is_number (Js.Num 1%float) 2%float) with false.
  change (is_number (Js.Num 1%float) 1%float) with true.
  cbv iota.
  split; [exists [body]; reflexivity|]. split; [left; reflexivity | discriminate].
Qed.

End X402Facts.

(** ** Redaction *)

Section RedactionFacts.
Import Telemetry.

(** Induction on a value, with the hypothesis for every item of an array
    and every property value of an object. *)
Lemma value_ind_nested (P : Js.value -> Prop) :
  P Js.Undefined -> P Js.Null -> (forall b, P (Js.Bool b)) -> (forall f, P (Js.Num f)) ->
  (forall s, P (Js.Str s)) ->
  (forall items, Forall P items -> P (Js.Arr items)) ->
  (forall props, Forall (fun entry => P (snd entry)) props -> P (Js.Obj props)) ->
  forall v, P v.
Proof.
  intros Hundefined Hnull Hbool Hnum Hstr Harr Hobj.
  fix IH 1.
  intros [ | |b|f|s|items|props];
    [exact Hundefined | exact Hnull | apply Hbool | apply Hnum | apply Hstr | | ].
  - apply Harr.
    exact ((fix all (l : list Js.value) : Forall P l :=
              match l with
              | [] => @List.Forall_nil _ P
              | x :: rest => @List.Forall_cons _ P x rest (IH x) (all rest)
              end) items).
  - apply Hobj.
    exact ((fix all (l : list (string * Js.value))
              : Forall (fun entry => P (snd entry)) l :=
              match l with
              | [] => @List.Forall_nil _ _
              | entry :: rest =>
                  @List.Forall_cons _ (fun entry => P (snd entry)) entry rest
                    (IH (snd entry)) (all rest)
              end) props).
Qed.

Lemma exposes_nothing_listed (v : Js.value) : exposes ∅ v = false.
Proof.
  induction v as [ | |b|f|s|items IH|props IH] using value_ind_nested;
    try reflexivity.
  - cbn [exposes]. induction IH as [|item items Hitem _ IHitems]; [reflexivity|].
    rewrite Hitem. exact IHitems.
  - cbn [exposes]. induction IH as [|[key value] props Hvalue _ IHprops]; [reflexivity|].
    cbn [snd] in Hvalue.
    rewrite bool_decide_eq_false_2 by set_solver. rewrite Hvalue. exact IHprops.
Qed.

Lemma redactRecursive_hides (fieldSet : gset string) (v : Js.value) :
  forall path, exposes fieldSet (redactRecursive fieldSet v path) = false.
Proof.
  induction v as [ | |b|f|s|items IH|props IH] using value_ind_nested;
    intros path; try reflexivity.
  - cbn [redactRecursive exposes]. generalize 0%nat.
    induction IH as [|item items Hitem _ IHitems]; intros i; [reflexivity|].
    rewrite Hitem. apply IHitems.
  - cbn [redactRecursive exposes].
    induction IH as [|[key value] props Hvalue _ IHprops]; [reflexivity|].
    cbn [snd] in Hvalue.
    destruct (Js.assigns_own key); [|exact IHprops].
    rewrite IHprops, orb_false_r.
    destruct (bool_decide (key ∈ fieldSet)) eqn:Hkey; cbn [orb]; [reflexivity|].
    destruct (bool_decide ((if String.eqb path "" then key else path +:+ "." +:+ key)
                             ∈ fieldSet)); [reflexivity|].
    destruct value; try reflexivity; apply Hvalue.
Qed.

(** X11: After [redactFields], no object inside the result, at any depth,
    holds under one of the listed names anything but ['\[REDACTED\]']. *)
Theorem redactFields_hides_listed_names (obj : Js.value) (fields : list string) :
  exposes (list_to_set fields) (redactFields obj fields) = false.
Proof.
  unfold redactFields.
  destruct (negb (Js.truthy obj) || negb (Js.typeof_object obj)
            || (length fields =? 0)%nat) eqn:Hguard.
  - destruct obj; try reflexivity;
      cbn in Hguard; apply Nat.eqb_eq, nil_length_inv in Hguard; subst fields;
      apply exposes_nothing_listed.
  - apply redactRecursive_hides.
Qed.

Lemma redactRecursive_again (fieldSet : gset string) (v : Js.value) :
  forall path,
    redactRecursive fieldSet (redactRecursive fieldSet v path) path
    = redactRecursive fieldSet v path.
Proof.
  induction v as [ | |b|f|s|items IH|props IH] using value_ind_nested;
    intros path; try reflexivity.
  - cbn [redactRecursive]. f_equal. generalize 0%nat.
    induction IH as [|item items Hitem _ IHitems]; intros i; [reflexivity|].
    rewrite Hitem, IHitems. reflexivity.
  - cbn [redactRecursive]. f_equal.
    induction IH as [|[key value] props Hvalue _ IHprops]; [reflexivity|].
    cbn [snd] in Hvalue.
    destruct (Js.assigns_own key) eqn:Hown; [|exact IHprops].
    rewrite Hown, IHprops. f_equal. f_equal.
    destruct (bool_decide (key ∈ fieldSet)
              || bool_decide ((if String.eqb path "" then key else path +:+ "." +:+ key)
                                ∈ fieldSet)); [reflexivity|].
    destruct value; try reflexivity.
    + specialize (Hvalue (if String.eqb path "" then key else path +:+ "." +:+ key)).
      cbn [redactRecursive] in Hvalue |- *. exact Hvalue.
    + specialize (Hvalue (if String.eqb path "" then key else path +:+ "." +:+ key)).
      cbn [redactRecursive] in Hvalue |- *. exact Hvalue.
Qed.

(** X12: Redacting twice is redacting once. *)
Theorem redactFields_idempotent (obj : Js.value) (fields : list string) :
  redactFields (redactFields obj fields) fields = redactFields obj fields.
Proof.
  unfold redactFields.
  destruct (negb (Js.truthy obj) || negb (Js.typeof_object obj)
            || (length fields =? 0)%nat) eqn:Hguard.
  - rewrite Hguard. reflexivity.
  - destruct obj as [ | |b|f|s|items|props];
      cbn [Js.truthy Js.typeof_object negb] in Hguard;
      rewrite ?orb_true_r in Hguard; cbn [orb] in Hguard; try discriminate;
      cbn [redactRecursive Js.truthy Js.typeof_object negb orb]; rewrite Hguard.
    + exact (redactRecursive_again _ (Js.Arr items) "").
    + exact (redactRecursive_again _ (Js.Obj props) "").
Qed.

Lemma redactHeaders_cons (redactSet : gset string) (header : string * HeaderValue)
    (headers : list (string * HeaderValue)) :
  omap (redact_header redactSet) (header :: headers)
  = match redact_header redactSet header with
    | Some kept => kept :: omap (redact_header redactSet) headers
    | None => omap (redact_header redactSet) headers
    end.
Proof. reflexivity. Qed.

(** X13: [redactHeaders] keeps the headers that have a value, in their order
    and under their names, except a header named [__proto__], which is
    dropped; the value of a header whose name is, letter case aside, one of
    the listed names is ['\[REDACTED\]']. *)
Theorem redactHeaders_hides_listed_names (headers : list (string * HeaderValue))
    (redactList : list string) :
  map fst (redactHeaders headers redactList)
  = map fst (List.filter (fun entry => match snd entry with
                                       | Absent => false
                                       | _ => negb (String.eqb (fst entry) "__proto__")
                                       end) headers)
  /\ forall key value listed,
      In (key, value) (redactHeaders headers redactList) ->
      In listed redactList ->
      toLowerCase key = toLowerCase listed ->
      value = REDACTED.
Proof.
  unfold redactHeaders. split.
  - induction headers as [|[key [value|values|]] headers IH]; [reflexivity| | |];
      rewrite redactHeaders_cons; cbn [redact_header fst snd List.filter];
      [unfold Js.assigns_own; destruct (negb (String.eqb key "__proto__"));
       [cbn [map fst]; f_equal|]; exact IH ..
      | exact IH].
  - intros key value listed Hin Hlisted Hlower.
    assert (Hset : toLowerCase key
                     ∈ (list_to_set (map toLowerCase redactList) : gset string)).
    { apply elem_of_list_to_set, list_elem_of_In, in_map_iff.
      exists listed. split; [symmetry; exact Hlower | exact Hlisted]. }
    induction headers as [|[key' [value'|values'|]] headers IH]; [destruct Hin| | |];
      rewrite redactHeaders_cons in Hin; cbn [redact_header fst snd] in Hin;
      [destruct (Js.assigns_own key'); [|exact (IH Hin)];
       (destruct Hin as [Heq|Hin]; [|exact (IH Hin)]);
       injection Heq as <- <-;
       rewrite bool_decide_eq_true_2 by exact Hset; reflexivity ..
      | exact (IH Hin)].
Qed.

(** An entry named [__proto__] does not reach the result. *)
Example proto_entries_are_dropped :
  redactHeaders [("__proto__", Single "x"); ("Cookie", Single "s");
                 ("accept", Many ["a"; "b"]); ("via", Absent)] ["cookie"]
  = [("Cookie", REDACTED); ("accept", "a, b")]
  /\ redactFields
       (Js.Obj [("__proto__", Js.Obj [("a", Js.Str "x")]); ("token", Js.Str "t");
                ("user", Js.Obj [("__proto__", Js.Str "p"); ("name", Js.Str "n")])])
       ["token"]
     = Js.Obj [("token", Js.Str REDACTED); ("user", Js.Obj [("name", Js.Str "n")])].
Proof. vm_compute. split; reflexivity. Qed.

End RedactionFacts.

(** ** More on the refund executor *)

Section ExecutorFacts.
Import Refund.

(** X14: [getEndpointConfig] answers with the configuration of the first
    pattern, in the order of the [endpoints] object, that matches the URL:
    every pattern before it was tried and did not match.  It answers
    [undefined] when every pattern was tried and none matched, and it
    throws what the first pattern that is no regular expression throws,
    when no pattern before that one matched. *)
Theorem getEndpointConfig_first_match (host : Host)
    (endpoints : list (string * Endpoint.EndpointRefundConfig)) (url : string) :
  let tried before :=
    Forall (fun entry => pattern_test host (fst entry) url = Normal false) before in
  match getEndpointConfig host endpoints url with
  | Normal (Some config) =>
      exists before pattern after,
        endpoints = before ++ (pattern, config) :: after
        /\ tried before
        /\ pattern_test host pattern url = Normal true
  | Normal None => tried endpoints
  | Thrown message =>
      exists before pattern config after,
        endpoints = before ++ (pattern, config) :: after
        /\ tried before
        /\ pattern_test host pattern url = Thrown message
  end.
Proof.
  intros tried. subst tried.
  induction endpoints as [|[pattern config] endpoints IH].
  - cbn. constructor.
  - cbn [getEndpointConfig bindC].
    destruct (pattern_test host pattern url) as [[|]|message] eqn:Htest; cbn [bindC].
    + exists [], pattern, endpoints. split; [reflexivity|]. split; [constructor | exact Htest].
    + destruct (getEndpointConfig host endpoints url) as [[found|]|message].
      * destruct IH as (before & pattern' & after & -> & Htried & Hmatch).
        exists ((pattern, config) :: before), pattern', after.
        split; [reflexivity|]. split; [|exact Hmatch].
        apply List.Forall_cons; [exact Htest | exact Htried].
      * apply List.Forall_cons; [exact Htest | exact IH].
      * destruct IH as (before & pattern' & config' & after & -> & Htried & Hthrown).
        exists ((pattern, config) :: before), pattern', config', after.
        split; [reflexivity|]. split; [|exact Hthrown].
        apply List.Forall_cons; [exact Htest | exact Htried].
    + exists [], pattern, config, endpoints.
      split; [reflexivity|]. split; [constructor | exact Htest].
Qed.

Lemma take_in_flight_found (refundId : string) (calls : list PendingRefund)
    (found : PendingRefund) (others : list PendingRefund) :
  take_in_flight refundId calls = Some (found, others) ->
  id found = refundId
  /\ forall P : PendingRefund -> Prop, Forall P calls -> Forall P others.
Proof.
  revert found others. induction calls as [|call calls IH]; intros found others;
    cbn [take_in_flight]; [discriminate|].
  destruct (String.eqb (id call) refundId) eqn:Hid.
  - intros H. injection H as <- <-. apply String.eqb_eq in Hid.
    split; [exact Hid|]. intros P HP. inversion HP; assumption.
  - destruct (take_in_flight refundId calls) as [[found' others']|]; [|discriminate].
    intros H. injection H as <- <-.
    destruct (IH found' others' eq_refl) as [Hfound Hothers].
    split; [exact Hfound|]. intros P HP. inversion HP; subst.
    apply List.Forall_cons; [assumption | apply Hothers; assumption].
Qed.

Lemma take_in_flight_none (refundId : string) (calls : list PendingRefund) :
  Forall (fun call => id call <> refundId) calls ->
  take_in_flight refundId calls = None.
Proof.
  induction 1 as [|call calls Hcall _ IH]; [reflexivity|].
  cbn [take_in_flight]. apply String.eqb_neq in Hcall. rewrite Hcall, IH. reflexivity.
Qed.

Lemma handle_processed (host : Host) (config : ResolvedRefundConfig) (s : Session)
    (e : Event) (refundId : string) :
  refundId ∈ processedRefundIds (executor s) ->
  Forall (fun call => id call <> refundId) (inFlight s) ->
  refundId ∈ processedRefundIds (executor (handle host config s e))
  /\ Forall (fun call => id call <> refundId) (inFlight (handle host config s e))
  /\ transfers_of refundId (trace (handle host config s e))
     = transfers_of refundId (trace s).
Proof.
  intros Hprocessed Hflight. destruct e as [refund today thisMonth|settledId outcome];
    cbn [handle].
  - pose proof (before_execution_processed host config (executor s) refund
                  today thisMonth) as Hsame.
    pose proof (before_execution_no_transfer host config (executor s) refund
                  today thisMonth refundId) as Hnone.
    pose proof (before_execution_proceeds host config (executor s) refund
                  today thisMonth) as Hproceeds.
    destruct (before_execution host config (executor s) refund today thisMonth)
      as [[st effects] proceed].
    cbn [fst snd executor inFlight trace] in *.
    rewrite Hsame, transfers_of_app, Hnone, Nat.add_0_r.
    split; [exact Hprocessed|]. split; [|reflexivity].
    destruct proceed; [|exact Hflight].
    apply Forall_app. split; [exact Hflight|].
    apply List.Forall_cons; [|constructor].
    intros Hid. apply (Hproceeds eq_refl). rewrite Hid. exact Hprocessed.
  - destruct (take_in_flight settledId (inFlight s)) as [[refund others]|] eqn:Htake.
    + destruct (take_in_flight_found _ _ _ _ Htake) as [Hid Hothers].
      pose proof (after_execution_transfer config (executor s) refund
                    (default (settled refund outcome) (immediate config refund))
                    refundId) as (Hle & Hone & Hgrows).
      destruct (after_execution config (executor s) refund
                  (default (settled refund outcome) (immediate config refund)))
        as [st effects].
      cbn [fst snd executor inFlight trace] in *.
      split; [exact (Hgrows _ Hprocessed)|].
      split; [exact (Hothers _ Hflight)|].
      rewrite transfers_of_app.
      destruct (transfers_of refundId effects) as [|[|n]] eqn:Hcount; [lia| |lia].
      destruct (Hone eq_refl) as [Heq _].
      assert (Hin : In refund (inFlight s)).
      { clear -Htake. revert refund others Htake.
        induction (inFlight s) as [|call calls IH]; intros refund others;
          cbn [take_in_flight]; [discriminate|].
        destruct (String.eqb (id call) settledId).
        - intros H. injection H as <- <-. left. reflexivity.
        - destruct (take_in_flight settledId calls) as [[found' others']|];
            [|discriminate].
          intros H. injection H as <- <-. right. exact (IH _ _ eq_refl). }
      rewrite List.Forall_forall in Hflight. exfalso.
      apply (Hflight refund Hin). symmetry. exact Heq.
    + auto.
Qed.

(** X16: Once an instruction has been executed and no call for it is waiting
    for its transfer, no later message can make the executor transfer for
    that identifier again, whatever arrives and in whatever order. *)
Theorem processed_never_transfers_again (host : Host) (config : ResolvedRefundConfig)
    (events : list Event) (refundId : string) :
  forall s : Session,
    refundId ∈ processedRefundIds (executor s) ->
    Forall (fun call => id call <> refundId) (inFlight s) ->
    transfers_of refundId (trace (run host config s events))
    = transfers_of refundId (trace s).
Proof.
  induction events as [|e events IH]; intros s Hprocessed Hflight; [reflexivity|].
  cbn [run fold_left]. fold (run host config (handle host config s e) events).
  destruct (handle_processed host config s e refundId Hprocessed Hflight)
    as (Hprocessed' & Hflight' & Hsame).
  rewrite (IH _ Hprocessed' Hflight'). exact Hsame.
Qed.

Lemma before_execution_rolled (host : Host) (config : ResolvedRefundConfig)
    (st : RefundExecutor) (refund : PendingRefund) (today thisMonth : string) :
  snd (before_execution host config st refund today thisMonth) = true ->
  before_execution host config st refund today thisMonth
  = (reset_caps st today thisMonth,
     [sendMessage (reset_caps st today thisMonth) (refund_executing (id refund));
      ExecuteRefundTx refund],
     true).
Proof.
  unfold before_execution.
  destruct (decide (id refund ∈ processedRefundIds st)); [discriminate|].
  destruct (getEndpointConfig host (endpoints config) (url refund))
    as [endpointConfig|message]; [|discriminate].
  destruct (explicitly_disabled endpointConfig); [discriminate|].
  destruct (PrimFloat.ltb _ _); [discriminate|].
  destruct (exceeds _ (dailyCapUsd config)); [discriminate|].
  destruct (exceeds _ (monthlyCapUsd config)); [discriminate|].
  reflexivity.
Qed.

(** X17: A transfer that fails costs nothing and closes nothing: the counters
    and the set of processed identifiers are as they were (after the reset
    for a new day or month), nothing was transferred, and the same
    instruction, delivered again on the same day, is executed again. *)
Theorem failed_transfer_can_be_retried (host : Host) (config : ResolvedRefundConfig)
    (st : RefundExecutor) (refund : PendingRefund) (today thisMonth : string)
    (error : string) (again : bool) :
  snd (before_execution host config st refund today thisMonth) = true ->
  immediate config refund = None ->
  let result :=
    processSingleRefund host config st refund today thisMonth (Failed error again) in
  fst result = reset_caps st today thisMonth
  /\ transfers_of (id refund) (snd result) = 0%nat
  /\ (id refund ∉ processedRefundIds (fst result))
  /\ snd (before_execution host config (fst result) refund today thisMonth) = true.
Proof.
  intros Hproceed Himmediate result.
  pose proof (before_execution_rolled _ _ _ _ _ _ Hproceed) as Hbefore.
  pose proof (before_execution_again _ _ _ _ _ _ Hproceed) as Hagain.
  pose proof (before_execution_proceeds _ _ _ _ _ _ Hproceed) as Hfresh.
  rewrite Hbefore in Hagain. cbn [fst snd] in Hagain.
  assert (Hresult : fst result = reset_caps st today thisMonth
                    /\ transfers_of (id refund) (snd result) = 0%nat).
  { subst result. unfold processSingleRefund. rewrite Hbefore, Himmediate.
    cbn [from_option id settled]. unfold after_execution, failure.
    cbn [success fst snd]. split; [reflexivity|].
    rewrite transfers_of_app.
    unfold sendMessage.
    destruct (wsOpen (reset_caps st today thisMonth)), again, (onRefundError config);
      reflexivity. }
  destruct Hresult as [Hstate Hnone].
  split; [exact Hstate|]. split; [exact Hnone|].
  rewrite Hstate. split.
  - rewrite reset_caps_processed. exact Hfresh.
  - rewrite Hagain. reflexivity.
Qed.

Lemma unsupported_message (network : string) :
  or_else (Some ("Unsupported network: " +:+ network)) "Execution failed"
  = "Unsupported network: " +:+ network
  /\ or_else (Some ("Unsupported network: " +:+ network)) "Unknown error"
     = "Unsupported network: " +:+ network.
Proof. split; reflexivity. Qed.

(** X18: An instruction for a network that is neither [eip155:*], [base] or
    [ethereum] nor [solana] or [solana:*] is given up for good: whatever
    would happen on a chain, nothing is transferred, the rejection
    ['Unsupported network: ...'] is sent to the service, the error callback
    is told it is not retryable, and the counters are not charged. *)
Theorem unsupported_network_is_rejected (host : Host) (config : ResolvedRefundConfig)
    (st : RefundExecutor) (refund : PendingRefund) (today thisMonth : string)
    (outcome : ChainOutcome) :
  family (network refund) = Unsupported ->
  snd (before_execution host config st refund today thisMonth) = true ->
  let rolled := reset_caps st today thisMonth in
  let text := "Unsupported network: " +:+ network refund in
  processSingleRefund host config st refund today thisMonth outcome
  = (rolled,
     [sendMessage rolled (refund_executing (id refund));
      ExecuteRefundTx refund;
      Log "Refund execution failed";
      sendMessage rolled (refund_rejected (id refund) "OTHER" (ExecutionError text))]
       ++ (if onRefundError config then [OnRefundError (id refund) text false] else [])).
Proof.
  intros Hfamily Hproceed rolled text.
  pose proof (before_execution_rolled _ _ _ _ _ _ Hproceed) as Hbefore.
  unfold processSingleRefund. rewrite Hbefore.
  unfold immediate. rewrite Hfamily. cbn [from_option Datatypes.id].
  unfold after_execution, failure.
  cbn [success error retryable from_option Datatypes.id].
  destruct (unsupported_message (network refund)) as [-> ->].
  reflexivity.
Qed.

Lemma reset_caps_new_day (st : RefundExecutor) (today thisMonth : string) :
  lastCapResetDate st <> today ->
  todayRefundedCents (reset_caps st today thisMonth) = 0
  /\ lastCapResetDate (reset_caps st today thisMonth) = today.
Proof.
  intros Hday. unfold reset_caps.
  destruct (String.eqb today (lastCapResetDate st)) eqn:Heq.
  - apply String.eqb_eq in Heq. congruence.
  - cbn [lastCapResetMonth]. destruct (String.eqb thisMonth (lastCapResetMonth st));
      split; reflexivity.
Qed.

(** X19: The daily cap is per calendar day: on the first instruction of a new
    day the counter of the day restarts at zero, so an instruction whose
    own amount is within the caps is executed however much was refunded
    the day before. *)
Theorem daily_cap_restarts_next_day (host : Host) (config : ResolvedRefundConfig)
    (st : RefundExecutor) (refund : PendingRefund) (today thisMonth : string) :
  reaches_caps host config st refund ->
  lastCapResetDate st <> today ->
  exceeds (amountCents refund) (dailyCapUsd config) = false ->
  exceeds (monthRefundedCents (reset_caps st today thisMonth) + amountCents refund)
    (monthlyCapUsd config) = false ->
  let before := before_execution host config st refund today thisMonth in
  snd before = true
  /\ todayRefundedCents (fst (fst before)) = 0
  /\ lastCapResetDate (fst (fst before)) = today.
Proof.
  intros (Hfresh & endpointConfig & Hendpoint & Henabled & Hmax) Hday Hdaily Hmonthly
    before.
  destruct (reset_caps_new_day st today thisMonth Hday) as [Hzero Hmarker].
  assert (Hbefore : before = (reset_caps st today thisMonth,
                      [sendMessage (reset_caps st today thisMonth)
                         (refund_executing (id refund));
                       ExecuteRefundTx refund], true)).
  { subst before. unfold before_execution.
    destruct (decide (id refund ∈ processedRefundIds st)); [contradiction|].
    rewrite Hendpoint, Henabled, Hmax, Hzero, Z.add_0_l, Hdaily, Hmonthly.
    reflexivity. }
  rewrite Hbefore. cbn [fst snd]. auto.
Qed.

End ExecutorFacts.

(** ** More on [base58Encode] *)

Section Base58More.
Import Base58 Base58Reading.

Lemma digit_alphabet_at (r : Z) :
  0 <= r < 58 -> digit (alphabet_at r) = Some r.
Proof.
  intros Hr. rewrite <- (Z2Nat.id r) by lia.
  assert (Hn : (Z.to_nat r < 58)%nat) by lia.
  generalize dependent (Z.to_nat r). clear r Hr. intros n Hn.
  do 58 (destruct n as [|n]; [reflexivity|]). lia.
Qed.

(** The digits the first loop writes in front of [result], read as a
    number, are [num]. *)
Lemma read_to_base58 (fuel : nat) :
  forall (num : Z) (result : string),
    0 <= num < 2 ^ Z.of_nat fuel ->
    read (to_base58 fuel num result) 0 = read result num.
Proof.
  induction fuel as [|fuel IH]; intros num result [H0 Hlt].
  - cbn in Hlt. assert (num = 0) by lia. subst num. reflexivity.
  - cbn [to_base58]. destruct (0 <? num) eqn:Hpos.
    + apply Z.ltb_lt in Hpos. rewrite IH.
      * cbn [read]. unfold BASE.
        rewrite digit_alphabet_at by (apply Z.mod_pos_bound; lia).
        f_equal. rewrite Z.mul_comm. symmetry. apply Z.div_mod. lia.
      * unfold BASE. split; [apply Z.div_pos; lia|].
        rewrite Nat2Z.inj_succ, Z.pow_succ_r in Hlt by lia.
        apply Z.div_lt_upper_bound; lia.
    + apply Z.ltb_ge in Hpos. assert (num = 0) by lia. subst num. reflexivity.
Qed.

Lemma read_leading_ones (bytes : list byte) :
  forall result : string, read (leading_ones bytes result) 0 = read result 0.
Proof.
  induction bytes as [|b bytes IH]; intros result; [reflexivity|].
  cbn [leading_ones]. destruct (byteval b =? 0); [|reflexivity].
  rewrite IH. reflexivity.
Qed.

Lemma read_base58Encode (bytes : list byte) :
  value_of (base58Encode bytes) = Some (bytes_to_num bytes).
Proof.
  unfold value_of, base58Encode.
  pose proof (read_leading_ones bytes
                (to_base58 (rounds bytes) (bytes_to_num bytes) "")) as Hread.
  rewrite read_to_base58 in Hread by apply bytes_to_num_bound.
  cbn [read] in Hread.
  destruct (String.eqb (leading_ones bytes _) "") eqn:Hempty; [|exact Hread].
  apply String.eqb_eq in Hempty. rewrite Hempty in Hread. cbn [read] in Hread.
  rewrite <- Hread. reflexivity.
Qed.

Lemma base58Encode_not_empty (bytes : list byte) : base58Encode bytes <> "".
Proof.
  unfold base58Encode.
  destruct (String.eqb (leading_ones bytes _) "") eqn:Hempty; [discriminate|].
  apply String.eqb_neq in Hempty. exact Hempty.
Qed.

(** X21: [base58Encode] writes the number its bytes spell in base 256: the
    result is never empty, and read back digit by digit, with the position
    of each character in the alphabet as its digit, it is that number in
    base 58. *)
Theorem base58Encode_reads_back (bytes : list byte) :
  base58Encode bytes <> ""
  /\ value_of (base58Encode bytes)
     = Some (fold_left (fun num b => num * 256 + byteval b) bytes 0).
Proof.
  split.
  - apply base58Encode_not_empty.
  - change (fold_left (fun num b => num * 256 + byteval b) bytes 0)
      with (bytes_to_num bytes).
    unfold value_of, base58Encode.
    pose proof (read_leading_ones bytes
                  (to_base58 (rounds bytes) (bytes_to_num bytes) "")) as Hread.
    rewrite read_to_base58 in Hread by apply bytes_to_num_bound.
    cbn [read] in Hread.
    destruct (String.eqb (leading_ones bytes _) "") eqn:Hempty; [|exact Hread].
    apply String.eqb_eq in Hempty. rewrite Hempty in Hread. cbn [read] in Hread.
    rewrite <- Hread. reflexivity.
Qed.

Lemma byteval_inj (a b : byte) : byteval a = byteval b -> a = b.
Proof.
  unfold byteval. intros H. apply N2Z.inj in H.
  apply (f_equal Byte.of_N) in H.
  rewrite !Byte.of_to_N in H. injection H as H. exact H.
Qed.

Lemma bytes_to_num_from (bytes : list byte) :
  forall acc : Z,
    fold_left (fun num b => num * 256 + byteval b) bytes acc
    = acc * 256 ^ Z.of_nat (length bytes) + bytes_to_num bytes.
Proof.
  unfold bytes_to_num. induction bytes as [|b bytes IH]; intros acc.
  - cbn. lia.
  - cbn [fold_left length]. rewrite IH, (IH (0 * 256 + byteval b)).
    rewrite Nat2Z.inj_succ, Z.pow_succ_r by lia. lia.
Qed.

Lemma bytes_to_num_below (bytes : list byte) :
  0 <= bytes_to_num bytes < 256 ^ Z.of_nat (length bytes).
Proof.
  pose proof (bytes_to_num_bound_from bytes 0 ltac:(lia)) as H.
  unfold bytes_to_num.
  replace (256 ^ Z.of_nat (length bytes)) with (2 ^ (8 * Z.of_nat (length bytes))).
  - lia.
  - rewrite Z.pow_mul_r by lia. reflexivity.
Qed.

Lemma bytes_to_num_inj (a : list byte) :
  forall b : list byte,
    length a = length b -> bytes_to_num a = bytes_to_num b -> a = b.
Proof.
  induction a as [|x a IH]; intros [|y b] Hlen Hnum; try discriminate; [reflexivity|].
  injection Hlen as Hlen.
  unfold bytes_to_num in Hnum. cbn [fold_left] in Hnum.
  rewrite (bytes_to_num_from a), (bytes_to_num_from b), <- Hlen in Hnum.
  pose proof (bytes_to_num_below a) as Ha.
  pose proof (bytes_to_num_below b) as Hb. rewrite <- Hlen in Hb.
  pose proof (byteval_bound x) as Hx. pose proof (byteval_bound y) as Hy.
  set (p := 256 ^ Z.of_nat (length a)) in *.
  assert (Hxy : byteval x = byteval y) by nia.
  rewrite Hxy in Hnum.
  f_equal; [exact (byteval_inj _ _ Hxy)|]. apply IH; [exact Hlen | lia].
Qed.

(** X22: Two keys of the same length with the same address are the same key. *)
Theorem base58Encode_injective (a b : list byte) :
  length a = length b -> base58Encode a = base58Encode b -> a = b.
Proof.
  intros Hlen Hsame. apply bytes_to_num_inj; [exact Hlen|].
  pose proof (read_base58Encode a) as Ha. rewrite Hsame, read_base58Encode in Ha.
  injection Ha as Ha. symmetry. exact Ha.
Qed.

Lemma bytes_to_num_leading_zeros (n : nat) (bytes : list byte) :
  bytes_to_num (repeat x00 n ++ bytes) = bytes_to_num bytes.
Proof.
  unfold bytes_to_num. rewrite fold_left_app.
  fold (bytes_to_num (repeat x00 n)). rewrite bytes_to_num_zeros. reflexivity.
Qed.

Lemma leading_ones_app (n : nat) (b : byte) (rest : list byte) (result : string) :
  byteval b <> 0 ->
  leading_ones (repeat x00 n ++ b :: rest) result = (ones n ++ result)%string.
Proof.
  intros Hb. revert result. induction n as [|n IH]; intros result.
  - cbn [repeat app leading_ones ones]. apply Z.eqb_neq in Hb. rewrite Hb. reflexivity.
  - cbn [repeat app leading_ones]. change (byteval x00 =? 0) with true. cbv iota.
    rewrite IH. cbn [ones]. rewrite append_cons. apply ones_shift.
Qed.

Lemma to_base58_grows (fuel : nat) :
  forall (num : Z) (result : string),
    (String.length result <= String.length (to_base58 fuel num result))%nat.
Proof.
  induction fuel as [|fuel IH]; intros num result; [reflexivity|].
  cbn [to_base58]. destruct (0 <? num); [|reflexivity].
  etransitivity; [|apply IH]. cbn [String.length]. lia.
Qed.

Lemma bytes_to_num_positive (b : byte) (rest : list byte) :
  byteval b <> 0 -> 0 < bytes_to_num (b :: rest).
Proof.
  intros Hb. unfold bytes_to_num. cbn [fold_left].
  rewrite bytes_to_num_from.
  pose proof (bytes_to_num_below rest). pose proof (byteval_bound b).
  assert (0 < 256 ^ Z.of_nat (length rest)) by (apply Z.pow_pos_nonneg; lia).
  nia.
Qed.

(** The digits of a key that starts with a byte other than zero. *)
Lemma base58Encode_digits (b : byte) (rest : list byte) :
  byteval b <> 0 ->
  base58Encode (b :: rest)
  = to_base58 (rounds (b :: rest)) (bytes_to_num (b :: rest)) ""
  /\ base58Encode (b :: rest) <> "".
Proof.
  intros Hb. unfold base58Encode. cbn [leading_ones].
  pose proof Hb as Hb'. apply Z.eqb_neq in Hb'. rewrite Hb'.
  pose proof (bytes_to_num_positive b rest Hb) as Hpos.
  assert (Hlen : (1 <= String.length
                        (to_base58 (rounds (b :: rest)) (bytes_to_num (b :: rest)) ""))%nat).
  { unfold rounds. cbn [length]. replace (8 * S (length rest))%nat
      with (S (7 + 8 * length rest))%nat by lia.
    cbn [to_base58]. apply Z.ltb_lt in Hpos. rewrite Hpos.
    etransitivity; [|apply to_base58_grows]. cbn [String.length]. lia. }
  destruct (to_base58 (rounds (b :: rest)) (bytes_to_num (b :: rest)) "")
    as [|c digits]; [cbn in Hlen; lia|].
  cbn [String.eqb]. split; [reflexivity | discriminate].
Qed.

(** X20: Every leading zero byte becomes one leading ['1'], in front of the
    encoding of the rest of the key. *)
Theorem base58Encode_leading_zeros (n : nat) (b : byte) (rest : list byte) :
  byteval b <> 0 ->
  base58Encode (repeat x00 n ++ b :: rest)
  = (ones n ++ base58Encode (b :: rest))%string.
Proof.
  intros Hb. destruct (base58Encode_digits b rest Hb) as [Hdigits Hnonempty].
  rewrite Hdigits in *.
  unfold base58Encode at 1.
  rewrite bytes_to_num_leading_zeros, leading_ones_app by exact Hb.
  assert (Hrounds : rounds (repeat x00 n ++ b :: rest)
                    = (rounds (b :: rest) + 8 * n)%nat).
  { unfold rounds. rewrite length_app, repeat_length. lia. }
  rewrite Hrounds, base58Encode_rounds_suffice.
  destruct (to_base58 (rounds (b :: rest)) (bytes_to_num (b :: rest)) "")
    as [|c digits]; [contradiction|].
  destruct n as [|n]; reflexivity.
Qed.

End Base58More.

(** ** The walker on a serialised transaction *)

Section WireWalk.
Import Base58 Base58Reading Solana Wire.

Lemma remaining_start (txBytes : list byte) : remaining txBytes 0 txBytes.
Proof. split; [lia | reflexivity]. Qed.

Lemma remaining_skip (txBytes : list byte) (offset : Z) (skipped rest : list byte)
    (offset' : Z) :
  remaining txBytes offset (skipped ++ rest) ->
  offset' = offset + Z.of_nat (length skipped) ->
  remaining txBytes offset' rest.
Proof.
  intros [H0 Hdrop] ->. split; [lia|].
  rewrite Z2Nat.inj_add, Nat2Z.id by lia.
  rewrite <- drop_drop, Hdrop. apply drop_app_length.
Qed.

Lemma remaining_next (txBytes : list byte) (offset : Z) (b : byte) (rest : list byte)
    (offset' : Z) :
  remaining txBytes offset (b :: rest) ->
  offset' = offset + 1 ->
  remaining txBytes offset' rest.
Proof.
  intros H ->. apply (remaining_skip txBytes offset [b] rest); [exact H|].
  simpl. lia.
Qed.

Lemma at_offset_remaining (txBytes : list byte) (offset : Z) (b : byte)
    (rest : list byte) :
  remaining txBytes offset (b :: rest) ->
  at_offset txBytes (Some offset) = Some (byteval b).
Proof.
  intros [H0 Hdrop]. unfold at_offset.
  destruct (offset <? 0) eqn:E; [apply Z.ltb_lt in E; lia|].
  replace (txBytes !! Z.to_nat offset) with (drop (Z.to_nat offset) txBytes !! 0%nat).
  - rewrite Hdrop. reflexivity.
  - rewrite lookup_drop. f_equal. lia.
Qed.


Lemma byteval_u8 (n : Z) : 0 <= n < 256 -> byteval (u8 n) = n.
Proof.
  intros Hn. unfold u8, byteval.
  destruct (Byte.of_N (Z.to_N n)) as [b|] eqn:E.
  - apply Byte.to_of_N in E. cbn [from_option id]. rewrite E. lia.
  - apply Byte.of_N_None_iff in E. lia.
Qed.

(** A length below 128 is written as the one byte the walker reads. *)
Lemma compact_u16_small (n : nat) :
  (n < 128)%nat -> compact_u16 n = [u8 (Z.of_nat n)].
Proof.
  intros Hn. unfold compact_u16. cbv zeta.
  destruct (Z.of_nat n <? 128) eqn:E; [reflexivity | apply Z.ltb_ge in E; lia].
Qed.

Lemma high_bit_set_byte (b : byte) :
  high_bit_set (Some (byteval b)) = (128 <=? byteval b).
Proof. destruct b; reflexivity. Qed.

Lemma concat_length_uniform (n : nat) (chunks : list (list byte)) :
  Forall (fun c => length c = n) chunks ->
  length (concat chunks) = (n * length chunks)%nat.
Proof.
  induction 1 as [|c chunks Hc _ IH]; [simpl; lia|].
  cbn [concat length]. rewrite length_app, IH, Hc. lia.
Qed.













(** The three cases of [payer]. *)
Lemma payer_transfer_checked (tx : Transaction) (ix : Instruction) (authorityIndex : byte) :
  List.find (qualifies tx) (instructions tx) = Some ix ->
  (4 <= length (accountIndices ix))%nat ->
  accountIndices ix !! 3%nat = Some authorityIndex ->
  payer tx = Wire.accountKeys tx !! Z.to_nat (byteval authorityIndex).
Proof.
  intros Hfind Hlen Hauthority. unfold payer, authority. rewrite Hfind.
  replace (4 <=? length (accountIndices ix))%nat with true
    by (symmetry; apply Nat.leb_le; exact Hlen).
  rewrite Hauthority. reflexivity.
Qed.

Lemma payer_transfer (tx : Transaction) (ix : Instruction) (authorityIndex : byte) :
  List.find (qualifies tx) (instructions tx) = Some ix ->
  length (accountIndices ix) = 3%nat ->
  accountIndices ix !! 2%nat = Some authorityIndex ->
  payer tx = Wire.accountKeys tx !! Z.to_nat (byteval authorityIndex).
Proof.
  intros Hfind Hlen Hauthority. unfold payer, authority. rewrite Hfind, Hlen.
  cbn [Nat.leb]. rewrite Hauthority. reflexivity.
Qed.

Lemma payer_fallback (tx : Transaction) :
  List.find (qualifies tx) (instructions tx) = None ->
  payer tx = Wire.accountKeys tx !! 0%nat.
Proof. intros Hfind. unfold payer. rewrite Hfind. reflexivity. Qed.


Lemma transferChecked_well_formed : well_formed Examples.transferChecked.
Proof.
  split; cbn; try lia;
    try (repeat (apply List.Forall_cons; [reflexivity|]); apply List.Forall_nil).
  apply List.Forall_cons;
    [|destruct (qualifies _ _); apply List.Forall_nil].
  unfold instruction_ok, in_table. cbn.
  split; [lia|]. split; [lia|]. split; [lia|].
  intros _ a Ha. vm_compute in Ha. injection Ha as <-. cbn. lia.
Qed.


Example transferChecked_payer_is_owner :
  payer Examples.transferChecked = Examples.transferChecked.(accountKeys) !! 2%nat
  /\ base58Encode (repeat x33 32) = "4Ss5JMkXAD9Z7cktFEdrqeMuT6jGMF1pVozTyPHZ6zT4"
  /\ base58Encode (repeat x11 32) = "29d2S7vB453rNYFdR5Ycwt7y9haRT5fwVwL9zTmBhfV2".
Proof. vm_compute. repeat split. Qed.

(** Lengths from 128 on take two bytes; 300 is [0xac 0x02]. *)
Example compact_u16_bytes :
  compact_u16 5 = [x05] /\ compact_u16 127 = [x7f]
  /\ compact_u16 128 = [x80; x01] /\ compact_u16 300 = [xac; x02]
  /\ compact_u16 (Z.to_nat 16384) = [x80; x80; x01].
Proof. vm_compute. repeat split. Qed.


End WireWalk.

(** ** Truncated transactions *)

Section Truncation.
Import Base58 Solana PaymentHeader Wire.

(** [decodePaymentHeader] never throws. *)
Lemma decodePaymentHeader_normal (R : Runtime) (paymentHeader : option string) :
  exists result, decodePaymentHeader R paymentHeader = Normal result.
Proof.
  destruct paymentHeader as [header|]; [|eexists; reflexivity].
  unfold decodePaymentHeader.
  destruct (String.eqb header ""); [eexists; reflexivity|].
  match goal with
  | |- exists result, try_catch ?body _ = _ => destruct body
  end; eexists; reflexivity.
Qed.

(** The account-key loop pushes one slice a round, whatever the array
    holds, and moves on by 32 each time. *)
Lemma read_account_keys_rounds (txBytes : list byte) (rounds : nat) :
  forall (offset : Z) (acc : list (list byte)),
    exists keys,
      read_account_keys txBytes rounds (Some offset) acc
        = (acc ++ keys, Some (offset + 32 * Z.of_nat rounds))
      /\ length keys = rounds
      /\ ((0 < rounds)%nat ->
          keys !! 0%nat = Some (slice txBytes (Some offset) (Some (offset + 32)))).
Proof.
  induction rounds as [|rounds IH]; intros offset acc.
  - exists []. cbn [read_account_keys]. rewrite app_nil_r.
    replace (offset + 32 * Z.of_nat 0) with offset by lia.
    split; [reflexivity|]. split; [reflexivity | lia].
  - cbn [read_account_keys plus].
    destruct (IH (offset + 32) (acc ++ [slice txBytes (Some offset) (Some (offset + 32))]))
      as (keys & Heq & Hlen & _).
    exists (slice txBytes (Some offset) (Some (offset + 32)) :: keys).
    rewrite Heq, <- app_assoc. cbn [app length].
    replace (offset + 32 + 32 * Z.of_nat rounds)
      with (offset + 32 * Z.of_nat (S rounds)) by lia.
    split; [reflexivity|]. split; [lia | reflexivity].
Qed.

Lemma at_offset_outside (txBytes : list byte) (offset : Z) :
  Z.of_nat (length txBytes) <= offset -> at_offset txBytes (Some offset) = None.
Proof.
  intros Hout. unfold at_offset.
  destruct (offset <? 0); [reflexivity|].
  rewrite lookup_ge_None_2 by lia. reflexivity.
Qed.

(** A transaction cut inside its first account key: the bytes ahead of the
    keys, and a fragment of the key. *)
Lemma cut_bytes (tx : Transaction) (n : nat) :
  Forall (fun k => length k = 32%nat) (accountKeys tx) ->
  (0 < length (accountKeys tx))%nat ->
  (n < 32)%nat ->
  take (length (ahead_of_keys tx) + n) (serialize tx)
  = ahead_of_keys tx ++ take n (default [] (accountKeys tx !! 0%nat)).
Proof.
  intros Hkey Hkeys Hn.
  assert (Hsplit : serialize tx
                   = ahead_of_keys tx
                     ++ concat (accountKeys tx) ++ recentBlockhash tx
                     ++ compact_u16 (length (instructions tx))
                     ++ serialize_instructions (instructions tx)
                     ++ addressTableLookups tx).
  { unfold serialize, ahead_of_keys. rewrite <- !app_assoc. reflexivity. }
  rewrite Hsplit, take_app_add.
  destruct (accountKeys tx) as [|key0 keys]; [cbn in Hkeys; lia|].
  cbn [concat lookup list_lookup from_option id].
  rewrite <- app_assoc, take_app_le; [reflexivity|].
  rewrite (List.Forall_inv Hkey). lia.
Qed.

(** What both walkers read ahead of the keys. *)
Lemma ahead_of_keys_read (tx : Transaction) (fragment : list byte) :
  (length (signatures tx) < 128)%nat ->
  Forall (fun s => length s = 64%nat) (signatures tx) ->
  match versionPrefix tx with
  | Some v => 128 <= byteval v
  | None => byteval (numRequiredSignatures tx) < 128
  end ->
  (length (accountKeys tx) < 128)%nat ->
  let txBytes := ahead_of_keys tx ++ fragment in
  let start := 1 + Z.of_nat (length (signatures tx)) * 64 in
  exists header : Z,
    at_offset txBytes (Some 0) = Some (Z.of_nat (length (signatures tx)))
    /\ (if high_bit_set (at_offset txBytes (Some start)) then Some (start + 1)
        else Some start) = Some header
    /\ at_offset txBytes (Some (header + 3)) = Some (Z.of_nat (length (accountKeys tx)))
    /\ remaining txBytes (header + 3 + 1) fragment.
Proof.
  intros Hsigs Hsig Hver Hkeys txBytes start.
  pose proof (remaining_start txBytes) as Hrem0.
  unfold txBytes at 2 in Hrem0. unfold ahead_of_keys in Hrem0.
  rewrite (compact_u16_small _ Hsigs), (compact_u16_small _ Hkeys) in Hrem0.
  rewrite <- !app_assoc in Hrem0. cbn [app] in Hrem0.
  pose proof (remaining_next _ _ _ _ _ Hrem0 eq_refl) as Hrem1.
  pose proof (remaining_skip _ _ _ _ _ Hrem1 eq_refl) as Hrem2.
  rewrite (concat_length_uniform 64 _ Hsig) in Hrem2.
  replace (0 + 1 + Z.of_nat (64 * length (signatures tx))) with start in Hrem2
    by (unfold start; lia).
  rewrite (at_offset_remaining _ _ _ _ Hrem0), byteval_u8 by lia.
  assert (Hheader : exists header,
    (if high_bit_set (at_offset txBytes (Some start)) then Some (start + 1)
     else Some start) = Some header
    /\ remaining txBytes header
         (numRequiredSignatures tx :: numReadonlySignedAccounts tx
          :: numReadonlyUnsignedAccounts tx
          :: u8 (Z.of_nat (length (accountKeys tx))) :: fragment)).
  { destruct (versionPrefix tx) as [v|]; cbn [option_list app] in Hrem2.
    - rewrite (at_offset_remaining _ _ _ _ Hrem2), high_bit_set_byte.
      replace (128 <=? byteval v) with true by (symmetry; apply Z.leb_le; lia).
      eexists. split; [reflexivity|].
      eapply remaining_next; [exact Hrem2 | reflexivity].
    - rewrite (at_offset_remaining _ _ _ _ Hrem2), high_bit_set_byte.
      replace (128 <=? byteval (numRequiredSignatures tx)) with false
        by (symmetry; apply Z.leb_gt; lia).
      eexists. split; [reflexivity | exact Hrem2]. }
  destruct Hheader as (header & Hprefix & Hrem3).
  pose proof (remaining_skip txBytes header
                [numRequiredSignatures tx; numReadonlySignedAccounts tx;
                 numReadonlyUnsignedAccounts tx] _ (header + 3) Hrem3 eq_refl)
    as Hrem4.
  pose proof (remaining_next _ _ _ _ _ Hrem4 eq_refl) as Hrem5.
  exists header. split; [reflexivity|]. split; [exact Hprefix|].
  split; [|exact Hrem5].
  rewrite (at_offset_remaining _ _ _ _ Hrem4), byteval_u8 by lia. reflexivity.
Qed.

Lemma remaining_length (txBytes : list byte) (offset : Z) (rest : list byte) :
  remaining txBytes offset rest ->
  Z.of_nat (length txBytes) <= offset + Z.of_nat (length rest).
Proof.
  intros [H0 Hdrop]. rewrite <- Hdrop, length_drop. lia.
Qed.

Lemma slice_fragment (txBytes : list byte) (offset : Z) (fragment : list byte) :
  remaining txBytes offset fragment ->
  (length fragment < 32)%nat ->
  slice txBytes (Some offset) (Some (offset + 32)) = fragment.
Proof.
  intros [H0 Hdrop] Hlen. unfold slice. cbn [from_option id].
  rewrite Hdrop. apply take_ge. lia.
Qed.

(** With fewer than 32 bytes after the number of accounts, the walker
    encodes the fragment it slices where the first key should be. *)
Lemma walk_fragment (tx : Transaction) (fragment : list byte) :
  (length (signatures tx) < 128)%nat ->
  Forall (fun s => length s = 64%nat) (signatures tx) ->
  match versionPrefix tx with
  | Some v => 128 <= byteval v
  | None => byteval (numRequiredSignatures tx) < 128
  end ->
  (0 < length (accountKeys tx) < 128)%nat ->
  (length fragment < 32)%nat ->
  walk (ahead_of_keys tx ++ fragment) = Normal (Some (base58Encode fragment))
  /\ walk_first_account (ahead_of_keys tx ++ fragment) = Normal None.
Proof.
  intros Hsigs Hsig Hver Hkeys Hfragment.
  destruct (ahead_of_keys_read tx fragment Hsigs Hsig Hver ltac:(lia))
    as (header & Hcount & Hprefix & Haccounts & Hrem).
  set (txBytes := ahead_of_keys tx ++ fragment) in *.
  pose proof (remaining_length _ _ _ Hrem) as Hend.
  split.
  - unfold walk. rewrite Hcount. cbn [plus times].
    replace (0 + (1 + Z.of_nat (length (signatures tx)) * 64))
      with (1 + Z.of_nat (length (signatures tx)) * 64) by lia.
    match goal with
    | |- context [plus ?o (Some 3)] => replace o with (Some header)
    end.
    cbn [plus]. rewrite Haccounts. unfold rounds_of. cbn [from_option id].
    rewrite Nat2Z.id.
    destruct (read_account_keys_rounds txBytes (length (accountKeys tx))
                (header + 3 + 1) []) as (keys & Hread & Hlen & Hfirst).
    rewrite Hread. cbn [app].
    rewrite (slice_fragment _ _ _ Hrem Hfragment) in Hfirst.
    destruct (length keys =? 0)%nat eqn:E0; [apply Nat.eqb_eq in E0; lia|].
    cbn [plus]. rewrite at_offset_outside by lia.
    cbn [plus from_option id Z.to_nat scan_instructions bindC].
    rewrite (Hfirst ltac:(lia)). reflexivity.
  - unfold walk_first_account. rewrite Hcount. cbn [plus times].
    replace (0 + 1 + Z.of_nat (length (signatures tx)) * 64)
      with (1 + Z.of_nat (length (signatures tx)) * 64) by lia.
    match goal with
    | |- context [plus ?o (Some 3)] => replace o with (Some header)
    end.
    cbn [plus]. rewrite Haccounts.
    replace (header + 3 + 1 + 32 <=? Z.of_nat (length txBytes)) with false
      by (symmetry; apply Z.leb_gt; lia).
    rewrite andb_false_r. reflexivity.
Qed.

(** C8: [decodePaymentHeader] never throws, whatever the header and the
    runtime; but truncated bytes do not always give [null].  A read outside
    the array is [undefined], not an exception: on a transaction cut inside
    its first account key the walker slices the fragment that is left,
    finds no instruction count and answers with the base58 encoding of the
    fragment, where the walker of [src/utils.ts] checks the length and
    returns [null]. *)
Theorem truncated_key_is_encoded :
  (forall (R : Runtime) (paymentHeader : option string),
      exists result, decodePaymentHeader R paymentHeader = Normal result)
  /\ (forall (R : Runtime) (base64Transaction : Js.value) (tx : Transaction)
             (n : nat),
        well_formed tx ->
        (n < 32)%nat ->
        base64_bytes R base64Transaction
          = Normal (take (length (ahead_of_keys tx) + n) (serialize tx)) ->
        extractSolanaFeePayer R base64Transaction
          = Normal (Some (base58Encode
                            (take n (default [] (accountKeys tx !! 0%nat)))))
        /\ extractSolanaFeePayer_first_account R base64Transaction = Normal None).
Proof.
  split; [exact decodePaymentHeader_normal|].
  intros R base64Transaction tx n [Hsigs Hsig Hver Hkeys Hkey Hhash Hixs Hix] Hn Hbytes.
  rewrite (cut_bytes tx n Hkey ltac:(lia) Hn) in Hbytes.
  unfold extractSolanaFeePayer, extractSolanaFeePayer_first_account.
  rewrite Hbytes. cbn [bindC].
  destruct (walk_fragment tx (take n (default [] (accountKeys tx !! 0%nat)))
              Hsigs Hsig Hver Hkeys) as [Hwalk Hfirst].
  { rewrite length_take. lia. }
  rewrite Hwalk, Hfirst. split; reflexivity.
Qed.

(** C8 on [Examples.transferChecked] cut five bytes into its first key:
    the payer is the encoding of the five bytes. *)
Lemma truncated_key_is_encoded_witness :
  base64_bytes Reference.runtime (Js.Str Examples.transferChecked_cut_base64)
    = Normal (take (length (ahead_of_keys Examples.transferChecked) + 5)
                (serialize Examples.transferChecked))
  /\ extractSolanaFeePayer Reference.runtime
       (Js.Str Examples.transferChecked_cut_base64) = Normal (Some "2vgLdhi")
  /\ extractSolanaFeePayer_first_account Reference.runtime
       (Js.Str Examples.transferChecked_cut_base64) = Normal None.
Proof.
  split; [vm_compute; reflexivity|].
  destruct (proj2 truncated_key_is_encoded Reference.runtime
              (Js.Str Examples.transferChecked_cut_base64) Examples.transferChecked
              5%nat transferChecked_well_formed ltac:(lia)
              ltac:(vm_compute; reflexivity)) as [Hwalk Hfirst].
  split; [|exact Hfirst].
  rewrite Hwalk. vm_compute. reflexivity.
Defined.

(** The same on five bytes: no signature, the header, an account count of
    1 and no key.  The payer is the encoding of the empty fragment, ["1"],
    and with a payer the network defaults to Solana mainnet; the copy in
    [src/utils.ts] returns no payer and no network. *)
Example cut_inside_accounts :
  Reference.base64_decode Examples.truncated_base64 = Examples.truncated
  /\ slice Examples.truncated (Some 5) (Some 37) = []
  /\ extractSolanaFeePayer Reference.runtime (Js.Str Examples.truncated_base64)
     = Normal (Some "1")
  /\ extractSolanaFeePayer_first_account Reference.runtime
       (Js.Str Examples.truncated_base64) = Normal None
  /\ decodePaymentHeader Reference.runtime (Some Examples.truncated_header)
     = Normal (Some {| PaymentHeader.payer := Js.Str "1"; PaymentHeader.amount := Js.Null;
                       PaymentHeader.network := Js.Str SOLANA_MAINNET |})
  /\ decodePaymentHeader_first_account Reference.runtime
       (Some Examples.truncated_header)
     = Normal (Some {| PaymentHeader.payer := Js.Null; PaymentHeader.amount := Js.Null; PaymentHeader.network := Js.Null |}).
Proof. vm_compute. repeat split. Qed.

(** Cut after the account table: the read of the instruction count at
    offset 69 is outside the array, and the decoder answers with the fee
    payer, its fallback, not with [null]. *)
Example truncated_transaction_not_null :
  Reference.base64_decode Examples.cut_after_accounts_base64
    = Examples.cut_after_accounts
  /\ length Examples.cut_after_accounts = 37%nat
  /\ at_offset Examples.cut_after_accounts (Some 69) = None
  /\ extractSolanaFeePayer Reference.runtime (Js.Str Examples.cut_after_accounts_base64)
     = Normal (Some "29d2S7vB453rNYFdR5Ycwt7y9haRT5fwVwL9zTmBhfV2")
  /\ decodePaymentHeader Reference.runtime (Some Examples.cut_after_accounts_header)
     = Normal (Some {| PaymentHeader.payer := Js.Str "29d2S7vB453rNYFdR5Ycwt7y9haRT5fwVwL9zTmBhfV2";
                       PaymentHeader.amount := Js.Null; PaymentHeader.network := Js.Str SOLANA_MAINNET |})
  /\ decodePaymentHeader Reference.runtime (Some Examples.cut_after_accounts_header)
     <> Normal None.
Proof. vm_compute. repeat split. discriminate. Qed.

End Truncation.

(** ** What the decoder hands on *)

Section DecodedFacts.
Import Solana PaymentHeader Decoded.

Lemma or_null_or_truthy (a b : Js.value) :
  null_or_truthy b -> null_or_truthy (Js.or a b).
Proof.
  intros Hb. unfold Js.or. destruct (Js.truthy a) eqn:Ha; [right; exact Ha | exact Hb].
Qed.

Lemma encode_key_not_empty (key : option (list byte)) (address : string) :
  encode_key key = Normal address -> address <> "".
Proof.
  destruct key as [bytes|]; [|discriminate]. intros H. injection H as <-.
  apply base58Encode_not_empty.
Qed.

Lemma scan_instructions_not_empty (txBytes : list byte) (accountKeys : list (list byte))
    (rounds : nat) :
  forall (offset : number) (address : string),
    scan_instructions txBytes accountKeys rounds offset = Normal (Some address) ->
    address <> "".
Proof.
  induction rounds as [|rounds IH]; intros offset address; [discriminate|].
  cbn [scan_instructions].
  destruct (read_indices txBytes _ _ []) as [ixAccountIndices offset'].
  destruct (encode_key (element accountKeys (at_offset txBytes offset)))
    as [programAddr|message]; [|discriminate].
  cbn [bindC]. destruct (is_token_program programAddr); [|apply IH].
  destruct (4 <=? length ixAccountIndices)%nat.
  - destruct (encode_key _) as [payer|message] eqn:Hkey; [|discriminate].
    cbn [bindC]. intros H. injection H as <-. exact (encode_key_not_empty _ _ Hkey).
  - destruct (3 <=? length ixAccountIndices)%nat; [|apply IH].
    destruct (encode_key _) as [payer|message] eqn:Hkey; [|discriminate].
    cbn [bindC]. intros H. injection H as <-. exact (encode_key_not_empty _ _ Hkey).
Qed.

Lemma walk_not_empty (txBytes : list byte) (address : string) :
  walk txBytes = Normal (Some address) -> address <> "".
Proof.
  unfold walk.
  destruct (read_account_keys txBytes _ _ []) as [accountKeys offset].
  destruct (length accountKeys =? 0)%nat; [discriminate|].
  destruct (scan_instructions txBytes accountKeys _ _) as [[found|]|message] eqn:Hscan;
    cbn [bindC]; [| |discriminate].
  - intros H. injection H as <-. exact (scan_instructions_not_empty _ _ _ _ _ Hscan).
  - destruct (encode_key (accountKeys !! 0%nat)) as [payer|message] eqn:Hkey;
      [|discriminate].
    cbn [bindC]. intros H. injection H as <-. exact (encode_key_not_empty _ _ Hkey).
Qed.

Lemma extractSolanaFeePayer_not_empty (R : Runtime) (base64Transaction : Js.value)
    (address : string) :
  extractSolanaFeePayer R base64Transaction = Normal (Some address) -> address <> "".
Proof.
  unfold extractSolanaFeePayer.
  destruct (base64_bytes R base64Transaction) as [txBytes|message]; cbn [bindC try_catch];
    [|discriminate].
  destruct (walk txBytes) as [[found|]|message] eqn:Hwalk; cbn [try_catch];
    try discriminate.
  intros H. injection H as <-. exact (walk_not_empty _ _ Hwalk).
Qed.

Lemma decode_parsed_fields (R : Runtime) (parsed : Js.value) (decoded : DecodedPayment) :
  decode_parsed R parsed = Normal decoded ->
  null_or_truthy (payer decoded)
  /\ null_or_truthy (amount decoded)
  /\ null_or_truthy (network decoded)
  /\ (Js.truthy (named_payer parsed) = true -> payer decoded = named_payer parsed).
Proof.
  unfold decode_parsed.
  destruct (Js.get parsed "payload") as [payload|message] eqn:Hpayload; [|discriminate].
  cbn [bindC]. apply get_get_opt in Hpayload.
  set (named :=
         Js.or (Js.get_opt (Js.get_opt payload "authorization") "from")
           (Js.or (Js.get_opt parsed "payer")
              (Js.or (Js.get_opt parsed "from")
                 (Js.or (Js.get_opt payload "from")
                    (Js.or (Js.get_opt (Js.get_opt (Js.get_opt parsed "x") "signature")
                              "address")
                       Js.Null))))).
  assert (Hnamed : null_or_truthy named).
  { subst named. repeat apply or_null_or_truthy. left. reflexivity. }
  assert (Hsame : named = named_payer parsed).
  { subst named. unfold named_payer. rewrite Hpayload. reflexivity. }
  set (amount0 := Js.or _ (Js.or _ (Js.or _ (Js.or _ Js.Null)))).
  assert (Hamount : null_or_truthy amount0).
  { subst amount0. repeat apply or_null_or_truthy. left. reflexivity. }
  set (network0 := Js.or _ (Js.or _ (Js.or _ Js.Null))).
  assert (Hnetwork : null_or_truthy network0).
  { subst network0. repeat apply or_null_or_truthy. left. reflexivity. }
  destruct (negb (Js.truthy named) && Js.truthy (Js.get_opt payload "transaction"))
    eqn:Hwalks.
  - apply andb_prop in Hwalks as [Hfalsy _]. apply negb_true_iff in Hfalsy.
    destruct (extractSolanaFeePayer R (Js.get_opt payload "transaction"))
      as [found|message] eqn:Hfound; [|discriminate].
    cbn [bindC]. intros H. injection H as <-. cbn [payer amount network].
    split.
    { destruct found as [address|]; [right | left; reflexivity].
      cbn [of_nullable Js.truthy].
      apply negb_true_iff, String.eqb_neq.
      exact (extractSolanaFeePayer_not_empty _ _ _ Hfound). }
    split; [exact Hamount|]. split.
    { destruct (negb (Js.truthy network0) && _ && _); [right; reflexivity | exact Hnetwork]. }
    rewrite <- Hsame, Hfalsy. discriminate.
  - cbn [bindC]. intros H. injection H as <-. cbn [payer amount network].
    split; [exact Hnamed|]. split; [exact Hamount|]. split.
    { destruct (negb (Js.truthy network0) && _ && _); [right; reflexivity | exact Hnetwork]. }
    intros _. exact Hsame.
Qed.

(** X23: What [decodePaymentHeader] returns can be tested with a plain [if]:
    each of [payer], [amount] and [network] is [null] or a value that is
    truthy, never [undefined], an empty string or zero; a payer read from
    the Solana transaction is a string that is not empty.  A payer the
    envelope names in one of its own fields is returned as it is, and the
    transaction is not looked at. *)
Theorem decoded_fields_null_or_truthy (R : Runtime) (paymentHeader : option string)
    (decoded : DecodedPayment) :
  decodePaymentHeader R paymentHeader = Normal (Some decoded) ->
  null_or_truthy (payer decoded)
  /\ null_or_truthy (amount decoded)
  /\ null_or_truthy (network decoded)
  /\ exists header parsed,
      paymentHeader = Some header
      /\ envelope R header = Normal parsed
      /\ (Js.truthy (named_payer parsed) = true -> payer decoded = named_payer parsed).
Proof.
  unfold decodePaymentHeader, envelope.
  destruct paymentHeader as [header|]; [|discriminate].
  destruct (String.eqb header ""); [discriminate|].
  destruct (try_catch (base64_text R header) (fun _ => Normal header))
    as [text|message] eqn:Htext; cbn [bindC try_catch]; [|discriminate].
  destruct (JSON_parse R text) as [parsed|message] eqn:Hparsed; cbn [bindC try_catch];
    [|discriminate].
  destruct (decode_parsed R parsed) as [result|message] eqn:Hdecoded;
    cbn [bindC try_catch]; [|discriminate].
  intros H. injection H as <-.
  destruct (decode_parsed_fields R parsed result Hdecoded) as (H1 & H2 & H3 & H4).
  split; [exact H1|]. split; [exact H2|]. split; [exact H3|].
  exists header, parsed. split; [reflexivity|]. split; [|exact H4].
  rewrite Htext. cbn [bindC]. exact Hparsed.
Qed.

End DecodedFacts.

(** ** The theorems above on worked inputs *)

Section Witnesses.

Lemma schema_failure_alone_is_valid_witness :
  let result := Validator.validateResponse Samples.price_body 200 Samples.with_schema in
  Validator.valid (Schema.validateSchema Samples.price_body Samples.data_schema) = false
  /\ Validator.valid result = true
  /\ Validator.meaningfulnessScore result = 0.7%float
  /\ Validator.reason result = None.
Proof.
  intros result.
  pose proof (schema_failure_alone_is_valid Samples.price_body 200 Samples.with_schema
                Samples.data_schema eq_refl ltac:(lia) eq_refl eq_refl
                ltac:(discriminate) eq_refl eq_refl) as H.
  split; [reflexivity|].
  split; [exact (proj1 H)|]. split; [exact (proj1 (proj2 H))|].
  exact (proj1 (proj2 (proj2 H))).
Defined.

Lemma shouldRefund_sound_witness :
  let result := Validator.validateResponse Js.Null 502 Samples.default_validation in
  Handler.shouldRefund Samples.handler result 502 = Some Handler.server_error
  /\ 500 <= 502.
Proof.
  intros result.
  destruct (shouldRefund_sound Samples.handler result 502 Handler.server_error eq_refl)
    as (_ & switches & _ & _ & Hstatus).
  split; [reflexivity | exact Hstatus].
Defined.

Lemma valid_response_is_not_refunded_witness :
  Validator.valid
    (Validator.validateResponse Samples.price_body 200 Samples.default_validation) = true
  /\ Handler.shouldRefund Samples.handler
       (Validator.validateResponse Samples.price_body 200 Samples.default_validation)
       200 = None.
Proof.
  split; [reflexivity|].
  apply (valid_response_is_not_refunded Samples.handler Samples.price_body 200
           Samples.default_validation).
  - reflexivity.
  - intros switches minimum Hswitches Hminimum.
    injection Hswitches as <-. injection Hminimum as <-. reflexivity.
  - intros validator customResult Hvalidator. discriminate.
Defined.

Lemma parsed_requirements_are_an_array_witness :
  X402.parseX402Response Samples.accepts_body
  = Some (Js.Obj [("x402Version", Js.Num 1%float);
                  ("accepts", Js.Arr [Js.Obj [("scheme", Js.Str "exact")]]);
                  ("resource", Js.Undefined)])
  /\ exists items,
      X402.getPaymentRequirements
        (Js.Obj [("x402Version", Js.Num 1%float);
                 ("accepts", Js.Arr [Js.Obj [("scheme", Js.Str "exact")]]);
                 ("resource", Js.Undefined)]) = Js.Arr items.
Proof.
  split; [reflexivity|].
  exact (proj1 (parsed_requirements_are_an_array Samples.accepts_body _ eq_refl)).
Defined.

Lemma processed_never_transfers_again_witness :
  let refund := Examples.refund_of "refund-1" 100 1%float in
  Refund.transfers_of "refund-1" (Refund.trace Samples.after_refund_1) = 1%nat
  /\ Refund.transfers_of "refund-1"
       (Refund.trace
          (Refund.run Examples.host Examples.provider Samples.after_refund_1
             [Refund.Deliver refund "2026-03-14" "2026-03";
              Refund.Settle "refund-1" (Refund.Broadcast "0xbbb");
              Refund.Deliver refund "2026-03-15" "2026-03"])) = 1%nat.
Proof.
  intros refund. split; [reflexivity|].
  rewrite (processed_never_transfers_again Examples.host Examples.provider
             [Refund.Deliver refund "2026-03-14" "2026-03";
              Refund.Settle "refund-1" (Refund.Broadcast "0xbbb");
              Refund.Deliver refund "2026-03-15" "2026-03"]
             "refund-1" Samples.after_refund_1).
  - reflexivity.
  - change (Refund.processedRefundIds (Refund.executor Samples.after_refund_1))
      with ({[ "refund-1" ]} ∪ (∅ : gset string)).
    apply elem_of_union_l, elem_of_singleton. reflexivity.
  - change (Refund.inFlight Samples.after_refund_1) with (@nil Refund.PendingRefund).
    constructor.
Defined.

Lemma failed_transfer_can_be_retried_witness :
  let refund := Examples.refund_of "refund-50" 50 0.5%float in
  let result :=
    Refund.processSingleRefund Examples.host Examples.provider Examples.near_cap refund
      "2026-03-14" "2026-03" (Refund.Failed "nonce too low" true) in
  Refund.todayRefundedCents (fst result) = 4950
  /\ snd (Refund.before_execution Examples.host Examples.provider (fst result) refund
            "2026-03-14" "2026-03") = true.
Proof.
  intros refund result.
  pose proof (failed_transfer_can_be_retried Examples.host Examples.provider
                Examples.near_cap refund "2026-03-14" "2026-03" "nonce too low" true
                eq_refl eq_refl) as H.
  split; [reflexivity|]. exact (proj2 (proj2 (proj2 H))).
Defined.

Lemma unsupported_network_is_rejected_witness :
  Refund.processSingleRefund Examples.host Examples.provider Examples.near_cap
    Samples.sepolia_refund "2026-03-14" "2026-03" (Refund.Broadcast "0xfeed")
  = (Examples.near_cap,
     [Refund.Send (Refund.refund_executing "refund-s");
      Refund.ExecuteRefundTx Samples.sepolia_refund;
      Refund.Log "Refund execution failed";
      Refund.Send (Refund.refund_rejected "refund-s" "OTHER"
                     (Refund.ExecutionError "Unsupported network: base-sepolia"));
      Refund.OnRefundError "refund-s" "Unsupported network: base-sepolia" false]).
Proof.
  rewrite (unsupported_network_is_rejected Examples.host Examples.provider
             Examples.near_cap Samples.sepolia_refund "2026-03-14" "2026-03"
             (Refund.Broadcast "0xfeed") eq_refl eq_refl).
  reflexivity.
Defined.

Lemma daily_cap_restarts_next_day_witness :
  let refund := Examples.refund_of "refund-100" 100 1%float in
  Refund.exceeds (Refund.todayRefundedCents Examples.near_cap + 100)
    (Refund.dailyCapUsd Examples.provider) = true
  /\ snd (Refund.before_execution Examples.host Examples.provider Examples.near_cap
            refund "2026-03-15" "2026-03") = true.
Proof.
  intros refund. split; [reflexivity|].
  refine (proj1 (daily_cap_restarts_next_day Examples.host Examples.provider
                   Examples.near_cap refund "2026-03-15" "2026-03" _ _ eq_refl eq_refl)).
  - split; [exact (not_elem_of_empty (C := gset string) "refund-100")|].
    exists None. split; [reflexivity|]. split; reflexivity.
  - discriminate.
Defined.

Lemma base58Encode_injective_witness :
  Base58.base58Encode [x00; x01; x02] = "15T"
  /\ forall key : list byte,
      length key = 3%nat -> Base58.base58Encode key = "15T" -> key = [x00; x01; x02].
Proof.
  split; [reflexivity|]. intros key Hlength Hsame.
  exact (base58Encode_injective key [x00; x01; x02] Hlength Hsame).
Defined.

Lemma base58Encode_leading_zeros_witness :
  Base58.base58Encode ([x00; x00] ++ [x01; x02])
  = ("11" ++ Base58.base58Encode [x01; x02])%string.
Proof.
  apply (base58Encode_leading_zeros 2 x01 [x02]). discriminate.
Defined.

Lemma decoded_fields_null_or_truthy_witness :
  let decoded :=
    {| PaymentHeader.payer := Js.Str "4Ss5JMkXAD9Z7cktFEdrqeMuT6jGMF1pVozTyPHZ6zT4";
       PaymentHeader.amount := Js.Null;
       PaymentHeader.network := Js.Str PaymentHeader.SOLANA_MAINNET |} in
  PaymentHeader.decodePaymentHeader Reference.runtime (Some Examples.solana_header)
  = Normal (Some decoded)
  /\ Decoded.null_or_truthy (PaymentHeader.payer decoded)
  /\ Decoded.null_or_truthy (PaymentHeader.amount decoded).
Proof.
  intros decoded.
  assert (H : PaymentHeader.decodePaymentHeader Reference.runtime
                (Some Examples.solana_header) = Normal (Some decoded))
    by (vm_compute; reflexivity).
  split; [exact H|].
  pose proof (decoded_fields_null_or_truthy Reference.runtime
                (Some Examples.solana_header) decoded H) as (H1 & H2 & _).
  split; [exact H1 | exact H2].
Defined.

Lemma short_or_blank_string_is_empty_witness :
  Validator.isEmptyResponse (Js.Str "   ") 2 = true
  /\ Validator.isEmptyResponse (Js.Str "a") 2 = true.
Proof.
  split.
  - apply (short_or_blank_string_is_empty "   " 2). right. split; [lia | reflexivity].
  - apply (short_or_blank_string_is_empty "a" 2). left. cbn. lia.
Defined.

End Witnesses.
